(** * ratarmount: the Joined File stream and the indexed TAR archive

    A shallow embedding of [JoinedFileMount.py] and [ratarmount.py].
    Python integers are [Z], [bytes] are [list byte], [str] is [string],
    a [dict] is an insertion-ordered association list, and an exception
    raised by the code is the [Raise] outcome of [result]. *)

From Stdlib Require Import ZArith List Lia Bool String Ascii QArith.
From Stdlib Require Import DecimalString.
From Stdlib.Strings Require Import Byte.
Import ListNotations.
Local Open Scope Z_scope.

(** ** Python outcomes *)

Module Py.

(** The error numbers the adapters pass to [fuse.FuseOSError]. *)
Inductive errno := ENOENT | EROFS | EIO.

(** The exceptions that occur; [OutOfFuel] is not one of Python's: it
    marks a loop that went past the bound given to it here. *)
Inductive exn :=
| AssertionError
| AttributeError
| TypeError
| IndexError
| ValueError
| OverflowError
| OSError
| FuseOSError (e : errno)
| Exception_ (msg : string)
| OutOfFuel.

(** A call returns a value or raises. *)
Inductive result (A : Type) :=
| Ok (a : A)
| Raise (e : exn).
Arguments Ok {A} a.
Arguments Raise {A} e.

(** Sequencing: an exception ends the computation. *)
Definition rbind {A B} (r : result A) (k : A -> result B) : result B :=
  match r with
  | Ok a => k a
  | Raise e => Raise e
  end.

(** [l[i]] on a Python list: a negative index counts from the end, an
    index out of range raises [IndexError]. *)
Definition getitem {A} (l : list A) (i : Z) : result A :=
  let j := if i <? 0 then Z.of_nat (List.length l) + i else i in
  if j <? 0 then Raise IndexError
  else match nth_error l (Z.to_nat j) with
       | Some a => Ok a
       | None => Raise IndexError
       end.

(** [len( l )] *)
Definition len {A} (l : list A) : Z := Z.of_nat (List.length l).

(** [l[lo:hi]] for [0 <= lo]. *)
Definition slice {A} (l : list A) (lo hi : Z) : list A :=
  firstn (Z.to_nat (hi - lo)) (skipn (Z.to_nat lo) l).

End Py.
Import Py.

Declare Scope result_scope.
Delimit Scope result_scope with result.
Notation "x <- r ;; k" := (rbind r (fun x => k))
  (at level 61, r at next level, right associativity) : result_scope.

(** ** JoinedFileMount.py *)

Module JoinedFileMount.

(** *** [bisect.bisect_left] *)

(** The loop of [bisect_left(a, x)]: [while lo < hi: mid = (lo + hi) // 2;
    if a[mid] < x: lo = mid + 1 else: hi = mid]. *)
Fixpoint bisect_loop (fuel : nat) (a : list Z) (x : Z) (lo hi : nat) : nat :=
  match fuel with
  | O => lo
  | S fuel' =>
      if (lo <? hi)%nat then
        let mid := ((lo + hi) / 2)%nat in
        if nth mid a 0 <? x then bisect_loop fuel' a x (mid + 1)%nat hi
        else bisect_loop fuel' a x lo mid
      else lo
  end.

(** [bisect.bisect_left( a, x )]: the range halves at every turn, so
    [len( a )] turns are enough. *)
Definition bisect_left (a : list Z) (x : Z) : Z :=
  Z.of_nat (bisect_loop (List.length a) a x 0%nat (List.length a)).

(** *** The underlying file objects *)

(** The files on disk, by path; they do not change while a [JoinedFile]
    is alive. *)
Definition disk := string -> option (list byte).

(** An open binary file: its contents and its position. *)
Record OpenFile := mkOpenFile { f_data : list byte; f_pos : Z }.

(** [open( path, 'rb' )] *)
Definition open (d : disk) (path : string) : result OpenFile :=
  match d path with
  | Some data => Ok (mkOpenFile data 0)
  | None => Raise OSError
  end.

(** [f.read( n )] on a buffered reader: up to [n] bytes from the position;
    all of the rest when [n] is [-1]; a [ValueError] for a size below
    [-1]. *)
Definition file_read (f : OpenFile) (n : Z) : result (list byte * OpenFile) :=
  if n <? -1 then Raise ValueError
  else
    let rest := skipn (Z.to_nat (f_pos f)) (f_data f) in
    let got := if n <? 0 then rest else firstn (Z.to_nat n) rest in
    Ok (got, mkOpenFile (f_data f) (f_pos f + len got)).

(** [f.seek( pos, io.SEEK_SET )] *)
Definition file_seek (f : OpenFile) (pos : Z) : OpenFile :=
  mkOpenFile (f_data f) pos.

(** *** class JoinedFile *)

(** [io.SEEK_SET], [io.SEEK_CUR], [io.SEEK_END] *)
Definition SEEK_SET : Z := 0.
Definition SEEK_CUR : Z := 1.
Definition SEEK_END : Z := 2.

Record JoinedFile := mkJoinedFile {
  filePaths : list string;
  sizes : list Z;
  cumsizes : list Z;
  offset : Z;
  fileobj : option OpenFile;
  currentFile : option Z
}.

(** [self.offset = o] *)
Definition set_offset (o : Z) (self : JoinedFile) : JoinedFile :=
  mkJoinedFile (filePaths self) (sizes self) (cumsizes self) o
               (fileobj self) (currentFile self).

(** [self.fileobj = f] *)
Definition set_fileobj (f : option OpenFile) (self : JoinedFile) : JoinedFile :=
  mkJoinedFile (filePaths self) (sizes self) (cumsizes self) (offset self)
               f (currentFile self).

(** A method of [JoinedFile]: it returns or raises, and leaves the object
    in a new state either way. *)
Definition M (A : Type) := JoinedFile -> result A * JoinedFile.

Definition ret {A} (a : A) : M A := fun self => (Ok a, self).
Definition raise {A} (e : exn) : M A := fun self => (Raise e, self).
Definition bind {A B} (m : M A) (k : A -> M B) : M B :=
  fun self =>
    match m self with
    | (Ok a, self') => k a self'
    | (Raise e, self') => (Raise e, self')
    end.
Definition get : M JoinedFile := fun self => (Ok self, self).
Definition modify (f : JoinedFile -> JoinedFile) : M unit :=
  fun self => (Ok tt, f self).
Definition lift {A} (r : result A) : M A := fun self => (r, self).
Definition assert (b : bool) : M unit :=
  if b then ret tt else raise AssertionError.

Declare Scope jf_scope.
Delimit Scope jf_scope with jf.
Notation "x <- m ;; k" := (bind m (fun x => k))
  (at level 61, m at next level, right associativity) : jf_scope.
Notation "m ;;; k" := (bind m (fun _ => k))
  (at level 61, right associativity) : jf_scope.
Local Open Scope jf_scope.

(** The cumulative sizes computed by [__init__]:
    [cumsizes = [0]; for size in sizes: cumsizes.append( cumsizes[-1] + size )]. *)
Definition mk_cumsizes (szs : list Z) : list Z :=
  fold_left (fun cum size => cum ++ [last cum 0 + size]) szs [0].

(** [_findStencil( self, offset )] *)
Definition _findStencil (offset : Z) : M Z :=
  assert (offset >=? 0) ;;;
  self <- get ;;
  let i := bisect_left (cumsizes self) (offset + 1) - 1 in
  assert (i >=? 0) ;;;
  ret i.

(** [self.fileobj.close()]: an [AttributeError] when [fileobj] is [None]. *)
Definition fileobj_close : M unit :=
  self <- get ;;
  match fileobj self with
  | Some _ => ret tt
  | None => raise AttributeError
  end.

(** [seek( self, offset, whence )].  [cumsizes] starts as [[0]] and only
    grows, so [self.cumsizes[-1]] is its last element. *)
Definition seek (d : disk) (offset_arg : Z) (whence : Z) : M Z :=
  (if whence =? SEEK_CUR then
     modify (fun self => set_offset (offset self + offset_arg) self)
   else if whence =? SEEK_END then
     modify (fun self => set_offset (last (cumsizes self) 0 + offset_arg) self)
   else if whence =? SEEK_SET then
     modify (set_offset offset_arg)
   else ret tt) ;;;
  self <- get ;;
  if offset self <? 0 then
    raise (Exception_ "Trying to seek before the start of the file!")
  else if offset self >=? last (cumsizes self) 0 then
    ret (offset self)
  else
    i <- _findStencil (offset self) ;;
    c_i <- lift (getitem (cumsizes self) i) ;;
    let offsetInsideFile := offset self - c_i in
    assert (offsetInsideFile >=? 0) ;;;
    s_i <- lift (getitem (sizes self) i) ;;
    assert (offsetInsideFile <? s_i) ;;;
    (* [i != self.currentFile] *)
    (match currentFile self with
     | Some c => if i =? c then ret tt
                 else path <- lift (getitem (filePaths self) i) ;;
                      f <- lift (open d path) ;;
                      modify (set_fileobj (Some f))
     | None =>
         (* closing the previous file object, when there is one, leaves
            nothing behind: it is replaced at once *)
         path <- lift (getitem (filePaths self) i) ;;
         f <- lift (open d path) ;;
         modify (set_fileobj (Some f))
     end) ;;;
    self' <- get ;;
    match fileobj self' with
    | None => raise AttributeError
    | Some f =>
        modify (set_fileobj (Some (file_seek f offsetInsideFile))) ;;;
        ret (offset self')
    end.

(** The [while size > 0 and i < len( self.sizes )] loop of [read]. *)
Fixpoint read_loop (fuel : nat) (d : disk) (size i : Z) (res : list byte)
  : M (list byte) :=
  match fuel with
  | O => raise OutOfFuel
  | S fuel' =>
      self <- get ;;
      if (size >? 0) && (i <? len (sizes self)) then
        s_i <- lift (getitem (sizes self) i) ;;
        c_i <- lift (getitem (cumsizes self) i) ;;
        let readableSize := Z.min size (s_i - (offset self - c_i)) in
        if readableSize =? 0 then
          let i := i + 1 in
          if i >=? len (filePaths self) then ret res
          else
            fileobj_close ;;;
            path <- lift (getitem (filePaths self) i) ;;
            f <- lift (open d path) ;;
            modify (set_fileobj (Some f)) ;;;
            read_loop fuel' d size i res
        else
          match fileobj self with
          | None => raise AttributeError
          | Some f =>
              r <- lift (file_read f readableSize) ;;
              let '(tmp, f') := r in
              modify (fun self =>
                        set_offset (offset self + len tmp)
                                   (set_fileobj (Some f') self)) ;;;
              read_loop fuel' d (size - readableSize) i (res ++ tmp)
          end
      else ret res
  end.

(** [read( self, size = -1 )].  Every turn of the loop either moves to the
    next part or takes a positive number of bytes off [size], so the bound
    below is never reached from a state [seek] has prepared. *)
Definition read (d : disk) (size : Z) : M (list byte) :=
  self <- get ;;
  let size := if size =? -1 then last (cumsizes self) 0 - offset self else size in
  i <- _findStencil (offset self) ;;
  read_loop (S (Z.to_nat size + List.length (sizes self))) d size i [].

(** [tell( self )] *)
Definition tell : M Z := self <- get ;; ret (offset self).

(** The loop of [__init__( self, filePaths )] over the paths: parts of size
    zero are dropped.  Paths are taken as absolute, so [os.path.abspath]
    changes nothing. *)
Fixpoint collect_parts (d : disk) (paths : list string)
  : result (list string * list Z) :=
  match paths with
  | [] => Ok ([], [])
  | path :: rest =>
      match d path with
      | None => Raise (Exception_ ("File " ++ path ++ " does not exist!"))
      | Some data =>
          match collect_parts d rest with
          | Raise e => Raise e
          | Ok (ps, ss) =>
              if len data >? 0 then Ok (path :: ps, len data :: ss)
              else Ok (ps, ss)
          end
      end
  end.

(** [JoinedFile( filePaths )]: [__init__] ends with [self.seek( 0 )]. *)
Definition init (d : disk) (paths : list string) : result JoinedFile :=
  match collect_parts d paths with
  | Raise e => Raise e
  | Ok (ps, ss) =>
      if forallb (fun s => s >? 0) ss then
        let self := mkJoinedFile ps ss (mk_cumsizes ss) 0 None None in
        match seek d 0 SEEK_SET self with
        | (Ok _, self') => Ok self'
        | (Raise e, _) => Raise e
        end
      else Raise AssertionError
  end.

(** [close( self )] *)
Definition close : M unit :=
  fileobj_close ;;;
  modify (fun self =>
            mkJoinedFile (filePaths self) (sizes self) (cumsizes self)
                         (offset self) None None).

(** *** [ceilDiv] and class FuseFileObjectMount *)

(** [ceilDiv( a, b )], for [b] other than zero: Python's [//] rounds down,
    as [Z.div] does. *)
Definition ceilDiv (a b : Z) : Z := (a + b - 1) / b.

(** The [stats] dictionary: the [st_] fields of [os.stat], by name. *)
Definition statsdict := list (string * Z).

(** [stats[key]], [None] for a missing key. *)
Fixpoint stats_get (key : string) (stats : statsdict) : option Z :=
  match stats with
  | [] => None
  | (k, v) :: rest => if String.eqb key k then Some v else stats_get key rest
  end.

(** [stats[key] = value] *)
Fixpoint stats_set (key : string) (value : Z) (stats : statsdict) : statsdict :=
  match stats with
  | [] => [(key, value)]
  | (k, v) :: rest =>
      if String.eqb key k then (k, value) :: rest
      else (k, v) :: stats_set key value rest
  end.

(** [del stats[key]] on a dictionary that has the key. *)
Fixpoint stats_del (key : string) (stats : statsdict) : statsdict :=
  match stats with
  | [] => []
  | (k, v) :: rest =>
      if String.eqb key k then rest else (k, v) :: stats_del key rest
  end.

Definition S_IFDIR : Z := 16384. (* 0o040000 *)

(** The fields of a [FuseFileObjectMount] the callbacks use. *)
Record FuseFileObjectMount := mkFuseFileObjectMount {
  fm_fileobj : JoinedFile;
  fm_stats : statsdict;
  fm_fileName : string
}.

Definition KeyError : exn := Exception_ "KeyError".
Definition ZeroDivisionError : exn := Exception_ "ZeroDivisionError".

(** [FuseFileObjectMount.__init__( self, fileobj, mountPoint, stats )], up to
    the creation of the mount point: the size of the joined file is taken
    by seeking to its end, and the old position is restored. *)
Definition FuseFileObjectMount_init (d : disk) (fileobj : JoinedFile)
  (stats : statsdict) : result FuseFileObjectMount :=
  let '(r, fileobj) :=
    (oldPos <- tell ;;
     seek d 0 SEEK_END ;;;
     st_size <- tell ;;
     let stats := stats_set "st_size" st_size stats in
     st_blksize <- match stats_get "st_blksize" stats with
                   | Some b => ret b
                   | None => raise KeyError
                   end ;;
     (if st_blksize =? 0 then raise ZeroDivisionError else ret tt) ;;;
     let stats := stats_set "st_blocks" (ceilDiv st_size st_blksize) stats in
     (match stats_get "st_ino" stats with
      | Some _ => ret tt
      | None => raise KeyError
      end) ;;;
     let stats := stats_del "st_ino" stats in
     seek d oldPos SEEK_SET ;;;
     ret stats) fileobj in
  match r with
  | Ok stats => Ok (mkFuseFileObjectMount fileobj stats "joined")
  | Raise e => Raise e
  end.

(** [FuseFileObjectMount.getattr( self, path, fh )] *)
Definition fm_getattr (self : FuseFileObjectMount) (path : string)
  : result statsdict :=
  if String.eqb path "/" then
    Ok (stats_set "st_size" 0
          (stats_set "st_mode" (Z.lor 511 (* 0o777 *) S_IFDIR) (fm_stats self)))
  else if String.eqb path ("/" ++ fm_fileName self) then Ok (fm_stats self)
  else Raise (FuseOSError ENOENT).

(** [FuseFileObjectMount.readdir( self, path, fh )] *)
Definition fm_readdir (self : FuseFileObjectMount) (path : string)
  : result (list string) :=
  if negb (String.eqb path "/") then Raise (FuseOSError ENOENT)
  else Ok ["."; ".."; fm_fileName self]%string.

(** [FuseFileObjectMount.read( self, path, length, offset, fh )]: the result
    and the joined file after the call.  The [except RuntimeError] clause
    catches none of the exceptions [seek] and [read] raise. *)
Definition fm_read (d : disk) (self : FuseFileObjectMount) (path : string)
  (length offset : Z) : result (list byte) * FuseFileObjectMount :=
  if negb (String.eqb path ("/" ++ fm_fileName self)) then
    (Raise (FuseOSError ENOENT), self)
  else
    let '(r, fileobj) :=
      (seek d offset SEEK_SET ;;; read d length) (fm_fileobj self) in
    (r, mkFuseFileObjectMount fileobj (fm_stats self) (fm_fileName self)).

End JoinedFileMount.

(** ** ratarmount.py *)

Module Ratarmount.

Local Open Scope string_scope.
Local Open Scope result_scope.

(** *** Strings and paths ([str], [os.path]) *)

(** [s.split( sep )] for a one-character separator. *)
Fixpoint split (sep : ascii) (s : string) : list string :=
  match s with
  | EmptyString => [EmptyString]
  | String c rest =>
      if Ascii.eqb c sep then EmptyString :: split sep rest
      else match split sep rest with
           | [] => [String c EmptyString]
           | h :: t => String c h :: t
           end
  end.

Definition startswith (s pre : string) : bool := String.prefix pre s.

Definition endswith (s suf : string) : bool :=
  (String.length suf <=? String.length s)%nat &&
  String.eqb (substring (String.length s - String.length suf)
                        (String.length suf) s) suf.

Fixpoint lstrip (c : ascii) (s : string) : string :=
  match s with
  | String c' rest => if Ascii.eqb c' c then lstrip c rest else s
  | EmptyString => EmptyString
  end.

Fixpoint rstrip (c : ascii) (s : string) : string :=
  match s with
  | EmptyString => EmptyString
  | String c' rest =>
      match rstrip c rest with
      | EmptyString => if Ascii.eqb c' c then EmptyString
                       else String c' EmptyString
      | r => String c' r
      end
  end.

(** [s.strip( c )] *)
Definition strip (c : ascii) (s : string) : string := rstrip c (lstrip c s).

Definition sep : ascii := "/"%char.

(** The component loop of [posixpath.normpath]. *)
Fixpoint normpath_comps (initial_slashes : nat) (comps new_comps : list string)
  : list string :=
  match comps with
  | [] => new_comps
  | comp :: rest =>
      if String.eqb comp "" || String.eqb comp "." then
        normpath_comps initial_slashes rest new_comps
      else if negb (String.eqb comp "..")
              || (Nat.eqb initial_slashes 0 && Nat.eqb (List.length new_comps) 0)
              || (negb (Nat.eqb (List.length new_comps) 0)
                  && String.eqb (last new_comps "") "..") then
        normpath_comps initial_slashes rest (new_comps ++ [comp])
      else
        normpath_comps initial_slashes rest (removelast new_comps)
  end.

(** [os.path.normpath( path )] on POSIX. *)
Definition normpath (path : string) : string :=
  if String.eqb path "" then "."
  else
    let initial_slashes :=
      if startswith path "/" then
        if startswith path "//" && negb (startswith path "///") then 2%nat
        else 1%nat
      else 0%nat in
    let comps := normpath_comps initial_slashes (split sep path) [] in
    let path' := String.concat "/" comps in
    let path' := String.concat "" (repeat "/" initial_slashes) ++ path' in
    if String.eqb path' "" then "." else path'.

(** [re.sub( r"\.tar$", "", path )] for a path without a newline. *)
Definition strip_tar_suffix (path : string) : string :=
  if endswith path ".tar" then substring 0 (String.length path - 4) path
  else path.

(** *** [stat] and [tarfile] constants *)

Definition S_IFDIR : Z := 16384. (* 0o040000 *)
Definition S_IFREG : Z := 32768. (* 0o100000 *)
Definition S_IFLNK : Z := 40960. (* 0o120000 *)
Definition S_IFCHR : Z := 8192. (* 0o020000 *)
Definition S_IFBLK : Z := 24576. (* 0o060000 *)
Definition S_IFIFO : Z := 4096. (* 0o010000 *)
Definition S_IRUSR : Z := 256. (* 0o400 *)
Definition S_IWUSR : Z := 128. (* 0o200 *)
Definition S_IXUSR : Z := 64. (* 0o100 *)
Definition S_IRGRP : Z := 32. (* 0o040 *)
Definition S_IWGRP : Z := 16. (* 0o020 *)
Definition S_IXGRP : Z := 8. (* 0o010 *)
Definition S_IROTH : Z := 4. (* 0o004 *)
Definition S_IWOTH : Z := 2. (* 0o002 *)
Definition S_IXOTH : Z := 1. (* 0o001 *)

Definition REGTYPE : list byte := [x30].
Definition AREGTYPE : list byte := [x00].
Definition LNKTYPE : list byte := [x31].
Definition SYMTYPE : list byte := [x32].
Definition CHRTYPE : list byte := [x33].
Definition BLKTYPE : list byte := [x34].
Definition DIRTYPE : list byte := [x35].
Definition FIFOTYPE : list byte := [x36].
Definition CONTTYPE : list byte := [x37].
Definition GNUTYPE_SPARSE : list byte := [x53].

Definition bytes_eqb (a b : list byte) : bool :=
  if list_eq_dec Byte.byte_eq_dec a b then true else false.

(** *** The index: [FileInfo] records in nested dictionaries *)

(** A time stamp as [tarfile] and [os.stat] report it: an integer or a
    float.  The finite ones are rationals; a PAX header can also give the
    floats [nan], [inf] and [-inf]. *)
Inductive number :=
| Finite (q : Q)
| NaN
| PosInf
| NegInf.

(** [FileInfo = namedtuple( "FileInfo",
      "offset size mtime mode type linkname uid gid istar" )]. *)
Record FileInfo := mkFileInfo {
  offset : Z;
  size : Z;
  mtime : number;
  mode : Z;
  type : list byte;
  linkname : string;
  uid : Z;
  gid : Z;
  istar : bool
}.

(** A value of the index: a file record or a folder, a [dict] from names
    to values in insertion order. *)
#[warnings="-register-all"]
Inductive node :=
| File (fi : FileInfo)
| Dir (entries : list (string * node)).

Definition dict := list (string * node).

(** [d.get( key )]; [key in d] is [dict_get key d <> None]. *)
Fixpoint dict_get (key : string) (d : dict) : option node :=
  match d with
  | [] => None
  | (k, v) :: rest => if String.eqb key k then Some v else dict_get key rest
  end.

(** [d[key] = value] and [d.update( { key : value } )]: an existing key
    keeps its place, a new one goes last. *)
Fixpoint dict_set (key : string) (value : node) (d : dict) : dict :=
  match d with
  | [] => [(key, value)]
  | (k, v) :: rest =>
      if String.eqb key k then (k, value) :: rest
      else (k, v) :: dict_set key value rest
  end.

Definition keys (d : dict) : list string := map fst d.

(** The walk of [getFileInfo] down the hierarchy.  On a [FileInfo], [name in p]
    is tuple membership: of the nine fields only [linkname] is a [str], and
    [p[name]] then raises [TypeError]. *)
Fixpoint walk (names : list string) (p : node) : result (option node) :=
  match names with
  | [] => Ok (Some p)
  | name :: rest =>
      if String.eqb name "" then walk rest p
      else match p with
           | Dir d =>
               match dict_get name d with
               | None => Ok None
               | Some v => walk rest v
               end
           | File fi =>
               if String.eqb name (linkname fi) then Raise TypeError
               else Ok None
           end
  end.

(** The record [getFileInfo] makes up for a folder without a ["."] entry. *)
Definition default_dir_info : FileInfo :=
  mkFileInfo 0 1 (Finite 0) (Z.lor 365 (* 0o555 *) S_IFDIR) DIRTYPE "" 0 0
             false.

(** [getFileInfo( self, path, listDir )]: [Ok None] is Python's [None].
    [repackDeserializedNamedTuple] changes lists and dictionaries of
    integers, which the other serialization backends produce; on records
    and folders it is the identity. *)
Definition getFileInfo (fileIndex : dict) (path : string) (listDir : bool)
  : result (option node) :=
  p <- walk (split sep (normpath path)) (Dir fileIndex) ;;
  match p with
  | None => Ok None
  | Some (Dir d) =>
      if negb listDir then
        match dict_get "." d with
        | Some v => Ok (Some v)
        | None => Ok (Some (File default_dir_info))
        end
      else Ok (Some (Dir d))
  | Some (File fi) => Ok (Some (File fi))
  end.

Definition is_dict (v : option node) : bool :=
  match v with Some (Dir _) => true | _ => false end.

Definition is_FileInfo (v : option node) : bool :=
  match v with Some (File _) => true | _ => false end.

(** [isDir( self, path )] *)
Definition isDir (fileIndex : dict) (path : string) : result bool :=
  v <- getFileInfo fileIndex path true ;; Ok (is_dict v).

(** [exists( self, path )] *)
Definition exists_ (fileIndex : dict) (path : string) : result bool :=
  let path := normpath path in
  d <- isDir fileIndex path ;;
  if d then Ok true
  else v <- getFileInfo fileIndex path false ;; Ok (is_FileInfo v).

(** The loop [for name in pathHierarchy[:-1]: ... p = p.setdefault( name, {} )]
    followed by an update [f] of the folder reached. *)
Fixpoint descend (names : list string) (f : dict -> dict) (p : node)
  : result node :=
  match names with
  | [] =>
      match p with
      | Dir d => Ok (Dir (f d))
      | File _ => Raise AttributeError
      end
  | name :: rest =>
      if String.eqb name "" then descend rest f p
      else match p with
           | File _ => Raise AssertionError
           | Dir d =>
               let child := match dict_get name d with
                            | Some v => v
                            | None => Dir []
                            end in
               child' <- descend rest f child ;;
               Ok (Dir (dict_set name child' d))
           end
  end.

Definition descend_root (names : list string) (f : dict -> dict)
  (fileIndex : dict) : result dict :=
  p <- descend names f (Dir fileIndex) ;;
  match p with
  | Dir d => Ok d
  | File _ => Raise AssertionError
  end.

(** [setFileInfo( self, path, fileInfo )] *)
Definition setFileInfo (fileIndex : dict) (path : string) (fileInfo : FileInfo)
  : result dict :=
  let pathHierarchy := split sep (normpath path) in
  descend_root (removelast pathHierarchy)
               (dict_set (last pathHierarchy "") (File fileInfo)) fileIndex.

(** [setDirInfo( self, path, dirInfo, dirContents )] *)
Definition setDirInfo (fileIndex : dict) (path : string) (dirInfo : FileInfo)
  (dirContents : dict) : result dict :=
  let pathHierarchy := split sep (strip sep (normpath path)) in
  descend_root (removelast pathHierarchy)
               (dict_set (last pathHierarchy "")
                         (Dir (dict_set "." (File dirInfo) dirContents)))
               fileIndex.

(** *** Building the index: [createIndex] *)

(** What [tarfile] reports for one member. *)
Record TarInfo := mkTarInfo {
  ti_name : string;
  ti_mode : Z;
  ti_type : list byte;
  ti_size : Z;
  ti_mtime : number;
  ti_linkname : string;
  ti_uid : Z;
  ti_gid : Z;
  ti_offset_data : Z
}.

Definition ti_isdir (t : TarInfo) : bool := bytes_eqb (ti_type t) DIRTYPE.
Definition ti_isfile (t : TarInfo) : bool :=
  bytes_eqb (ti_type t) REGTYPE || bytes_eqb (ti_type t) AREGTYPE
  || bytes_eqb (ti_type t) CONTTYPE || bytes_eqb (ti_type t) GNUTYPE_SPARSE.
Definition ti_issym (t : TarInfo) : bool := bytes_eqb (ti_type t) SYMTYPE.
Definition ti_ischr (t : TarInfo) : bool := bytes_eqb (ti_type t) CHRTYPE.
Definition ti_isblk (t : TarInfo) : bool := bytes_eqb (ti_type t) BLKTYPE.
Definition ti_isfifo (t : TarInfo) : bool := bytes_eqb (ti_type t) FIFOTYPE.

(** A member of the archive being scanned, with what [tarfile.open] makes
    of its payload: the members of the TAR stored in it, or the error it
    raises. *)
Record Member := mkMember {
  info : TarInfo;
  payload : result (list TarInfo)
}.

(** The five [mode |= stat.S_IF...] lines of [createIndex]. *)
Definition scan_mode (tarInfo : TarInfo) : Z :=
  let mode := ti_mode tarInfo in
  let mode := if ti_isdir tarInfo then Z.lor mode S_IFDIR else mode in
  let mode := if ti_isfile tarInfo then Z.lor mode S_IFREG else mode in
  let mode := if ti_issym tarInfo then Z.lor mode S_IFLNK else mode in
  let mode := if ti_ischr tarInfo then Z.lor mode S_IFCHR else mode in
  let mode := if ti_isfifo tarInfo then Z.lor mode S_IFIFO else mode in
  mode.

Definition scan_FileInfo (tarInfo : TarInfo) : FileInfo :=
  mkFileInfo (ti_offset_data tarInfo) (ti_size tarInfo) (ti_mtime tarInfo)
             (scan_mode tarInfo) (ti_type tarInfo) (ti_linkname tarInfo)
             (ti_uid tarInfo) (ti_gid tarInfo) false.

(** The mode of a recursively mounted TAR: a folder, executable where it
    is readable. *)
Definition mount_mode (mode : Z) : Z :=
  let mountMode := Z.lor (Z.land mode 511 (* 0o777 *)) S_IFDIR in
  let mountMode := if negb (Z.land mountMode S_IRUSR =? 0)%Z
                   then Z.lor mountMode S_IXUSR else mountMode in
  let mountMode := if negb (Z.land mountMode S_IRGRP =? 0)%Z
                   then Z.lor mountMode S_IXGRP else mountMode in
  let mountMode := if negb (Z.land mountMode S_IROTH =? 0)%Z
                   then Z.lor mountMode S_IXOTH else mountMode in
  mountMode.

Definition replace_mode_istar (fi : FileInfo) (m : Z) (t : bool) : FileInfo :=
  mkFileInfo (offset fi) (size fi) (mtime fi) m (type fi) (linkname fi)
             (uid fi) (gid fi) t.

(** [indexIsLoaded]: a non-empty [fileIndex]. *)
Definition indexIsLoaded (fileIndex : dict) : bool :=
  match fileIndex with [] => false | _ => true end.

(** The body of the loop of [createIndex] for one member; [indexedTar] is the
    index of the TAR inside the member when one was built.  In the name-clash
    branch [setFileInfo] is called with one argument too many, which raises
    [TypeError] once the arguments are evaluated. *)
Definition createIndex_member (fileIndex : dict) (tarInfo : TarInfo)
  (indexedTar : option dict) : result dict :=
  let fileInfo := scan_FileInfo tarInfo in
  let path := normpath ("/" ++ ti_name tarInfo) in
  match (match indexedTar with
         | Some nested => if indexIsLoaded nested then Some nested else None
         | None => None
         end) with
  | Some nested =>
      let extractedName := strip_tar_suffix path in
      e <- exists_ fileIndex extractedName ;;
      let path := if negb e then extractedName else path in
      let fileInfo :=
        replace_mode_istar fileInfo (mount_mode (mode fileInfo)) true in
      _ <- exists_ fileIndex path ;;
      setDirInfo fileIndex path fileInfo nested
  | None =>
      if negb (String.eqb path "/") then
        e <- exists_ fileIndex path ;;
        fileInfo <-
          (if e then
             old <- getFileInfo fileIndex path false ;;
             match old with
             | Some (File old) =>
                 if istar old then
                   _ <- getFileInfo fileIndex path true ;;
                   Raise TypeError
                 else Ok old
             | _ => Raise AttributeError
             end
           else Ok fileInfo) ;;
        if ti_isdir tarInfo then setDirInfo fileIndex path fileInfo []
        else setFileInfo fileIndex path fileInfo
      else Ok fileIndex
  end.

(** [createIndex] without recursive mounting, as the [IndexedTar] built
    for a nested TAR runs it ([recursive] is not passed on). *)
Fixpoint createIndex_flat (fileIndex : dict) (members : list TarInfo)
  : result dict :=
  match members with
  | [] => Ok fileIndex
  | tarInfo :: rest =>
      fileIndex' <- createIndex_member fileIndex tarInfo None ;;
      createIndex_flat fileIndex' rest
  end.

(** [createIndex( self, fileObject )] over the members [tarfile] yields,
    starting from [self.fileIndex = {}]. *)
Fixpoint createIndex_loop (mountRecursively : bool) (fileIndex : dict)
  (members : list Member) : result dict :=
  match members with
  | [] => Ok fileIndex
  | m :: rest =>
      let tarInfo := info m in
      indexedTar <-
        (if mountRecursively && ti_isfile tarInfo
            && endswith (ti_name tarInfo) ".tar" then
           inner <- payload m ;;
           nested <- createIndex_flat [] inner ;;
           Ok (Some nested)
         else Ok None) ;;
      fileIndex' <- createIndex_member fileIndex tarInfo indexedTar ;;
      createIndex_loop mountRecursively fileIndex' rest
  end.

Definition createIndex (mountRecursively : bool) (members : list Member)
  : result dict :=
  createIndex_loop mountRecursively [] members.

(** *** The custom index format: [dump] and [load] *)

Definition byte_of_Z (z : Z) : byte :=
  match Byte.of_N (Z.to_N z) with
  | Some b => b
  | None => x00
  end.

Definition Z_of_byte (b : byte) : Z := Z.of_N (Byte.to_N b).

Fixpoint le_bytes (n : nat) (v : Z) : list byte :=
  match n with
  | O => []
  | S n' => byte_of_Z (v mod 256) :: le_bytes n' (v / 256)
  end.

(** [v.to_bytes( n, byteorder = 'little' )] *)
Definition to_bytes (v : Z) (n : nat) : result (list byte) :=
  if (0 <=? v)%Z && (v <? 2 ^ (8 * Z.of_nat n))%Z then Ok (le_bytes n v)
  else Raise OverflowError.

(** [int.from_bytes( b, byteorder = 'little' )] *)
Fixpoint from_bytes (b : list byte) : Z :=
  match b with
  | [] => 0
  | x :: rest => (Z_of_byte x + 256 * from_bytes rest)%Z
  end.

(** [file.read( n )] on the rest of a binary stream, for [0 <= n]: the
    bytes read and the stream after them. *)
Definition stream_read (n : Z) (file : list byte) : list byte * list byte :=
  (firstn (Z.to_nat n) file, skipn (Z.to_nat n) file).

(** The library functions [dump] and [load] call: [str.encode] and
    [bytes.decode] (UTF-8), and msgpack for the records, where
    [msgpack_loads] stands for [FileInfo( *msgpack.loads( serialized ) )]. *)
Record Codecs := mkCodecs {
  str_encode : string -> result (list byte);
  bytes_decode : list byte -> result string;
  msgpack_dumps : FileInfo -> result (list byte);
  msgpack_loads : list byte -> result FileInfo
}.

Section CustomCodec.

Context (lib : Codecs).

(** [dump( key, file )] for a [str]. *)
Definition dump_str (toDump : string) : result (list byte) :=
  serialized <- str_encode lib toDump ;;
  n <- to_bytes (len serialized) 4 ;;
  Ok (x04 :: n ++ serialized).

(** [dump( value, file )] for a [FileInfo]. *)
Definition dump_FileInfo (toDump : FileInfo) : result (list byte) :=
  serialized <- msgpack_dumps lib toDump ;;
  n <- to_bytes (len serialized) 4 ;;
  Ok (x05 :: n ++ serialized).

(** [dump( toDump, file )]: the bytes written to [file]. *)
Fixpoint dump (toDump : node) : result (list byte) :=
  match toDump with
  | File fi => dump_FileInfo fi
  | Dir entries =>
      let fix dump_items (items : list (string * node)) : result (list byte) :=
        match items with
        | [] => Ok []
        | (key, value) :: rest =>
            k <- dump_str key ;;
            v <- dump value ;;
            r <- dump_items rest ;;
            Ok (x03 :: k ++ v ++ r)
        end in
      body <- dump_items entries ;;
      Ok (x01 :: body ++ [x02])
  end.

Fixpoint dump_items (items : list (string * node)) : result (list byte) :=
  match items with
  | [] => Ok []
  | (key, value) :: rest =>
      k <- dump_str key ;;
      v <- dump value ;;
      r <- dump_items rest ;;
      Ok (x03 :: k ++ v ++ r)
  end.

(** [str( int.from_bytes( b, byteorder = 'little' ) )] *)
Definition str_from_bytes (b : list byte) : string :=
  NilZero.string_of_int (Z.to_int (from_bytes b)).

(** [load( file )] and its [while len( dictElementType ) != 0] loop, on the
    rest of the stream; each returns what is left of the stream.  Every
    call and every turn of the loop reads at least one byte. *)
Fixpoint load_fuel (fuel : nat) (file : list byte)
  : result (dict * list byte) :=
  match fuel with
  | O => Raise OutOfFuel
  | S fuel' =>
      let '(elementType, file) := stream_read 1 file in
      if bytes_eqb elementType [x01] then load_loop fuel' file []
      else Raise (Exception_ "Custom TAR index loader: invalid file format")
  end
with load_loop (fuel : nat) (file : list byte) (res : dict)
  : result (dict * list byte) :=
  match fuel with
  | O => Raise OutOfFuel
  | S fuel' =>
      let '(dictElementType, file) := stream_read 1 file in
      if (len dictElementType =? 0)%Z then Ok (res, file)
      else if bytes_eqb dictElementType [x02] then Ok (res, file)
      else if bytes_eqb dictElementType [x03] then
        let '(keyType, file) := stream_read 1 file in
        if negb (bytes_eqb keyType [x04]) then
          Raise (Exception_ "Custom TAR index loader: invalid file format")
        else
          let '(sz, file) := stream_read 4 file in
          let '(raw, file) := stream_read (from_bytes sz) file in
          key <- bytes_decode lib raw ;;
          let '(valueType, file') := stream_read 1 file in
          if bytes_eqb valueType [x05] then
            let '(sz, file') := stream_read 4 file' in
            let '(serialized, file') := stream_read (from_bytes sz) file' in
            value <- msgpack_loads lib serialized ;;
            load_loop fuel' file' (dict_set key (File value) res)
          else if bytes_eqb valueType [x01] then
            (* [file.seek( -1, io.SEEK_CUR )]: [load] reads the tag again *)
            r <- load_fuel fuel' file ;;
            let '(value, file') := r in
            load_loop fuel' file' (dict_set key (Dir value) res)
          else
            Raise (Exception_
                     ("Custom TAR index loader: invalid file format "
                      ++ "(expected msgpack or dict but got"
                      ++ str_from_bytes valueType ++ ")"))
      else
        Raise (Exception_
                 ("Custom TAR index loader: invalid file format "
                  ++ "(expected end-of-dict or key-value pair but got"
                  ++ str_from_bytes dictElementType ++ ")"))
  end.

Definition load (file : list byte) : result dict :=
  r <- load_fuel (S (List.length file)) file ;;
  Ok (fst r).

End CustomCodec.

(** *** class TarMount *)

(** What [os.stat] reports for the archive file. *)
Record TarStats := mkTarStats {
  ts_size : Z;
  ts_mtime : Q;
  ts_mode : Z;
  ts_uid : Z;
  ts_gid : Z
}.

(** [TarMount.__init__]: the index of the archive, with a ["."] entry for
    the mount point itself. *)
Definition TarMount_init (fileIndex : dict) (tarStats : TarStats) : dict :=
  dict_set "."
           (File (mkFileInfo 0 (ts_size tarStats) (Finite (ts_mtime tarStats))
                             (mount_mode (ts_mode tarStats)) DIRTYPE ""
                             (ts_uid tarStats) (ts_gid tarStats) true))
           fileIndex.

(** The [statDict] of [getattr]. *)
Record StatDict := mkStatDict {
  st_size : Z;
  st_mtime : Z;
  st_mode : Z;
  st_uid : Z;
  st_gid : Z;
  st_nlink : Z
}.

(** [int( x )] of a finite number truncates towards zero. *)
Definition int_of_Q (x : Q) : Z := Z.quot (Qnum x) (Z.pos (Qden x)).

(** [int( x )]: a [ValueError] for [nan], an [OverflowError] for an
    infinity. *)
Definition int_of_number (x : number) : result Z :=
  match x with
  | Finite q => Ok (int_of_Q q)
  | NaN => Raise ValueError
  | PosInf | NegInf => Raise OverflowError
  end.

(** [getattr( self, path, fh )] on [self.indexedTar.fileIndex]. *)
Definition getattr (fileIndex : dict) (path : string) : result StatDict :=
  fileInfo <- getFileInfo fileIndex path false ;;
  match fileInfo with
  | Some (File fileInfo) =>
      st_mtime <- int_of_number (mtime fileInfo) ;;
      Ok (mkStatDict
            (size fileInfo)
            st_mtime
            (Z.land (mode fileInfo)
                    (Z.lnot (Z.lor (Z.lor S_IWUSR S_IWGRP) S_IWOTH)))
            (uid fileInfo)
            (gid fileInfo)
            2)
  | _ => Raise (FuseOSError EROFS)
  end.

(** [readdir] is a generator: the names it yields before it ends, and the
    exception that ends it when there is one.  [printDebug] is below 2, as
    it is by default, so the debugging output ahead of the first [yield] is
    not evaluated. *)
Definition readdir (fileIndex : dict) (path : string)
  : list string * option exn :=
  match getFileInfo fileIndex path true with
  | Ok (Some (Dir d)) => ("." :: ".." :: keys d, None)
  | Ok _ => (["."; ".."], Some AttributeError)
  | Raise e => (["."; ".."], Some e)
  end.

(** [readlink( self, path )]: [TarMount] has no attribute [root], so the
    branch for an absolute link name raises [AttributeError]. *)
Definition readlink (fileIndex : dict) (path : string) : result string :=
  fileInfo <- getFileInfo fileIndex path false ;;
  match fileInfo with
  | Some (File fileInfo) =>
      let pathname := linkname fileInfo in
      if startswith pathname "/" then Raise AttributeError
      else Ok pathname
  | _ => Raise (FuseOSError EROFS)
  end.

(** An integer a C [off_t] or [Py_ssize_t] holds: 64 bits, signed. *)
Definition fits_int64 (n : Z) : bool :=
  (- 2 ^ 63 <=? n)%Z && (n <? 2 ^ 63)%Z.

(** [TarMount.read( self, path, length, offset, fh )] on the open archive
    [tarFile], a buffered reader: the bytes read and the file object after
    the call.  [seek] raises [ValueError] for a position an [off_t] does
    not hold and [OSError] for a negative one; [read] then raises
    [OverflowError] for a length a [Py_ssize_t] does not hold and
    [ValueError] for one below [-1].  The file system is taken to accept
    every position from 0 on that an [off_t] holds. *)
Definition TarMount_read (fileIndex : dict) (tarFile : JoinedFileMount.OpenFile)
  (path : string) (length offset_arg : Z)
  : result (list byte) * JoinedFileMount.OpenFile :=
  match getFileInfo fileIndex path false with
  | Raise e => (Raise e, tarFile)
  | Ok (Some (File fileInfo)) =>
      let pos := (offset fileInfo + offset_arg)%Z in
      if negb (fits_int64 pos) then (Raise ValueError, tarFile)
      else if (pos <? 0)%Z then (Raise OSError, tarFile)
      else
        let tarFile := JoinedFileMount.file_seek tarFile pos in
        if negb (fits_int64 length) then (Raise OverflowError, tarFile)
        else
          match JoinedFileMount.file_read tarFile length with
          | Raise e => (Raise e, tarFile)
          | Ok (data, tarFile') => (Ok data, tarFile')
          end
  | Ok _ => (Raise (FuseOSError EROFS), tarFile)
  end.

(** *** The names of the index files *)

Definition availableSerializationBackends : list string :=
  ["pickle"; "pickle2"; "pickle3"; "custom"; "cbor"; "msgpack"; "rapidjson";
   "ujson"; "simplejson"].

Definition availableCompressions : list string := [""; "lz4"; "gz"].

(** [supportedIndexExtensions()]: every backend with every compression,
    ['.'.join( combination ).strip( '.' )]. *)
Definition supportedIndexExtensions : list string :=
  map (fun combination =>
         strip "."%char (fst combination ++ "." ++ snd combination))
      (list_prod availableSerializationBackends availableCompressions).

(** [x in l] for a list of strings. *)
Definition str_in (x : string) (l : list string) : bool :=
  existsb (String.eqb x) l.

(** [serializationBackendFromFileName( self, fileName )]; [splitName[-2:]]
    is the last two elements, or all of a shorter list. *)
Definition serializationBackendFromFileName (fileName : string)
  : option string :=
  let splitName := split "."%char fileName in
  let lastTwo :=
    String.concat "." (skipn (List.length splitName - 2) splitName) in
  if (2 <? List.length splitName)%nat && str_in lastTwo supportedIndexExtensions
  then Some lastTwo
  else if str_in (last splitName "") supportedIndexExtensions
  then Some (last splitName "")
  else None.

(** The backend [__init__] settles on: the one asked for when
    [supportedIndexExtensions] has it, else ['custom']. *)
Definition chosen_backend (serializationBackend : option string) : string :=
  match serializationBackend with
  | Some b => if str_in b supportedIndexExtensions then b else "custom"
  | None => "custom"
  end.

(** [s.replace( "/", "_" )] *)
Fixpoint replace_slashes (s : string) : string :=
  match s with
  | EmptyString => EmptyString
  | String c rest =>
      String (if Ascii.eqb c "/"%char then "_"%char else c) (replace_slashes rest)
  end.

(** [self.possibleIndexFilePaths], with [cacheFolder] the expanded
    [~/.ratarmount]. *)
Definition possibleIndexFilePaths (cacheFolder pathToTar : string)
  : list string :=
  let tarFileName := normpath pathToTar in
  [tarFileName ++ ".index";
   cacheFolder ++ "/" ++ replace_slashes tarFileName ++ ".index"].

(** The names [__init__] tries and writes for the chosen backend:
    [indexPath + "." + serializationBackend]. *)
Definition indexFileNames (cacheFolder pathToTar : string)
  (serializationBackend : option string) : list string :=
  map (fun indexPath => indexPath ++ "." ++ chosen_backend serializationBackend)
      (possibleIndexFilePaths cacheFolder pathToTar).

End Ratarmount.

(** ** Specification vocabulary for the Joined File *)

Module JoinedFileSpec.
Import JoinedFileMount.
Local Open Scope Z_scope.

(** The prefix sums of a list of sizes, from a starting value. *)
Fixpoint psums (a : Z) (szs : list Z) : list Z :=
  match szs with
  | [] => [a]
  | s :: rest => a :: psums (a + s) rest
  end.

(** [sum( sizes )] *)
Definition sum (szs : list Z) : Z := fold_right Z.add 0 szs.

(** A list whose elements grow strictly with the index. *)
Definition increasing (a : list Z) : Prop :=
  forall i j, (i < j < List.length a)%nat -> nth i a 0 < nth j a 0.

(** The sizes are positive and [cumsizes] is what [__init__] computes. *)
Definition sizes_inv (self : JoinedFile) : Prop :=
  Forall (fun s => 0 < s) (sizes self) /\
  cumsizes self = mk_cumsizes (sizes self).

(** Part [i] owns offset [o]: [cumulative[i] <= o < cumulative[i+1]]. *)
Definition owns (cum : list Z) (o i : Z) : Prop :=
  0 <= i /\
  exists a b, getitem cum i = Ok a /\ getitem cum (i + 1) = Ok b /\ a <= o < b.

(** File sizes [5, 2], as in the docstring of [_findStencil]. *)
Definition joined_5_2 : JoinedFile :=
  mkJoinedFile ["a"%string; "b"%string] [5; 2] (mk_cumsizes [5; 2]) 0 None None.

(** The exception [seek] raises for a position before the start. *)
Definition seek_error : exn :=
  Exception_ "Trying to seek before the start of the file!".

(** A [JoinedFile] over the non-empty parts [parts], the contents of the
    files [filePaths] names. *)
Definition jf_inv (d : disk) (parts : list (list byte)) (self : JoinedFile)
  : Prop :=
  Forall2 (fun path c => d path = Some c) (filePaths self) parts /\
  Forall (fun c => c <> []) parts /\
  sizes self = map len parts /\
  cumsizes self = mk_cumsizes (sizes self) /\
  currentFile self = None.

(** The offset at which part [i] starts. *)
Definition start_of (parts : list (list byte)) (i : nat) : nat :=
  List.length (List.concat (firstn i parts)).

(** The fields a method never assigns. *)
Definition same_parts (s1 s2 : JoinedFile) : Prop :=
  filePaths s1 = filePaths s2 /\ sizes s1 = sizes s2 /\
  cumsizes s1 = cumsizes s2 /\ currentFile s1 = currentFile s2.

(** A method that leaves those fields as they are. *)
Definition frames {A} (m : M A) : Prop :=
  forall self, same_parts (snd (m self)) self.

(** The parts of scenario S2: sizes [2, 2, 2, 4, 8, 1], bytes 0 to 18. *)
Definition parts_S2 : list (list byte) :=
  [[x00; x01]; [x02; x03]; [x04; x05]; [x06; x07; x08; x09];
   [x0a; x0b; x0c; x0d; x0e; x0f; x10; x11]; [x12]].

(** The part files of S2, named as in [testJoinedFile]. *)
Definition paths_S2 : list string :=
  ["0"; "1"; "2"; "3"; "4"; "5"]%string.

(** The disk holding the parts of S2. *)
Definition disk_S2 : disk := fun path =>
  match find (fun pc => String.eqb path (fst pc)) (combine paths_S2 parts_S2) with
  | Some pc => Some (snd pc)
  | None => None
  end.

(** The object [JoinedFile( paths_S2 )] builds. *)
Definition joined_S2 : JoinedFile :=
  mkJoinedFile paths_S2 (map len parts_S2) (mk_cumsizes (map len parts_S2))
               0 (Some (mkOpenFile [x00; x01] 0)) None.

(** The joined file is inside part [i], [k] bytes into it, with that
    part's file open at that position. *)
Definition aligned (parts : list (list byte)) (self : JoinedFile) (i k : nat)
  : Prop :=
  (i < List.length parts)%nat /\
  (k < List.length (nth i parts []))%nat /\
  offset self = Z.of_nat (start_of parts i + k) /\
  fileobj self = Some (mkOpenFile (nth i parts []) (Z.of_nat k)).

(** The contents of the files [paths] name that are not empty, in order. *)
Fixpoint nonempty_contents (d : disk) (paths : list string)
  : list (list byte) :=
  match paths with
  | [] => []
  | path :: rest =>
      match d path with
      | Some data =>
          if len data >? 0 then data :: nonempty_contents d rest
          else nonempty_contents d rest
      | None => nonempty_contents d rest
      end
  end.

(** The [st_] fields of the first part file of S2, and the mount over the
    joined file of S2. *)
Definition stats_S2 : statsdict :=
  [("st_blksize", 4096); ("st_ino", 42); ("st_mode", 33188);
   ("st_size", 2)]%string.

Definition mount_S2 : FuseFileObjectMount :=
  mkFuseFileObjectMount joined_S2 stats_S2 "joined".

End JoinedFileSpec.

(** ** Specification vocabulary for the index and the adapter *)

Module RatarmountSpec.
Import Ratarmount.
Local Open Scope Z_scope.
Local Open Scope string_scope.
Local Open Scope result_scope.

(** Every folder of the index has each key once, as a [dict] has. *)
Fixpoint unique_keys (t : node) : Prop :=
  match t with
  | File _ => True
  | Dir d =>
      NoDup (keys d) /\
      (fix all (l : list (string * node)) : Prop :=
         match l with
         | [] => True
         | (_, v) :: rest => unique_keys v /\ all rest
         end) d
  end.

(** The same for the values of a list of entries. *)
Fixpoint unique_keys_items (l : list (string * node)) : Prop :=
  match l with
  | [] => True
  | (_, v) :: rest => unique_keys v /\ unique_keys_items rest
  end.

(** Induction on the index, through the entries of a folder. *)
Fixpoint node_induction (P : node -> Prop)
  (Hfile : forall fi, P (File fi))
  (Hdir : forall d, Forall (fun kv => P (snd kv)) d -> P (Dir d))
  (t : node) : P t :=
  match t with
  | File fi => Hfile fi
  | Dir d =>
      Hdir d ((fix go (l : list (string * node))
               : Forall (fun kv => P (snd kv)) l :=
                 match l with
                 | [] => Forall_nil _
                 | kv :: rest =>
                     Forall_cons kv (node_induction P Hfile Hdir (snd kv)) (go rest)
                 end) d)
  end.

(** What [load] makes of the bytes [dump] wrote for a folder. *)
Definition loads_back (lib : Codecs) (t : node) : Prop :=
  match t with
  | File _ => True
  | Dir d =>
      unique_keys (Dir d) ->
      forall file, dump lib (Dir d) = Ok file ->
      forall fuel tail, (List.length file < fuel)%nat ->
      load_fuel lib fuel (file ++ tail) = Ok (d, tail)
  end.

(** A key whose encoding fits the four-byte length field [dump] writes:
    it encodes to fewer than [2^32] bytes. *)
Definition encodable (lib : Codecs) (s : string) : Prop :=
  exists b, str_encode lib s = Ok b /\ len b < 2 ^ 32.

(** A record msgpack packs to fewer than [2^32] bytes. *)
Definition packable (lib : Codecs) (fi : FileInfo) : Prop :=
  exists b, msgpack_dumps lib fi = Ok b /\ len b < 2 ^ 32.

(** All keys and records of an index fit. *)
Fixpoint dumpable (lib : Codecs) (t : node) : Prop :=
  match t with
  | File fi => packable lib fi
  | Dir d =>
      (fix all (l : list (string * node)) : Prop :=
         match l with
         | [] => True
         | (k, v) :: rest => encodable lib k /\ dumpable lib v /\ all rest
         end) d
  end.

(** Every ["."] entry of the index is a record, not a folder. *)
Fixpoint self_entries_ok (t : node) : Prop :=
  match t with
  | File _ => True
  | Dir d =>
      (forall v, dict_get "." d = Some v -> exists fi, v = File fi) /\
      (fix all (l : list (string * node)) : Prop :=
         match l with
         | [] => True
         | (_, v) :: rest => self_entries_ok v /\ all rest
         end) d
  end.



(** The name segments of a path, in the words of the data model: the path
    is normalized, and its segments are what stands between the separators;
    the empty path, which normalizes to ["."], has none and is the root. *)
Definition path_names (path : string) : list string :=
  filter (fun name => negb (String.eqb name "" || String.eqb name "."))
         (split sep (normpath path)).

(** The node at the end of the descent from [p] along [names]: a folder
    maps a name to a node, and a record has nothing below it. *)
Fixpoint tree_find (names : list string) (p : node) : option node :=
  match names with
  | [] => Some p
  | name :: rest =>
      match p with
      | Dir d =>
          match dict_get name d with
          | Some v => tree_find rest v
          | None => None
          end
      | File _ => None
      end
  end.

(** The path is present in the tree: the descent along its segments comes
    to a node. *)
Definition present (fileIndex : dict) (path : string) : bool :=
  match tree_find (path_names path) (Dir fileIndex) with
  | Some _ => true
  | None => false
  end.

(** The record of a node: a file's own, a folder's self-entry, and for a
    folder without one the synthesized record. *)
Definition record_of (v : node) : FileInfo :=
  match v with
  | File fi => fi
  | Dir d =>
      match dict_get "." d with
      | Some (File fi) => fi
      | _ => default_dir_info
      end
  end.

(** The record of a present path. *)
Definition tree_record (fileIndex : dict) (path : string) : option FileInfo :=
  option_map record_of (tree_find (path_names path) (Dir fileIndex)).

(** The descent along [names] comes to a record and would go on with a
    name that is the record's link name. *)
Fixpoint below_link (names : list string) (p : node) : bool :=
  match names with
  | [] => false
  | name :: rest =>
      match p with
      | Dir d =>
          match dict_get name d with
          | Some v => below_link rest v
          | None => false
          end
      | File fi => String.eqb name (linkname fi)
      end
  end.

(** [t] is [q] truncated to an integer: the integer between zero and [q]
    that is less than one away from [q]. *)
Definition truncation_of (t : Z) (q : Q) : Prop :=
  ((0 <= q -> inject_Z t <= q /\ q < inject_Z (t + 1)) /\
   (q <= 0 -> q <= inject_Z t /\ inject_Z (t - 1) < q))%Q.

(** [stat.S_IWUSR | stat.S_IWGRP | stat.S_IWOTH] *)
Definition write_bits : Z := Z.lor (Z.lor S_IWUSR S_IWGRP) S_IWOTH.


(** A small packer standing for msgpack: integers as eight little-endian
    bytes, byte strings behind a four-byte length, [mtime] as numerator and
    denominator with a last byte for its kind.  Like msgpack it refuses integers that do not fit. *)
Definition sample_chunk (b : list byte) : result (list byte) :=
  n <- to_bytes (len b) 4 ;; Ok (n ++ b)%list.

(** How the sample packer writes a time stamp: a tag for the kind, then
    numerator and denominator. *)
Definition number_tag (x : number) : byte :=
  match x with Finite _ => x00 | NaN => x01 | PosInf => x02 | NegInf => x03 end.

Definition number_num (x : number) : Z :=
  match x with Finite q => Qnum q | _ => 0 end.

Definition number_den (x : number) : Z :=
  match x with Finite q => Z.pos (Qden q) | _ => 1 end.

Definition number_of_parts (tag : list byte) (n d : Z) : number :=
  if bytes_eqb tag [x00] then Finite (Qmake n (Z.to_pos d))
  else if bytes_eqb tag [x01] then NaN
  else if bytes_eqb tag [x02] then PosInf
  else NegInf.

(** The nine fields in declaration order. *)
Definition sample_dumps (fi : FileInfo) : result (list byte) :=
  o <- to_bytes (offset fi) 8 ;;
  s <- to_bytes (size fi) 8 ;;
  tn <- to_bytes (number_num (mtime fi)) 8 ;;
  td <- to_bytes (number_den (mtime fi)) 8 ;;
  m <- to_bytes (mode fi) 8 ;;
  t <- sample_chunk (type fi) ;;
  l <- sample_chunk (list_byte_of_string (linkname fi)) ;;
  u <- to_bytes (uid fi) 8 ;;
  g <- to_bytes (gid fi) 8 ;;
  Ok (o ++ s ++ tn ++ td ++ m ++ t ++ l ++ u ++ g
        ++ [if istar fi then x01 else x00; number_tag (mtime fi)])%list.

(** Reading the nine fields back. *)
Definition sample_loads (b : list byte) : result FileInfo :=
  let '(o, b) := stream_read 8 b in
  let '(s, b) := stream_read 8 b in
  let '(tn, b) := stream_read 8 b in
  let '(td, b) := stream_read 8 b in
  let '(m, b) := stream_read 8 b in
  let '(tl, b) := stream_read 4 b in
  let '(t, b) := stream_read (from_bytes tl) b in
  let '(ll, b) := stream_read 4 b in
  let '(l, b) := stream_read (from_bytes ll) b in
  let '(u, b) := stream_read 8 b in
  let '(g, b) := stream_read 8 b in
  let '(i, b) := stream_read 1 b in
  let '(tag, b) := stream_read 1 b in
  Ok (mkFileInfo (from_bytes o) (from_bytes s)
                 (number_of_parts tag (from_bytes tn) (from_bytes td))
                 (from_bytes m) t (string_of_list_byte l)
                 (from_bytes u) (from_bytes g) (bytes_eqb i [x01])).

(** The sample libraries: strings held as their UTF-8 bytes, and the packer
    above. *)
Definition sample_codecs : Codecs :=
  mkCodecs (fun s => Ok (list_byte_of_string s))
           (fun b => Ok (string_of_list_byte b))
           sample_dumps sample_loads.

(** A member as [tarfile] reports it, owned by root, with no nested TAR. *)
Definition plain_member (name : string) (type : list byte) (mode size : Z)
  (linkname : string) (offset_data : Z) : Member :=
  mkMember (mkTarInfo name mode type size (Finite 0) linkname 0 0 offset_data)
           (Raise (Exception_ "tarfile.ReadError")).

(** Scenario S1: [a.txt] (4 bytes), [d/b.txt] (0 bytes), [d/c.txt] (7 bytes). *)
Definition members_S1 : list Member :=
  [ plain_member "a.txt" REGTYPE 420 4 "" 512;
    plain_member "d/b.txt" REGTYPE 420 0 "" 1536;
    plain_member "d/c.txt" REGTYPE 493 7 "" 2048 ].

(** The index [createIndex] builds for S1. *)
Definition index_S1 : dict :=
  Eval vm_compute in
    match createIndex false members_S1 with Ok d => d | Raise _ => [] end.

(** The archive file of S1: mode [0o644], modified at 1.5 s. *)
Definition stats_S1 : TarStats := mkTarStats 10240 (3 # 2) 420 1000 1000.

(** The index of S1 once [TarMount] has added the root entry. *)
Definition mounted_S1 : dict :=
  Eval vm_compute in TarMount_init index_S1 stats_S1.

(** Scenario S4 in archive order: [foo.tar], a TAR holding [x], and then the
    folder [foo/]. *)
Definition members_S4 : list Member :=
  [ mkMember (mkTarInfo "foo.tar" 420 REGTYPE 10240 (Finite 0) "" 0 0 512)
             (Ok [mkTarInfo "x" 420 REGTYPE 3 (Finite 0) "" 0 0 1024]);
    plain_member "foo/" DIRTYPE 493 0 "" 11264 ].

(** A block device and a character device. *)
Definition members_dev : list Member :=
  [ plain_member "dev/sda" BLKTYPE 432 0 "" 512;
    plain_member "dev/tty" CHRTYPE 432 0 "" 1024 ].

(** A relative and an absolute symbolic link. *)
Definition members_links : list Member :=
  [ plain_member "rel" SYMTYPE 511 0 "a.txt" 512;
    plain_member "abs" SYMTYPE 511 0 "/etc/passwd" 1024 ].

(** The index [createIndex] builds for the two links. *)
Definition index_links : dict :=
  Eval vm_compute in
    match createIndex false members_links with Ok d => d | Raise _ => [] end.

(** The two links in a mounted index. *)
Definition mounted_links : dict :=
  Eval vm_compute in TarMount_init index_links stats_S1.

(** Members whose PAX headers give the time stamps [nan] and [inf], and the
    mounted index of their archive. *)
Definition members_odd_mtime : list Member :=
  [ mkMember (mkTarInfo "n.txt" 420 REGTYPE 4 NaN "" 0 0 512)
             (Raise (Exception_ "tarfile.ReadError"));
    mkMember (mkTarInfo "i.txt" 420 REGTYPE 4 PosInf "" 0 0 1024)
             (Raise (Exception_ "tarfile.ReadError")) ].

Definition mounted_odd_mtime : dict :=
  Eval vm_compute in
    TarMount_init
      (match createIndex false members_odd_mtime with
       | Ok d => d
       | Raise _ => []
       end)
      stats_S1.

(** The bytes [dump] writes for the mounted index of S1. *)
Definition index_bytes_S1 : list byte :=
  Eval vm_compute in
    match dump sample_codecs (Dir mounted_S1) with Ok b => b | Raise _ => [] end.

(** A name that holds the path separator. *)
Fixpoint has_sep (s : string) : bool :=
  match s with
  | EmptyString => false
  | String c rest => Ascii.eqb c sep || has_sep rest
  end.

(** A component a normalized path is made of: not empty, not ["."], and
    without a separator. *)
Definition proper_comp (c : string) : Prop :=
  c <> "" /\ c <> "." /\ has_sep c = false.

(** Where a normalized path keeps [".."]: only in front, and only when the
    path is relative. *)
Definition dotdot_form (k : nat) (comps : list string) : Prop :=
  exists (n : nat) (rest : list string),
    comps = (repeat ".." n ++ rest)%list /\
    Forall (fun c => c <> "..") rest /\
    ((1 <= k)%nat -> n = 0%nat).

(** What the walks of the code rely on: a folder has each key once, and the
    ["."] entry of a folder is a record. *)
Definition index_ok (t : node) : Prop := unique_keys t /\ self_entries_ok t.

(** The record of a recursively mounted TAR. *)
Definition mount_FileInfo (tarInfo : TarInfo) : FileInfo :=
  replace_mode_istar (scan_FileInfo tarInfo) (mount_mode (scan_mode tarInfo))
                     true.

(** A record and a folder record to store by hand. *)
Definition record_new : FileInfo :=
  mkFileInfo 4096 9 (Finite 0) 33188 REGTYPE "" 0 0 false.

Definition record_sub : FileInfo :=
  mkFileInfo 0 0 (Finite 0) 16877 DIRTYPE "" 0 0 false.

(** S1 after [setFileInfo( "/d/new.txt", record_new )]. *)
Definition index_S1_file : dict :=
  Eval vm_compute in
    match setFileInfo index_S1 "/d/new.txt" record_new with
    | Ok d => d
    | Raise _ => []
    end.

(** S1 after [setDirInfo( "/d/sub/", record_sub, {} )]. *)
Definition index_S1_dir : dict :=
  Eval vm_compute in
    match setDirInfo index_S1 "/d/sub/" record_sub [] with
    | Ok d => d
    | Raise _ => []
    end.

(** The member [a.txt] of S1, and a second member of the same name. *)
Definition tarinfo_a : TarInfo := mkTarInfo "a.txt" 420 REGTYPE 4 (Finite 0) "" 0 0 512.
Definition tarinfo_a_again : TarInfo :=
  mkTarInfo "a.txt" 384 REGTYPE 9 (Finite 0) "" 0 0 4096.

Definition index_a : dict :=
  Eval vm_compute in
    match createIndex_member [] tarinfo_a None with
    | Ok d => d
    | Raise _ => []
    end.

Definition index_a_again : dict :=
  Eval vm_compute in
    match createIndex_member index_a tarinfo_a_again None with
    | Ok d => d
    | Raise _ => []
    end.

(** The member [foo.tar] of S4 and the index of the TAR stored in it. *)
Definition tarinfo_foo : TarInfo :=
  mkTarInfo "foo.tar" 420 REGTYPE 10240 (Finite 0) "" 0 0 512.

Definition nested_foo : dict :=
  Eval vm_compute in
    match createIndex_flat [] [mkTarInfo "x" 420 REGTYPE 3 (Finite 0) "" 0 0 1024] with
    | Ok d => d
    | Raise _ => []
    end.

Definition index_foo : dict :=
  Eval vm_compute in
    match createIndex_member [] tarinfo_foo (Some nested_foo) with
    | Ok d => d
    | Raise _ => []
    end.

(** A small archive file: a member whose three bytes start at offset 2. *)
Definition tarinfo_small : TarInfo := mkTarInfo "s.txt" 420 REGTYPE 3 (Finite 0) "" 0 0 2.

Definition index_small : dict :=
  Eval vm_compute in
    match createIndex_member [] tarinfo_small None with
    | Ok d => d
    | Raise _ => []
    end.

Definition archive_small : JoinedFileMount.OpenFile :=
  JoinedFileMount.mkOpenFile [x00; x01; x02; x03; x04; x05; x06; x07] 0.

(** *** Archives in order *)

(** The names both setters and the lookup go by: those of the normalized
    path without its leading slashes. *)
Definition names_of (path : string) : list string :=
  split sep (strip sep (normpath path)).

(** The names under which [createIndex] stores a member. *)
Definition member_names (tarInfo : TarInfo) : list string :=
  names_of ("/" ++ ti_name tarInfo).

(** Two paths part ways: at some depth their names differ. *)
Fixpoint diverge (np nq : list string) : bool :=
  match np, nq with
  | a :: np', b :: nq' => if String.eqb a b then diverge np' nq' else true
  | _, _ => false
  end.

(** The first path leads to a folder above the second. *)
Fixpoint strictly_above (np nq : list string) : bool :=
  match np, nq with
  | [], _ :: _ => true
  | a :: np', b :: nq' => String.eqb a b && strictly_above np' nq'
  | _, [] => false
  end.

(** A member and a later one: they part ways, or the first is a folder
    above the second. *)
Definition in_order (first later : TarInfo) : bool :=
  diverge (member_names first) (member_names later)
  || (ti_isdir first
      && strictly_above (member_names first) (member_names later)).

(** The member is the root of the archive, which [createIndex] skips. *)
Definition is_root (tarInfo : TarInfo) : bool :=
  String.eqb (normpath ("/" ++ ti_name tarInfo)) "/".

(** An archive in the usual order: no path twice, every folder listed
    before what it holds, and nothing below a member that is no folder. *)
Fixpoint well_ordered (members : list TarInfo) : bool :=
  match members with
  | [] => true
  | m :: rest =>
      (is_root m
       || (negb (String.eqb (normpath ("/" ++ ti_name m)) "//")
           && forallb (fun m' => is_root m' || in_order m m') rest))
      && well_ordered rest
  end.

(** No record blocks the way along [names], and nothing is stored there. *)
Definition passable (p : node) (names : list string) : Prop :=
  forall pre suffix, names = (pre ++ suffix)%list ->
    walk pre p = Ok None \/
    (suffix <> [] /\ exists d, walk pre p = Ok (Some (Dir d))).

(** The member is stored at its path: a record, or a folder with the
    record as its ["."] entry. *)
Definition stored (p : node) (tarInfo : TarInfo) : Prop :=
  exists v, walk (member_names tarInfo) p = Ok (Some v) /\
    if ti_isdir tarInfo
    then exists d, v = Dir d /\
                   dict_get "." d = Some (File (scan_FileInfo tarInfo))
    else v = File (scan_FileInfo tarInfo).

(** Names the walks do not skip. *)
Definition no_empty (names : list string) : Prop :=
  Forall (fun c => c <> "") names.

(** What [createIndex] stores for a member. *)
Definition member_value (tarInfo : TarInfo) : node :=
  if ti_isdir tarInfo then Dir [(".", File (scan_FileInfo tarInfo))]
  else File (scan_FileInfo tarInfo).

(** An archive as [tar] writes it for a folder: the root, a folder, what
    the folder holds, and a file beside it. *)
Definition members_usual : list Member :=
  [ plain_member "./" DIRTYPE 493 0 "" 512;
    plain_member "./d/" DIRTYPE 493 0 "" 1024;
    plain_member "./d/b.txt" REGTYPE 420 5 "" 1536;
    plain_member "./a.txt" REGTYPE 420 4 "" 2560 ].

End RatarmountSpec.

(** ** The Joined File: part lookup, seek and read *)

Module JoinedFileProofs.
Import JoinedFileMount JoinedFileSpec.
Local Open Scope Z_scope.
Local Open Scope jf_scope.

Lemma mk_cumsizes_fold (szs : list Z) (pre : list Z) (a : Z) :
  fold_left (fun cum size => cum ++ [last cum 0 + size]) szs (pre ++ [a])
  = pre ++ psums a szs.
Proof.
  revert pre a. induction szs as [|s rest IH]; intros pre a; simpl.
  - reflexivity.
  - rewrite last_last. rewrite <- app_assoc. simpl.
    change (pre ++ [a; a + s]) with (pre ++ [a] ++ [a + s]).
    rewrite app_assoc. rewrite IH. rewrite <- app_assoc. reflexivity.
Qed.

Lemma mk_cumsizes_psums (szs : list Z) : mk_cumsizes szs = psums 0 szs.
Proof. apply (mk_cumsizes_fold szs [] 0). Qed.

Lemma psums_length a szs : List.length (psums a szs) = S (List.length szs).
Proof. revert a. induction szs; intros; simpl; auto. Qed.

Lemma psums_nth a szs (k : nat) :
  (k <= List.length szs)%nat ->
  nth k (psums a szs) 0 = a + sum (firstn k szs).
Proof.
  revert a k. induction szs as [|s rest IH]; intros a k Hk; simpl in *.
  - assert (k = 0%nat) by lia. subst. simpl. lia.
  - destruct k; simpl. lia. rewrite IH by lia. lia.
Qed.

Lemma psums_last a szs : last (psums a szs) 0 = a + sum szs.
Proof.
  revert a. induction szs as [|s rest IH]; intros a.
  - simpl. lia.
  - change (psums a (s :: rest)) with (a :: psums (a + s) rest).
    assert (psums (a + s) rest <> []) by (destruct rest; discriminate).
    destruct (psums (a + s) rest) eqn:E; [congruence|].
    change (last (a :: z :: l) 0) with (last (z :: l) 0).
    rewrite <- E, IH. simpl. lia.
Qed.

Lemma sum_firstn_lt szs (i j : nat) :
  Forall (fun s => 0 < s) szs -> (i < j <= List.length szs)%nat ->
  sum (firstn i szs) < sum (firstn j szs).
Proof.
  intros Hpos. revert i j. induction Hpos as [|s rest Hs Hrest IH]; intros i j Hij.
  - simpl in Hij. lia.
  - simpl in Hij. destruct j; [lia|]. destruct i; simpl.
    + assert (0 <= sum (firstn j rest)).
      { clear -Hrest. revert j. induction Hrest; intros [|j]; simpl; try lia.
        specialize (IHHrest j). lia. }
      lia.
    + specialize (IH i j). lia.
Qed.

Lemma psums_increasing a szs :
  Forall (fun s => 0 < s) szs -> increasing (psums a szs).
Proof.
  intros Hpos i j Hij. rewrite psums_length in Hij.
  rewrite !psums_nth by lia.
  pose proof (sum_firstn_lt szs i j Hpos). lia.
Qed.

Lemma bisect_loop_S fuel a x lo hi :
  bisect_loop (S fuel) a x lo hi =
  if (lo <? hi)%nat then
    if nth ((lo + hi) / 2) a 0 <? x
    then bisect_loop fuel a x ((lo + hi) / 2 + 1)%nat hi
    else bisect_loop fuel a x lo ((lo + hi) / 2)%nat
  else lo.
Proof. reflexivity. Qed.

(** [bisect_left] finds the insertion point in a list that grows. *)
Lemma bisect_loop_spec (a : list Z) (x : Z) :
  increasing a ->
  forall fuel lo hi,
    (lo <= hi <= List.length a)%nat -> (hi - lo <= fuel)%nat ->
    (forall j, (j < lo)%nat -> nth j a 0 < x) ->
    (forall j, (hi <= j < List.length a)%nat -> x <= nth j a 0) ->
    let k := bisect_loop fuel a x lo hi in
    (lo <= k <= hi)%nat /\
    (forall j, (j < k)%nat -> nth j a 0 < x) /\
    (forall j, (k <= j < List.length a)%nat -> x <= nth j a 0).
Proof.
  intros Hinc. induction fuel as [|fuel IH]; intros lo hi Hb Hf Hlo Hhi;
    cbv zeta; [simpl|rewrite bisect_loop_S].
  - assert (lo = hi) by lia. subst. repeat split; auto; lia.
  - destruct (Nat.ltb_spec lo hi) as [Hlt|Hge].
    + set (mid := ((lo + hi) / 2)%nat).
      assert (Hmid : (lo <= mid < hi)%nat).
      { unfold mid. split.
        - apply Nat.div_le_lower_bound; lia.
        - apply Nat.Div0.div_lt_upper_bound; lia. }
      clearbody mid.
      destruct (Z.ltb_spec (nth mid a 0) x) as [Hm|Hm].
      * assert (Hlo' : forall j, (j < mid + 1)%nat -> nth j a 0 < x).
        { intros j Hj. destruct (Nat.eq_dec j mid) as [->|Hne]; auto.
          assert (nth j a 0 < nth mid a 0) by (apply Hinc; lia). lia. }
        destruct (IH (mid + 1)%nat hi ltac:(lia) ltac:(lia) Hlo' Hhi)
          as (H1 & H2 & H3); cbv zeta in *.
        split; [lia|]. split; assumption.
      * assert (Hhi' : forall j, (mid <= j < List.length a)%nat -> x <= nth j a 0).
        { intros j Hj. destruct (Nat.eq_dec j mid) as [->|Hne]; auto.
          assert (nth mid a 0 < nth j a 0) by (apply Hinc; lia). lia. }
        destruct (IH lo mid ltac:(lia) ltac:(lia) Hlo Hhi') as (H1 & H2 & H3);
          cbv zeta in *.
        split; [lia|]. split; assumption.
    + assert (lo = hi) by lia. subst. repeat split; auto; lia.
Qed.

Lemma bisect_left_spec (a : list Z) (x : Z) :
  increasing a ->
  exists k : nat,
    bisect_left a x = Z.of_nat k /\ (k <= List.length a)%nat /\
    (forall j, (j < k)%nat -> nth j a 0 < x) /\
    (forall j, (k <= j < List.length a)%nat -> x <= nth j a 0).
Proof.
  intros Hinc. unfold bisect_left.
  destruct (bisect_loop_spec a x Hinc (List.length a) 0%nat (List.length a))
    as (H1 & H2 & H3); try lia.
  exists (bisect_loop (List.length a) a x 0%nat (List.length a)).
  repeat split; auto; lia.
Qed.

Lemma getitem_nth {A} (l : list A) (i : nat) (dflt : A) :
  (i < List.length l)%nat -> getitem l (Z.of_nat i) = Ok (nth i l dflt).
Proof.
  intros Hi. unfold getitem.
  assert (Hge : (Z.of_nat i <? 0) = false) by (apply Z.ltb_ge; lia).
  rewrite !Hge, Nat2Z.id.
  destruct (nth_error l i) eqn:E.
  - erewrite nth_error_nth by eassumption. reflexivity.
  - apply nth_error_None in E. lia.
Qed.

Lemma getitem_Ok_nonneg {A} (l : list A) (j : Z) (c dflt : A) :
  0 <= j -> getitem l j = Ok c ->
  (Z.to_nat j < List.length l)%nat /\ c = nth (Z.to_nat j) l dflt.
Proof.
  intros Hj. unfold getitem.
  assert (Hge : (j <? 0) = false) by (apply Z.ltb_ge; lia).
  rewrite !Hge.
  destruct (nth_error l (Z.to_nat j)) eqn:E; [|discriminate].
  intros [= <-]. split.
  - apply nth_error_Some. congruence.
  - symmetry. apply nth_error_nth. assumption.
Qed.

Lemma findStencil_spec (self : JoinedFile) (o : Z) :
  sizes_inv self -> 0 <= o ->
  exists i : nat,
    _findStencil o self = (Ok (Z.of_nat i), self) /\
    (i <= List.length (sizes self))%nat /\
    nth i (cumsizes self) 0 <= o /\
    (forall j, (j <= List.length (sizes self))%nat ->
               nth j (cumsizes self) 0 <= o -> (j <= i)%nat) /\
    ((i < List.length (sizes self))%nat -> o < nth (S i) (cumsizes self) 0).
Proof.
  intros [Hpos Hcum] Ho.
  assert (Hinc : increasing (cumsizes self)).
  { rewrite Hcum, mk_cumsizes_psums. apply psums_increasing, Hpos. }
  assert (Hlen : List.length (cumsizes self) = S (List.length (sizes self))).
  { rewrite Hcum, mk_cumsizes_psums. apply psums_length. }
  assert (H0 : nth 0 (cumsizes self) 0 = 0).
  { rewrite Hcum, mk_cumsizes_psums, psums_nth by lia. reflexivity. }
  destruct (bisect_left_spec (cumsizes self) (o + 1) Hinc)
    as (k & Hk & Hkl & Hlow & Hhigh).
  assert (Hk1 : (1 <= k)%nat).
  { destruct k; [|lia]. specialize (Hhigh 0%nat). lia. }
  exists (k - 1)%nat.
  split; [|split; [lia|split; [|split]]].
  - unfold _findStencil, bind, assert, get, ret.
    destruct (Z.geb_spec o 0); [|lia]. simpl. rewrite Hk.
    destruct (Z.geb_spec (Z.of_nat k - 1) 0); [|lia].
    replace (Z.of_nat k - 1) with (Z.of_nat (k - 1)) by lia. reflexivity.
  - specialize (Hlow (k - 1)%nat). lia.
  - intros j Hj Hle. destruct (Nat.le_gt_cases j (k - 1)) as [|Hgt]; [assumption|].
    specialize (Hhigh j). lia.
  - intros Hi. specialize (Hhigh (S (k - 1))). lia.
Qed.

Lemma cumsizes_length self :
  sizes_inv self -> List.length (cumsizes self) = S (List.length (sizes self)).
Proof. intros [_ ->]. rewrite mk_cumsizes_psums. apply psums_length. Qed.

Lemma cumsizes_last self :
  sizes_inv self -> last (cumsizes self) 0 = sum (sizes self).
Proof. intros [_ ->]. rewrite mk_cumsizes_psums, psums_last. lia. Qed.

Lemma cumsizes_nth_last self :
  sizes_inv self ->
  nth (List.length (sizes self)) (cumsizes self) 0 = sum (sizes self).
Proof.
  intros [_ ->]. rewrite mk_cumsizes_psums, psums_nth by lia.
  rewrite firstn_all. lia.
Qed.

(** C3, as amended: [_findStencil] returns the largest index [i] with
    [cumulative[i] <= o] for every offset [0 <= o]; when [o] is before the
    end of the joined file this is the one part that owns [o], with
    [cumulative[i] <= o < cumulative[i+1]]; from the end on it is the number
    of parts, the index of the last entry of [cumulative]. *)
Theorem findStencil_largest_index (self : JoinedFile) (o : Z) :
  sizes_inv self -> 0 <= o ->
  exists i,
    _findStencil o self = (Ok i, self) /\
    0 <= i <= len (sizes self) /\
    (exists c, getitem (cumsizes self) i = Ok c /\ c <= o) /\
    (forall j c, 0 <= j -> getitem (cumsizes self) j = Ok c -> c <= o -> j <= i) /\
    (o < sum (sizes self) ->
     owns (cumsizes self) o i /\ forall j, owns (cumsizes self) o j -> j = i) /\
    (sum (sizes self) <= o -> i = len (sizes self)).
Proof.
  intros Hinv Ho.
  destruct (findStencil_spec self o Hinv Ho) as (i & Hrun & Hi & Hle & Hmax & Hlt).
  pose proof (cumsizes_length self Hinv) as Hlen.
  exists (Z.of_nat i). unfold len.
  split; [assumption|]. split; [lia|]. split; [|split; [|split]].
  - exists (nth i (cumsizes self) 0). split; [|assumption].
    apply getitem_nth. lia.
  - intros j c Hj Hget Hc.
    destruct (getitem_Ok_nonneg _ j c 0 Hj Hget) as [Hjl ->].
    specialize (Hmax (Z.to_nat j)). lia.
  - intros Hend.
    assert (Hi' : (i < List.length (sizes self))%nat).
    { destruct (Nat.lt_ge_cases i (List.length (sizes self))); [assumption|].
      assert (i = List.length (sizes self)) by lia. subst i.
      rewrite cumsizes_nth_last in Hle by assumption. lia. }
    split.
    + split; [lia|]. exists (nth i (cumsizes self) 0), (nth (S i) (cumsizes self) 0).
      split; [apply getitem_nth; lia|]. split.
      * replace (Z.of_nat i + 1) with (Z.of_nat (S i)) by lia.
        apply getitem_nth. lia.
      * split; [assumption|]. apply Hlt. assumption.
    + intros j (Hj & a & b & Ha & Hb & Hab).
      destruct (getitem_Ok_nonneg _ j a 0 Hj Ha) as [Hjl ->].
      destruct (getitem_Ok_nonneg _ (j + 1) b 0 ltac:(lia) Hb) as [Hjl' ->].
      assert (Hinc : increasing (cumsizes self)).
      { destruct Hinv as [Hpos ->]. rewrite mk_cumsizes_psums.
        apply psums_increasing, Hpos. }
      assert (Hji : (Z.to_nat j <= i)%nat) by (apply Hmax; lia).
      destruct (Nat.eq_dec (Z.to_nat j) i) as [E|NE]; [lia|].
      assert (Hlt' : (Z.to_nat (j + 1) <= i)%nat) by lia.
      assert (nth (Z.to_nat (j + 1)) (cumsizes self) 0 <= nth i (cumsizes self) 0).
      { destruct (Nat.eq_dec (Z.to_nat (j + 1)) i) as [->|NE']; [lia|].
        assert (nth (Z.to_nat (j + 1)) (cumsizes self) 0 < nth i (cumsizes self) 0)
          by (apply Hinc; lia). lia. }
      lia.
  - intros Hend.
    destruct (Nat.lt_ge_cases i (List.length (sizes self))) as [Hlt'|Hge]; [|lia].
    specialize (Hmax (List.length (sizes self)) (Nat.le_refl _)).
    rewrite cumsizes_nth_last in Hmax by assumption. lia.
Qed.

Lemma findStencil_largest_index_witness :
  exists i, _findStencil 6 joined_5_2 = (Ok i, joined_5_2) /\
            owns (cumsizes joined_5_2) 6 i.
Proof.
  assert (Hinv : sizes_inv joined_5_2).
  { split; [repeat constructor|reflexivity]. }
  destruct (findStencil_largest_index joined_5_2 6 Hinv ltac:(lia))
    as (i & Hrun & _ & _ & _ & Hown & _).
  exists i. split; [exact Hrun|]. apply Hown. vm_compute. reflexivity.
Defined.

(** C3 as stated fails at the end of the file: for sizes [5, 2] and offset
    [7 = 5 + 2], [_findStencil] returns [2], and [cumulative[3]] does not
    exist, so no part owns the offset. *)
Lemma findStencil_end_offset_not_owned :
  sizes_inv joined_5_2 /\
  0 <= 7 <= sum (sizes joined_5_2) /\
  _findStencil 7 joined_5_2 = (Ok 2, joined_5_2) /\
  getitem (cumsizes joined_5_2) (2 + 1) = Raise IndexError /\
  ~ (exists i, _findStencil 7 joined_5_2 = (Ok i, joined_5_2) /\
               owns (cumsizes joined_5_2) 7 i).
Proof.
  split; [split; [repeat constructor|reflexivity]|].
  split; [vm_compute; split; discriminate|].
  split; [reflexivity|]. split; [reflexivity|].
  intros (i & Hrun & _ & a & b & _ & Hb & _).
  vm_compute in Hrun. injection Hrun as <-.
  vm_compute in Hb. discriminate.
Qed.

(** C10: a [seek] whose new position [p] is negative raises only after
    [self.offset] has been set to [p]; [tell] then returns [p], not the
    offset from before the call. *)
Theorem seek_negative_keeps_new_offset (d : disk) (self : JoinedFile)
  (off whence p : Z) :
  (whence = SEEK_SET /\ p = off) \/
  (whence = SEEK_CUR /\ p = offset self + off) \/
  (whence = SEEK_END /\ p = last (cumsizes self) 0 + off) ->
  p < 0 ->
  seek d off whence self = (Raise seek_error, set_offset p self) /\
  tell (snd (seek d off whence self)) = (Ok p, set_offset p self) /\
  (0 <= offset self -> offset (snd (seek d off whence self)) <> offset self).
Proof.
  intros Hw Hp.
  assert (Hseek : seek d off whence self = (Raise seek_error, set_offset p self)).
  { unfold seek, bind, modify, get, raise.
    destruct Hw as [[-> ->]|[[-> ->]|[-> ->]]]; simpl;
      match goal with |- context [?x <? 0] =>
        destruct (Z.ltb_spec x 0); [reflexivity|lia] end. }
  rewrite Hseek. simpl. split; [reflexivity|]. split; [reflexivity|]. lia.
Qed.

Lemma seek_negative_keeps_new_offset_witness :
  tell (snd (seek (fun _ => None) (-3) SEEK_CUR joined_5_2))
  = (Ok (-3), set_offset (-3) joined_5_2).
Proof.
  apply (seek_negative_keeps_new_offset (fun _ => None) joined_5_2 (-3) SEEK_CUR (-3)).
  - right. left. split; reflexivity.
  - lia.
Defined.

Lemma sum_map_len (parts : list (list byte)) :
  sum (map len parts) = len (List.concat parts).
Proof.
  induction parts as [|c rest IH]; simpl; [reflexivity|].
  rewrite IH. unfold len. rewrite length_app. lia.
Qed.

Lemma jf_inv_sizes d parts self : jf_inv d parts self -> sizes_inv self.
Proof.
  intros (_ & Hne & Hs & Hc & _). split; [|assumption].
  rewrite Hs. clear -Hne. induction Hne as [|c rest Hc _ IH]; constructor; auto.
  unfold len. destruct c; [congruence|simpl; lia].
Qed.

Lemma jf_inv_cum d parts self (i : nat) :
  jf_inv d parts self -> (i <= List.length parts)%nat ->
  nth i (cumsizes self) 0 = Z.of_nat (start_of parts i).
Proof.
  intros (_ & _ & Hs & Hc & _) Hi.
  rewrite Hc, mk_cumsizes_psums, psums_nth by (rewrite Hs, length_map; lia).
  rewrite Hs, firstn_map, sum_map_len. reflexivity.
Qed.

Lemma start_of_S parts (i : nat) :
  (i < List.length parts)%nat ->
  start_of parts (S i) = (start_of parts i + List.length (nth i parts []))%nat.
Proof.
  unfold start_of. revert i. induction parts as [|c rest IH]; intros i Hi.
  - simpl in Hi. lia.
  - destruct i.
    + simpl. rewrite app_nil_r. lia.
    + simpl in Hi. rewrite !firstn_cons, !concat_cons, !length_app.
      rewrite (IH i) by lia. simpl. lia.
Qed.

Lemma start_of_all parts :
  start_of parts (List.length parts) = List.length (List.concat parts).
Proof. unfold start_of. rewrite firstn_all. reflexivity. Qed.

(** From the start of part [i] plus [k], the joined contents continue with
    the rest of part [i]. *)
Lemma skipn_concat_part parts (i k : nat) :
  (i < List.length parts)%nat -> (k <= List.length (nth i parts []))%nat ->
  skipn (start_of parts i + k) (List.concat parts)
  = skipn k (nth i parts []) ++ List.concat (skipn (S i) parts).
Proof.
  unfold start_of. revert i. induction parts as [|c rest IH]; intros i Hi Hk.
  - simpl in Hi. lia.
  - destruct i.
    + simpl in *. rewrite skipn_app.
      replace (k - List.length c)%nat with 0%nat by lia. reflexivity.
    + simpl in Hi. change (nth (S i) (c :: rest) []) with (nth i rest []) in *.
      rewrite firstn_cons, !concat_cons, length_app, <- Nat.add_assoc, skipn_app.
      rewrite skipn_all2 by lia.
      replace (List.length c + (List.length (List.concat (firstn i rest)) + k)
               - List.length c)%nat
        with (List.length (List.concat (firstn i rest)) + k)%nat by lia.
      rewrite skipn_cons. simpl. apply IH; lia.
Qed.

Lemma read_loop_S fuel d size i res :
  read_loop (S fuel) d size i res =
  (self <- get ;;
   if (size >? 0) && (i <? len (sizes self)) then
     s_i <- lift (getitem (sizes self) i) ;;
     c_i <- lift (getitem (cumsizes self) i) ;;
     let readableSize := Z.min size (s_i - (offset self - c_i)) in
     if readableSize =? 0 then
       let i := i + 1 in
       if i >=? len (filePaths self) then ret res
       else
         fileobj_close ;;;
         path <- lift (getitem (filePaths self) i) ;;
         f <- lift (open d path) ;;
         modify (set_fileobj (Some f)) ;;;
         read_loop fuel d size i res
     else
       match fileobj self with
       | None => raise AttributeError
       | Some f =>
           r <- lift (file_read f readableSize) ;;
           let '(tmp, f') := r in
           modify (fun self =>
                     set_offset (offset self + len tmp)
                                (set_fileobj (Some f') self)) ;;;
           read_loop fuel d (size - readableSize) i (res ++ tmp)
       end
   else ret res)%jf.
Proof. reflexivity. Qed.

Lemma jf_inv_set d parts self o f :
  jf_inv d parts self -> jf_inv d parts (set_offset o (set_fileobj f self)).
Proof. intros H. exact H. Qed.

Lemma jf_inv_set_fileobj d parts self f :
  jf_inv d parts self -> jf_inv d parts (set_fileobj f self).
Proof. intros H. exact H. Qed.

Lemma jf_inv_set_offset d parts self o :
  jf_inv d parts self -> jf_inv d parts (set_offset o self).
Proof. intros H. exact H. Qed.

Lemma jf_inv_path d parts self (i : nat) :
  jf_inv d parts self -> (i < List.length parts)%nat ->
  exists path, getitem (filePaths self) (Z.of_nat i) = Ok path /\
               open d path = Ok (mkOpenFile (nth i parts []) 0).
Proof.
  intros (Hf & _) Hi.
  assert (Hlen : List.length (filePaths self) = List.length parts)
    by (eapply Forall2_length; eassumption).
  exists (nth i (filePaths self) ""%string). split.
  - apply getitem_nth. lia.
  - unfold open.
    assert (H : d (nth i (filePaths self) ""%string) = Some (nth i parts [])).
    { clear Hlen. revert i Hi. induction Hf as [|p c ps cs Hpc _ IH]; intros i Hi.
      - simpl in Hi. lia.
      - destruct i; simpl; [assumption|]. apply IH. simpl in Hi. lia. }
    rewrite H. reflexivity.
Qed.

Lemma firstn_split_add {A} (r m : nat) (l : list A) :
  firstn (r + m) l = firstn r l ++ firstn m (skipn r l).
Proof.
  revert l. induction r as [|r IH]; intros l; simpl; [reflexivity|].
  destruct l; simpl.
  - rewrite firstn_nil. reflexivity.
  - rewrite IH. reflexivity.
Qed.

(** The loop of [read], started inside part [i] with that part open at the
    matching position, returns the next [size] bytes of the joined contents. *)
Lemma read_loop_aligned (d : disk) (parts : list (list byte)) :
  forall fuel self size (i k : nat) res,
    jf_inv d parts self ->
    (i < List.length parts)%nat ->
    (k <= List.length (nth i parts []))%nat ->
    offset self = Z.of_nat (start_of parts i + k) ->
    fileobj self = Some (mkOpenFile (nth i parts []) (Z.of_nat k)) ->
    (Z.to_nat size + (List.length parts - i) < fuel)%nat ->
    exists self',
      read_loop fuel d size (Z.of_nat i) res self
      = (Ok (res ++ firstn (Z.to_nat size)
                           (skipn (Z.to_nat (offset self)) (List.concat parts))),
         self')
      /\ jf_inv d parts self'.
Proof.
  induction fuel as [|fuel IH]; intros self size i k res Hinv Hi Hk Hoff Hfile Hfuel;
    [lia|].
  rewrite read_loop_S. unfold bind at 1. unfold get at 1. cbv iota beta.
  assert (Hsz : sizes self = map len parts) by apply Hinv.
  assert (Hlen : len (sizes self) = Z.of_nat (List.length parts)).
  { unfold len. rewrite Hsz, length_map. reflexivity. }
  destruct (Z.gtb_spec size 0) as [Hpos|Hnpos]; cbn [andb].
  2:{ exists self. split; [|assumption]. unfold ret.
      replace (Z.to_nat size) with 0%nat by lia. simpl. rewrite app_nil_r.
      reflexivity. }
  rewrite Hlen. destruct (Z.ltb_spec (Z.of_nat i) (Z.of_nat (List.length parts)));
    [|lia].
  assert (Hgs : getitem (sizes self) (Z.of_nat i)
                = Ok (len (nth i parts []))).
  { rewrite (getitem_nth _ _ 0) by (rewrite Hsz, length_map; lia).
    rewrite Hsz. change 0 with (len (@nil byte)). rewrite map_nth. reflexivity. }
  assert (Hgc : getitem (cumsizes self) (Z.of_nat i)
                = Ok (Z.of_nat (start_of parts i))).
  { rewrite (getitem_nth _ _ 0).
    - rewrite (jf_inv_cum d parts self i Hinv) by lia. reflexivity.
    - rewrite (cumsizes_length self (jf_inv_sizes _ _ _ Hinv)).
      rewrite Hsz, length_map. lia. }
  unfold bind at 1. unfold lift at 1. rewrite Hgs.
  unfold bind at 1. unfold lift at 1. rewrite Hgc. cbv zeta.
  rewrite Hoff.
  replace (len (nth i parts []) - (Z.of_nat (start_of parts i + k)
                                   - Z.of_nat (start_of parts i)))
    with (Z.of_nat (List.length (nth i parts []) - k)) by (unfold len; lia).
  set (rem := (List.length (nth i parts []) - k)%nat).
  destruct (Z.eqb_spec (Z.min size (Z.of_nat rem)) 0) as [Hz|Hnz].
  - (* the part is used up: go to the next file *)
    assert (Hrem : rem = 0%nat) by lia.
    assert (Hkk : k = List.length (nth i parts [])) by lia.
    assert (Hfp : len (filePaths self) = Z.of_nat (List.length parts)).
    { unfold len. f_equal. eapply Forall2_length. apply Hinv. }
    rewrite Hfp.
    destruct (Z.geb_spec (Z.of_nat i + 1) (Z.of_nat (List.length parts))) as [Hend|Hmore].
    + exists self. split; [|assumption]. unfold ret.
      rewrite Nat2Z.id. rewrite skipn_all2, firstn_nil, app_nil_r; [reflexivity|].
      rewrite <- start_of_all. assert (S i = List.length parts) by lia.
      rewrite <- H0, start_of_S by lia. lia.
    + destruct (jf_inv_path d parts self (S i) Hinv ltac:(lia)) as (path & Hpath & Hopen).
      unfold bind at 1. unfold fileobj_close, bind at 1, get at 1. rewrite Hfile.
      unfold ret at 1.
      replace (Z.of_nat i + 1) with (Z.of_nat (S i)) by lia.
      unfold bind at 1. unfold lift at 1. rewrite Hpath.
      unfold bind at 1. unfold lift at 1. rewrite Hopen.
      unfold bind at 1. unfold modify at 1.
      destruct (IH (set_fileobj (Some (mkOpenFile (nth (S i) parts []) 0)) self)
                   size (S i) 0%nat res) as (self' & Hrun & Hinv'); try lia.
      * apply jf_inv_set_fileobj, Hinv.
      * simpl. rewrite Hoff, start_of_S by lia. lia.
      * reflexivity.
      * exists self'. split; [|assumption]. rewrite Hrun. simpl. rewrite Hoff.
        reflexivity.
  - (* read from the open file *)
    rewrite Hfile.
    set (r := Z.min size (Z.of_nat rem)) in *.
    assert (Hr : 0 < r <= Z.of_nat rem) by lia.
    assert (Hrs : r <= size) by lia.
    unfold file_read. cbn [f_pos f_data].
    destruct (Z.ltb_spec r (-1)); [lia|].
    destruct (Z.ltb_spec r 0); [lia|].
    rewrite Nat2Z.id.
    set (got := firstn (Z.to_nat r) (skipn k (nth i parts []))).
    assert (Hgot : List.length got = Z.to_nat r).
    { unfold got. rewrite length_firstn, length_skipn. unfold rem in Hr. lia. }
    unfold bind at 1. unfold lift at 1. cbv beta iota.
    unfold bind at 1. unfold modify at 1.
    destruct (IH (set_offset (offset self + len got)
                    (set_fileobj (Some (mkOpenFile (nth i parts [])
                                          (Z.of_nat k + len got))) self))
                 (size - r) i (k + Z.to_nat r)%nat (res ++ got))
      as (self' & Hrun & Hinv'); try lia.
    + apply jf_inv_set, Hinv.
    + simpl. rewrite Hoff. unfold len. rewrite Hgot. lia.
    + simpl. unfold len. rewrite Hgot. do 2 f_equal. lia.
    + exists self'. split; [|assumption]. rewrite Hrun. f_equal. f_equal.
      rewrite <- app_assoc. f_equal. simpl. rewrite Hoff. unfold len. rewrite Hgot.
      replace (Z.to_nat (Z.of_nat (start_of parts i + k) + Z.of_nat (Z.to_nat r)))
        with (Z.to_nat r + (start_of parts i + k))%nat by lia.
      rewrite Nat2Z.id.
      replace (Z.to_nat size) with (Z.to_nat r + Z.to_nat (size - r))%nat by lia.
      rewrite firstn_split_add, skipn_skipn. f_equal.
      rewrite skipn_concat_part by lia. unfold got.
      rewrite firstn_app.
      replace (Z.to_nat r - List.length (skipn k (nth i parts [])))%nat
        with 0%nat by (rewrite length_skipn; unfold rem in Hr; lia).
      simpl. rewrite app_nil_r. reflexivity.
Qed.

Lemma findStencil_cumsizes (s1 s2 : JoinedFile) (o i : Z) :
  cumsizes s1 = cumsizes s2 ->
  _findStencil o s1 = (Ok i, s1) -> _findStencil o s2 = (Ok i, s2).
Proof.
  intros Hc. unfold _findStencil, bind, assert, get, ret, raise.
  destruct (o >=? 0); [|discriminate]. rewrite <- Hc.
  destruct (bisect_left (cumsizes s1) (o + 1) - 1 >=? 0); [|discriminate].
  intros [= <-]. reflexivity.
Qed.

(** C2: on a joined file over non-empty parts with contents [C], [seek( o )]
    for [0 <= o <= |C|] followed by [read( n )] returns [C[o:o+n]] for
    [0 <= n], and [C[o:|C|]] for [n = -1]. *)
Theorem seek_then_read_slice (d : disk) (parts : list (list byte))
  (self : JoinedFile) (o n : Z) :
  jf_inv d parts self ->
  0 <= o <= len (List.concat parts) ->
  -1 <= n ->
  exists self1 self2,
    seek d o SEEK_SET self = (Ok o, self1) /\
    read d n self1
    = (Ok (slice (List.concat parts) o
                 (if n =? -1 then len (List.concat parts) else o + n)), self2) /\
    jf_inv d parts self2.
Proof.
  intros Hinv Ho Hn.
  pose proof (jf_inv_sizes d parts self Hinv) as Hsinv.
  assert (Hsz : sizes self = map len parts) by apply Hinv.
  assert (Hlast : last (cumsizes self) 0 = len (List.concat parts)).
  { rewrite (cumsizes_last self Hsinv), Hsz. apply sum_map_len. }
  assert (HN : List.length (sizes self) = List.length parts).
  { rewrite Hsz. apply length_map. }
  set (self0 := set_offset o self).
  assert (Hinv0 : jf_inv d parts self0) by (apply jf_inv_set_offset, Hinv).
  destruct (findStencil_spec self0 o (jf_inv_sizes _ _ _ Hinv0) ltac:(lia))
    as (i & Hrun & Hi & Hle & Hmax & Hlt).
  change (sizes self0) with (sizes self) in *.
  change (cumsizes self0) with (cumsizes self) in *.
  rewrite HN in *.
  assert (Hslice : forall size, size = (if n =? -1 then len (List.concat parts) - o else n) ->
            firstn (Z.to_nat size) (skipn (Z.to_nat o) (List.concat parts))
            = slice (List.concat parts) o
                (if n =? -1 then len (List.concat parts) else o + n)).
  { intros size ->. unfold slice. f_equal. destruct (n =? -1); f_equal; lia. }
  unfold seek. change (SEEK_SET =? SEEK_CUR) with false.
  change (SEEK_SET =? SEEK_END) with false. change (SEEK_SET =? SEEK_SET) with true.
  cbv iota. unfold bind at 1. unfold modify at 1. fold self0.
  unfold bind at 1. unfold get at 1.
  change (offset self0) with o. change (cumsizes self0) with (cumsizes self).
  destruct (Z.ltb_spec o 0); [lia|]. rewrite Hlast.
  destruct (Z.geb_spec o (len (List.concat parts))) as [Hend|Hin].
  - (* at the end of the file *)
    assert (i = List.length parts).
    { specialize (Hmax (List.length parts) (Nat.le_refl _)).
      rewrite (jf_inv_cum d parts self _ Hinv), start_of_all in Hmax by lia.
      unfold len in *. lia. }
    subst i.
    exists self0, self0. split; [reflexivity|]. split; [|assumption].
    unfold read. unfold bind at 1. unfold get at 1.
    change (offset self0) with o. unfold bind at 1. rewrite Hrun.
    change (sizes self0) with (sizes self). rewrite read_loop_S.
    unfold bind at 1. unfold get at 1. change (sizes self0) with (sizes self).
    replace (len (sizes self)) with (Z.of_nat (List.length parts))
      by (unfold len; rewrite HN; reflexivity).
    rewrite Z.ltb_irrefl, andb_false_r. unfold ret.
    do 2 f_equal. unfold slice. rewrite skipn_all2 by (unfold len in *; lia).
    rewrite firstn_nil. reflexivity.
  - (* inside part [i] *)
    assert (Hi' : (i < List.length parts)%nat).
    { destruct (Nat.lt_ge_cases i (List.length parts)); [assumption|].
      assert (i = List.length parts) by lia. subst i.
      rewrite (jf_inv_cum d parts self _ Hinv), start_of_all in Hle by lia.
      unfold len in *. lia. }
    specialize (Hlt Hi').
    rewrite (jf_inv_cum d parts self i Hinv) in Hle by lia.
    rewrite (jf_inv_cum d parts self (S i) Hinv) in Hlt by lia.
    rewrite start_of_S in Hlt by lia.
    set (k := (Z.to_nat o - start_of parts i)%nat).
    assert (Hk : (k < List.length (nth i parts []))%nat) by lia.
    assert (Hgc : getitem (cumsizes self) (Z.of_nat i)
                  = Ok (Z.of_nat (start_of parts i))).
    { rewrite (getitem_nth _ _ 0).
      - rewrite (jf_inv_cum d parts self i Hinv) by lia. reflexivity.
      - rewrite (cumsizes_length self Hsinv). lia. }
    assert (Hgs : getitem (sizes self) (Z.of_nat i) = Ok (len (nth i parts []))).
    { rewrite (getitem_nth _ _ 0) by lia.
      rewrite Hsz. change 0 with (len (@nil byte)). rewrite map_nth. reflexivity. }
    destruct (jf_inv_path d parts self i Hinv Hi') as (path & Hpath & Hopen).
    assert (Hcur : currentFile self = None) by apply Hinv.
    set (self1 := set_fileobj (Some (mkOpenFile (nth i parts []) (Z.of_nat k)))
                    (set_fileobj (Some (mkOpenFile (nth i parts []) 0)) self0)).
    assert (Hinv1 : jf_inv d parts self1).
    { unfold self1. do 2 apply jf_inv_set_fileobj. assumption. }
    assert (Hseek : forall A (rest : Z -> M A) ,
               bind (_findStencil o) rest self0 = rest (Z.of_nat i) self0).
    { intros A rest. unfold bind. rewrite Hrun. reflexivity. }
    rewrite Hseek.
    unfold bind at 1. unfold lift at 1.
    change (cumsizes self0) with (cumsizes self). rewrite Hgc.
    unfold bind at 1. unfold assert at 1.
    destruct (Z.geb_spec (o - Z.of_nat (start_of parts i)) 0); [|lia].
    unfold ret at 1. unfold bind at 1. unfold lift at 1.
    change (sizes self0) with (sizes self). rewrite Hgs.
    unfold bind at 1. unfold assert at 1.
    destruct (Z.ltb_spec (o - Z.of_nat (start_of parts i)) (len (nth i parts [])));
      [|unfold len in *; lia].
    unfold ret at 1. change (currentFile self0) with (currentFile self). rewrite Hcur.
    unfold bind at 1. unfold bind at 1. unfold lift at 1.
    change (filePaths self0) with (filePaths self). rewrite Hpath.
    unfold bind at 1. unfold lift at 1. rewrite Hopen.
    unfold modify at 1. unfold bind at 1. unfold get at 1.
    cbn [fileobj set_fileobj]. unfold bind at 1. unfold modify at 1. unfold ret.
    unfold file_seek. cbn [f_data offset set_fileobj set_offset self0].
    replace (o - Z.of_nat (start_of parts i)) with (Z.of_nat k) by lia.
    fold self0. fold self1.
    set (size := if n =? -1 then len (List.concat parts) - o else n).
    destruct (read_loop_aligned d parts
                (S (Z.to_nat size + List.length (sizes self))) self1 size i k []
                Hinv1 Hi' ltac:(lia)) as (self2 & Hread & Hinv2).
    + simpl. lia.
    + reflexivity.
    + rewrite HN. lia.
    + exists self1, self2. split; [reflexivity|]. split; [|assumption].
      unfold read. unfold bind at 1. unfold get at 1.
      change (offset self1) with o. change (cumsizes self1) with (cumsizes self).
      change (sizes self1) with (sizes self). rewrite Hlast. fold size.
      unfold bind at 1.
      rewrite (findStencil_cumsizes self0 self1 o (Z.of_nat i) eq_refl Hrun).
      rewrite Hread. change (offset self1) with o. simpl app.
      rewrite (Hslice size eq_refl). reflexivity.
Qed.

Lemma frames_ret {A} (a : A) : frames (ret a).
Proof. intros self. repeat split. Qed.

Lemma frames_raise {A} (e : exn) : frames (@raise A e).
Proof. intros self. repeat split. Qed.

Lemma frames_lift {A} (r : result A) : frames (lift r).
Proof. intros self. repeat split. Qed.

Lemma frames_get : frames get.
Proof. intros self. repeat split. Qed.

Lemma frames_assert b : frames (assert b).
Proof. destruct b; [apply frames_ret|apply frames_raise]. Qed.

Lemma frames_modify (f : JoinedFile -> JoinedFile) :
  (forall self, same_parts (f self) self) -> frames (modify f).
Proof. intros H self. apply H. Qed.

Lemma frames_bind {A B} (m : M A) (k : A -> M B) :
  frames m -> (forall a, frames (k a)) -> frames (bind m k).
Proof.
  intros Hm Hk self. unfold bind. specialize (Hm self).
  destruct (m self) as [[a|e] self']; simpl in *.
  - specialize (Hk a self'). unfold same_parts in *.
    destruct Hm as (E1 & E2 & E3 & E4). destruct Hk as (F1 & F2 & F3 & F4).
    repeat split; congruence.
  - assumption.
Qed.

Ltac frame_step :=
  match goal with
  | |- frames (if ?b then _ else _) => destruct b
  | |- frames (match ?x with _ => _ end) => destruct x
  | |- frames (bind _ _) => apply frames_bind; [|intros ?]
  | |- frames (ret _) => apply frames_ret
  | |- frames (raise _) => apply frames_raise
  | |- frames (lift _) => apply frames_lift
  | |- frames get => apply frames_get
  | |- frames (assert _) => apply frames_assert
  | |- frames (modify _) => apply frames_modify; intros ?; repeat split
  end.

Lemma seek_frame (d : disk) (o w : Z) : frames (seek d o w).
Proof. unfold seek, _findStencil. repeat frame_step. Qed.

Lemma collect_parts_spec (d : disk) (paths : list string) ps ss :
  collect_parts d paths = Ok (ps, ss) ->
  exists parts,
    Forall2 (fun path c => d path = Some c) ps parts /\
    Forall (fun c => c <> []) parts /\ ss = map len parts.
Proof.
  revert ps ss. induction paths as [|p rest IH]; intros ps ss H; simpl in H.
  - injection H as <- <-. exists []. repeat constructor.
  - destruct (d p) as [data|] eqn:Hd; [|discriminate].
    destruct (collect_parts d rest) as [[ps' ss']|]; [|discriminate].
    destruct (IH ps' ss' eq_refl) as (parts & Hf & Hne & Hs).
    destruct (Z.gtb_spec (len data) 0) as [Hpos|Hz]; injection H as <- <-.
    + exists (data :: parts). split; [constructor; assumption|].
      split; [|simpl; congruence].
      constructor; [|assumption]. intros ->. unfold len in Hpos. simpl in Hpos. lia.
    + exists parts. auto.
Qed.

(** The object [__init__] builds is a joined file over the non-empty parts. *)
Lemma init_jf_inv (d : disk) (paths : list string) (self : JoinedFile) :
  init d paths = Ok self -> exists parts, jf_inv d parts self.
Proof.
  unfold init. destruct (collect_parts d paths) as [[ps ss]|] eqn:Hc; [|discriminate].
  destruct (collect_parts_spec d paths ps ss Hc) as (parts & Hf & Hne & Hs).
  destruct (forallb (fun s => s >? 0) ss); [|discriminate].
  set (self0 := mkJoinedFile ps ss (mk_cumsizes ss) 0 None None).
  pose proof (seek_frame d 0 SEEK_SET self0) as (H1 & H2 & H3 & H4).
  destruct (seek d 0 SEEK_SET self0) as [[z|e] self']; [|discriminate].
  intros [= <-]. exists parts. simpl in *.
  unfold jf_inv. rewrite H1, H2, H3, H4. repeat split; assumption.
Qed.

Example init_S2 : init disk_S2 paths_S2 = Ok joined_S2.
Proof. reflexivity. Qed.

(** Scenario S2: offset 6 belongs to part 3, and a seek to the end tells 19. *)
Example joined_S2_scenario :
  fst (_findStencil 6 joined_S2) = Ok 3 /\
  fst ((seek disk_S2 0 SEEK_END ;;; tell) joined_S2) = Ok 19.
Proof. split; reflexivity. Qed.

Lemma seek_then_read_slice_witness :
  exists self1 self2,
    seek disk_S2 5 SEEK_SET joined_S2 = (Ok 5, self1) /\
    read disk_S2 4 self1 = (Ok [x05; x06; x07; x08], self2) /\
    jf_inv disk_S2 parts_S2 self2.
Proof.
  apply (seek_then_read_slice disk_S2 parts_S2 joined_S2 5 4).
  - unfold jf_inv. split; [repeat constructor|].
    split; [repeat constructor; discriminate|]. repeat split.
  - vm_compute. split; discriminate.
  - lia.
Defined.

(** ** The Joined File: more of [read], [seek], [close] and the mount *)

(** X1: for a positive block size [b], [ceilDiv( a, b )] is the least
    number of blocks of [b] bytes that hold [a] bytes. *)
Theorem ceilDiv_least_cover (a b : Z) :
  0 < b ->
  a <= ceilDiv a b * b /\ (forall q, a <= q * b -> ceilDiv a b <= q).
Proof.
  intros Hb. unfold ceilDiv.
  pose proof (Z.div_mod (a + b - 1) b ltac:(lia)) as Hdm.
  pose proof (Z.mod_pos_bound (a + b - 1) b Hb) as Hr.
  split; [nia|].
  intros q Hq.
  assert ((a + b - 1) / b < q + 1) by (apply Z.div_lt_upper_bound; nia).
  lia.
Qed.

Lemma ceilDiv_least_cover_witness :
  19 <= ceilDiv 19 4 * 4 /\ (forall q, 19 <= q * 4 -> ceilDiv 19 4 <= q).
Proof. apply (ceilDiv_least_cover 19 4). lia. Defined.

Lemma seek_set_past_end (d : disk) (self : JoinedFile) (o : Z) :
  sizes_inv self -> 0 <= o -> sum (sizes self) <= o ->
  seek d o SEEK_SET self = (Ok o, set_offset o self).
Proof.
  intros Hinv Ho Hend. unfold seek.
  change (SEEK_SET =? SEEK_CUR) with false.
  change (SEEK_SET =? SEEK_END) with false. change (SEEK_SET =? SEEK_SET) with true.
  cbv iota. unfold bind at 1. unfold modify at 1.
  unfold bind at 1. unfold get at 1.
  change (offset (set_offset o self)) with o.
  change (cumsizes (set_offset o self)) with (cumsizes self).
  destruct (Z.ltb_spec o 0); [lia|].
  rewrite (cumsizes_last self Hinv).
  destruct (Z.geb_spec o (sum (sizes self))); [reflexivity|lia].
Qed.

Lemma seek_set_inside (d : disk) (parts : list (list byte))
  (self : JoinedFile) (o : Z) :
  jf_inv d parts self -> 0 <= o < len (List.concat parts) ->
  exists self' i k,
    seek d o SEEK_SET self = (Ok o, self') /\
    jf_inv d parts self' /\ aligned parts self' i k /\ offset self' = o.
Proof.
  intros Hinv Ho.
  pose proof (jf_inv_sizes d parts self Hinv) as Hsinv.
  assert (Hsz : sizes self = map len parts) by apply Hinv.
  assert (Hlast : last (cumsizes self) 0 = len (List.concat parts)).
  { rewrite (cumsizes_last self Hsinv), Hsz. apply sum_map_len. }
  assert (HN : List.length (sizes self) = List.length parts).
  { rewrite Hsz. apply length_map. }
  set (self0 := set_offset o self).
  assert (Hinv0 : jf_inv d parts self0) by (apply jf_inv_set_offset, Hinv).
  destruct (findStencil_spec self0 o (jf_inv_sizes _ _ _ Hinv0) ltac:(lia))
    as (i & Hrun & Hi & Hle & Hmax & Hlt).
  change (sizes self0) with (sizes self) in *.
  change (cumsizes self0) with (cumsizes self) in *.
  rewrite HN in *.
  assert (Hi' : (i < List.length parts)%nat).
  { destruct (Nat.lt_ge_cases i (List.length parts)); [assumption|].
    assert (i = List.length parts) by lia. subst i.
    rewrite (jf_inv_cum d parts self _ Hinv), start_of_all in Hle by lia.
    unfold len in *. lia. }
  specialize (Hlt Hi').
  rewrite (jf_inv_cum d parts self i Hinv) in Hle by lia.
  rewrite (jf_inv_cum d parts self (S i) Hinv) in Hlt by lia.
  rewrite start_of_S in Hlt by lia.
  set (k := (Z.to_nat o - start_of parts i)%nat).
  assert (Hk : (k < List.length (nth i parts []))%nat) by lia.
  assert (Hgc : getitem (cumsizes self) (Z.of_nat i)
                = Ok (Z.of_nat (start_of parts i))).
  { rewrite (getitem_nth _ _ 0).
    - rewrite (jf_inv_cum d parts self i Hinv) by lia. reflexivity.
    - rewrite (cumsizes_length self Hsinv). lia. }
  assert (Hgs : getitem (sizes self) (Z.of_nat i) = Ok (len (nth i parts []))).
  { rewrite (getitem_nth _ _ 0) by lia.
    rewrite Hsz. change 0 with (len (@nil byte)). rewrite map_nth. reflexivity. }
  destruct (jf_inv_path d parts self i Hinv Hi') as (path & Hpath & Hopen).
  assert (Hcur : currentFile self = None) by apply Hinv.
  set (self1 := set_fileobj (Some (mkOpenFile (nth i parts []) (Z.of_nat k)))
                  (set_fileobj (Some (mkOpenFile (nth i parts []) 0)) self0)).
  exists self1, i, k. split; [|split; [|split; [|reflexivity]]].
  - unfold seek. change (SEEK_SET =? SEEK_CUR) with false.
    change (SEEK_SET =? SEEK_END) with false.
    change (SEEK_SET =? SEEK_SET) with true.
    cbv iota. unfold bind at 1. unfold modify at 1. fold self0.
    unfold bind at 1. unfold get at 1.
    change (offset self0) with o. change (cumsizes self0) with (cumsizes self).
    destruct (Z.ltb_spec o 0); [lia|]. rewrite Hlast.
    destruct (Z.geb_spec o (len (List.concat parts))); [lia|].
    unfold bind at 1. rewrite Hrun.
    unfold bind at 1. unfold lift at 1. rewrite Hgc.
    unfold bind at 1. unfold assert at 1.
    destruct (Z.geb_spec (o - Z.of_nat (start_of parts i)) 0); [|lia].
    unfold ret at 1. unfold bind at 1. unfold lift at 1.
    change (sizes self0) with (sizes self). rewrite Hgs.
    unfold bind at 1. unfold assert at 1.
    destruct (Z.ltb_spec (o - Z.of_nat (start_of parts i)) (len (nth i parts [])));
      [|unfold len in *; lia].
    unfold ret at 1. change (currentFile self0) with (currentFile self).
    rewrite Hcur.
    unfold bind at 1. unfold bind at 1. unfold lift at 1.
    change (filePaths self0) with (filePaths self). rewrite Hpath.
    unfold bind at 1. unfold lift at 1. rewrite Hopen.
    unfold modify at 1. unfold bind at 1. unfold get at 1.
    cbn [fileobj set_fileobj]. unfold bind at 1. unfold modify at 1. unfold ret.
    unfold file_seek. cbn [f_data offset set_fileobj set_offset self0].
    replace (o - Z.of_nat (start_of parts i)) with (Z.of_nat k) by lia.
    reflexivity.
  - unfold self1. do 2 apply jf_inv_set_fileobj. assumption.
  - unfold aligned. repeat split; try assumption. simpl. lia.
Qed.

(** Whatever the state, the loop of [read] moves the offset by the number
    of bytes it adds to the result. *)
Lemma read_loop_offset (d : disk) :
  forall fuel size i res self out self',
    read_loop fuel d size i res self = (Ok out, self') ->
    offset self' + len res = offset self + len out.
Proof.
  induction fuel as [|fuel IH]; intros size i res self out self' H;
    [discriminate|].
  rewrite read_loop_S in H.
  unfold fileobj_close in H. unfold bind, get, lift, ret, raise, modify in H.
  destruct ((size >? 0) && (i <? len (sizes self))); [|injection H as <- <-; lia].
  destruct (getitem (sizes self) i) as [s_i|]; cbv beta iota in H;
    [|discriminate].
  destruct (getitem (cumsizes self) i) as [c_i|]; cbv beta iota zeta in H;
    [|discriminate].
  destruct (Z.min size (s_i - (offset self - c_i)) =? 0).
  - destruct (i + 1 >=? len (filePaths self)); [injection H as <- <-; lia|].
    destruct (fileobj self); cbv beta iota in H; [|discriminate].
    destruct (getitem (filePaths self) (i + 1)) as [path|]; cbv beta iota in H;
      [|discriminate].
    destruct (open d path) as [f|]; cbv beta iota in H; [|discriminate].
    apply IH in H. simpl in H. assumption.
  - destruct (fileobj self) as [f|]; cbv beta iota in H; [|discriminate].
    destruct (file_read f (Z.min size (s_i - (offset self - c_i))))
      as [[tmp f']|e]; cbv beta iota in H; [|discriminate].
    apply IH in H. simpl in H. unfold len in *. rewrite length_app in H. lia.
Qed.

(** X3: [read] moves the offset by exactly the number of bytes it returns,
    in every state of the object. *)
Theorem read_advances_offset (d : disk) (n : Z) (self self' : JoinedFile)
  (out : list byte) :
  read d n self = (Ok out, self') ->
  fst (tell self') = Ok (offset self + len out).
Proof.
  unfold read, _findStencil, bind, get, assert, ret, raise. intros H.
  destruct (offset self >=? 0); cbv beta iota in H; [|discriminate].
  destruct (bisect_left (cumsizes self) (offset self + 1) - 1 >=? 0);
    cbv beta iota in H; [|discriminate].
  apply read_loop_offset in H. unfold tell, bind, get, ret. simpl.
  f_equal. unfold len in *. simpl in H. lia.
Qed.

(** The part an offset inside part [i] is looked up in is [i]. *)
Lemma findStencil_inside (d : disk) (parts : list (list byte))
  (self : JoinedFile) (i k : nat) :
  jf_inv d parts self -> (i < List.length parts)%nat ->
  (k < List.length (nth i parts []))%nat ->
  offset self = Z.of_nat (start_of parts i + k) ->
  _findStencil (offset self) self = (Ok (Z.of_nat i), self).
Proof.
  intros Hinv Hi Hk Hoff.
  pose proof (jf_inv_sizes d parts self Hinv) as Hsinv.
  assert (HN : List.length (sizes self) = List.length parts).
  { replace (sizes self) with (map len parts) by (symmetry; apply Hinv).
    apply length_map. }
  destruct (findStencil_spec self (offset self) Hsinv ltac:(lia))
    as (j & Hrun & Hj & Hle & Hmax & Hlt).
  rewrite HN in *.
  assert (Hij : (i <= j)%nat).
  { apply Hmax; [lia|]. rewrite (jf_inv_cum d parts self i Hinv) by lia. lia. }
  destruct (Nat.eq_dec i j) as [->|Hne]; [exact Hrun|]. exfalso.
  assert (Hinc : increasing (cumsizes self)).
  { destruct Hsinv as [Hpos ->]. rewrite mk_cumsizes_psums.
    apply psums_increasing, Hpos. }
  assert (Hlen : List.length (cumsizes self) = S (List.length parts)).
  { rewrite (cumsizes_length self Hsinv). lia. }
  assert (Hge : nth (S i) (cumsizes self) 0 <= nth j (cumsizes self) 0).
  { destruct (Nat.eq_dec (S i) j) as [->|Hne']; [lia|].
    assert (nth (S i) (cumsizes self) 0 < nth j (cumsizes self) 0)
      by (apply Hinc; lia). lia. }
  rewrite (jf_inv_cum d parts self (S i) Hinv) in Hge by lia.
  rewrite start_of_S in Hge by lia. lia.
Qed.

(** [read] from a position inside a part, with that part open there. *)
Lemma read_aligned (d : disk) (parts : list (list byte)) (self : JoinedFile)
  (i k : nat) (n : Z) :
  jf_inv d parts self -> aligned parts self i k -> 0 <= n ->
  exists self',
    read d n self
    = (Ok (slice (List.concat parts) (offset self) (offset self + n)), self') /\
    jf_inv d parts self'.
Proof.
  intros Hinv (Hi & Hk & Hoff & Hfile) Hn.
  assert (HN : List.length (sizes self) = List.length parts).
  { replace (sizes self) with (map len parts) by (symmetry; apply Hinv).
    apply length_map. }
  destruct (read_loop_aligned d parts
              (S (Z.to_nat n + List.length (sizes self))) self n i k []
              Hinv Hi ltac:(lia) Hoff Hfile ltac:(lia)) as (self' & Hrun & Hinv').
  exists self'. split; [|assumption].
  unfold read. unfold bind at 1. unfold get at 1.
  destruct (Z.eqb_spec n (-1)); [lia|].
  unfold bind at 1.
  rewrite (findStencil_inside d parts self i k Hinv Hi Hk Hoff).
  rewrite Hrun. simpl app. unfold slice.
  replace (offset self + n - offset self) with n by lia. reflexivity.
Qed.

Lemma read_past_end (d : disk) (self : JoinedFile) (o n : Z) :
  sizes_inv self -> 0 <= o -> sum (sizes self) <= o ->
  read d n (set_offset o self) = (Ok [], set_offset o self).
Proof.
  intros Hinv Ho Hend.
  set (self0 := set_offset o self).
  assert (Hinv0 : sizes_inv self0) by exact Hinv.
  destruct (findStencil_spec self0 o Hinv0 Ho) as (i & Hrun & Hi & _ & Hmax & _).
  assert (i = List.length (sizes self)).
  { specialize (Hmax (List.length (sizes self)) (Nat.le_refl _)).
    change (cumsizes self0) with (cumsizes self) in Hmax.
    rewrite cumsizes_nth_last in Hmax by assumption.
    change (sizes self0) with (sizes self) in Hi. lia. }
  subst i.
  unfold read. unfold bind at 1. unfold get at 1.
  change (offset self0) with o. unfold bind at 1. rewrite Hrun.
  rewrite read_loop_S. unfold bind at 1. unfold get at 1.
  change (sizes self0) with (sizes self). unfold len at 1.
  rewrite Z.ltb_irrefl, andb_false_r. reflexivity.
Qed.

(** X4: a seek to the end of the joined file or beyond it succeeds, and
    every [read] from there returns no bytes and leaves the object as it
    is. *)
Theorem seek_past_end_reads_nothing (d : disk) (self : JoinedFile) (o n : Z) :
  sizes_inv self -> 0 <= o -> sum (sizes self) <= o ->
  seek d o SEEK_SET self = (Ok o, set_offset o self) /\
  read d n (set_offset o self) = (Ok [], set_offset o self).
Proof.
  intros Hinv Ho Hend. split.
  - apply seek_set_past_end; assumption.
  - apply read_past_end; assumption.
Qed.

(** X9: [FuseFileObjectMount.read] of the file ["/joined"] at a non-negative
    offset returns the bytes [C[offset:offset+length]] of the joined
    contents, fewer or none at the end; for any other path it raises
    [ENOENT] and leaves the object alone; a negative offset escapes as the
    exception of [seek], which the [except RuntimeError] clause does not
    turn into [EIO]. *)
Theorem fm_read_returns_slice (d : disk) (parts : list (list byte))
  (m : FuseFileObjectMount) (path : string) (length pos : Z) :
  jf_inv d parts (fm_fileobj m) ->
  (path <> ("/" ++ fm_fileName m)%string ->
   fm_read d m path length pos = (Raise (FuseOSError ENOENT), m)) /\
  (path = ("/" ++ fm_fileName m)%string ->
   (pos < 0 -> fst (fm_read d m path length pos) = Raise seek_error) /\
   (0 <= pos -> 0 <= length ->
    exists m',
      fm_read d m path length pos
      = (Ok (slice (List.concat parts) pos (pos + length)), m') /\
      jf_inv d parts (fm_fileobj m') /\
      fm_stats m' = fm_stats m /\ fm_fileName m' = fm_fileName m)).
Proof.
  intros Hinv. split.
  - intros Hne. unfold fm_read.
    destruct (String.eqb_spec path ("/" ++ fm_fileName m)); [contradiction|].
    reflexivity.
  - intros ->. unfold fm_read. rewrite String.eqb_refl. cbn [negb]. split.
    + intros Hneg. unfold bind.
      assert (Hs : seek d pos SEEK_SET (fm_fileobj m)
                   = (Raise seek_error, set_offset pos (fm_fileobj m))).
      { unfold seek, bind, modify, get, raise. simpl.
        destruct (Z.ltb_spec pos 0); [reflexivity|lia]. }
      rewrite Hs. reflexivity.
    + intros Ho Hl.
      pose proof (jf_inv_sizes d parts _ Hinv) as Hsinv.
      assert (Hsum : sum (sizes (fm_fileobj m)) = len (List.concat parts)).
      { replace (sizes (fm_fileobj m)) with (map len parts)
          by (symmetry; apply Hinv). apply sum_map_len. }
      destruct (Z.lt_ge_cases pos (len (List.concat parts))) as [Hin|Hend].
      * destruct (seek_set_inside d parts _ pos Hinv ltac:(lia))
          as (self1 & i & k & Hseek & Hinv1 & Hal & Hoff).
        destruct (read_aligned d parts self1 i k length Hinv1 Hal Hl)
          as (self2 & Hread & Hinv2).
        exists (mkFuseFileObjectMount self2 (fm_stats m) (fm_fileName m)).
        unfold bind. rewrite Hseek, Hread, Hoff.
        split; [reflexivity|]. split; [assumption|]. split; reflexivity.
      * exists (mkFuseFileObjectMount (set_offset pos (fm_fileobj m))
                  (fm_stats m) (fm_fileName m)).
        unfold bind.
        rewrite (seek_set_past_end d _ pos Hsinv Ho) by lia.
        rewrite (read_past_end d _ pos length Hsinv Ho) by lia.
        split; [|split; [exact Hinv|split; reflexivity]].
        do 2 f_equal. unfold slice.
        rewrite skipn_all2 by (unfold len in *; lia).
        rewrite firstn_nil. reflexivity.
Qed.

(** With the open file at its end and the offset inside a part, every turn
    of the loop takes bytes off the request and reads none. *)
Lemma read_loop_exhausted (d : disk) (parts : list (list byte)) (j k : nat) :
  (j < List.length parts)%nat -> (k < List.length (nth j parts []))%nat ->
  forall fuel size res self f,
    jf_inv d parts self ->
    offset self = Z.of_nat (start_of parts j + k) ->
    fileobj self = Some f -> len (f_data f) <= f_pos f ->
    (Z.to_nat size < fuel)%nat ->
    exists self',
      read_loop fuel d size (Z.of_nat j) res self = (Ok res, self') /\
      offset self' = offset self.
Proof.
  intros Hj Hk.
  induction fuel as [|fuel IH]; intros size res self f Hinv Hoff Hfile Heof Hfuel;
    [lia|].
  rewrite read_loop_S. unfold bind at 1. unfold get at 1. cbv iota beta.
  assert (Hsz : sizes self = map len parts) by apply Hinv.
  assert (Hlen : len (sizes self) = Z.of_nat (List.length parts)).
  { unfold len. rewrite Hsz, length_map. reflexivity. }
  destruct (Z.gtb_spec size 0) as [Hpos|Hnpos]; cbn [andb].
  2:{ exists self. split; reflexivity. }
  rewrite Hlen. destruct (Z.ltb_spec (Z.of_nat j) (Z.of_nat (List.length parts)));
    [|lia].
  assert (Hgs : getitem (sizes self) (Z.of_nat j) = Ok (len (nth j parts []))).
  { rewrite (getitem_nth _ _ 0) by (rewrite Hsz, length_map; lia).
    rewrite Hsz. change 0 with (len (@nil byte)). rewrite map_nth. reflexivity. }
  assert (Hgc : getitem (cumsizes self) (Z.of_nat j)
                = Ok (Z.of_nat (start_of parts j))).
  { rewrite (getitem_nth _ _ 0).
    - rewrite (jf_inv_cum d parts self j Hinv) by lia. reflexivity.
    - rewrite (cumsizes_length self (jf_inv_sizes _ _ _ Hinv)).
      rewrite Hsz, length_map. lia. }
  unfold bind at 1. unfold lift at 1. rewrite Hgs.
  unfold bind at 1. unfold lift at 1. rewrite Hgc. cbv zeta.
  rewrite Hoff.
  set (r := Z.min size (len (nth j parts [])
                        - (Z.of_nat (start_of parts j + k)
                           - Z.of_nat (start_of parts j)))).
  assert (Hr : 0 < r <= size) by (unfold r, len; lia).
  destruct (Z.eqb_spec r 0); [lia|].
  rewrite Hfile. unfold file_read.
  destruct (Z.ltb_spec r (-1)); [lia|].
  destruct (Z.ltb_spec r 0); [lia|].
  rewrite skipn_all2 by (unfold len in Heof; lia). rewrite firstn_nil.
  unfold bind at 1. unfold lift at 1. cbv beta iota.
  unfold bind at 1. unfold modify at 1.
  destruct (IH (size - r) (res ++ [])
              (set_offset (offset self + len (@nil byte))
                 (set_fileobj (Some (mkOpenFile (f_data f)
                                       (f_pos f + len (@nil byte)))) self))
              (mkOpenFile (f_data f) (f_pos f + len (@nil byte))))
    as (self' & Hrun & Hoff').
  - apply jf_inv_set, Hinv.
  - simpl. rewrite Hoff. unfold len. simpl. lia.
  - reflexivity.
  - simpl. unfold len in *. simpl. lia.
  - lia.
  - exists self'. rewrite Hrun, app_nil_r. split; [reflexivity|].
    rewrite Hoff'. simpl. unfold len. simpl. lia.
Qed.

(** X5: when the file that is open is at its end while the offset is inside
    a part, as after a [read] that stopped exactly at the end of the part
    before, a following [read] without a [seek] returns no bytes and leaves
    the offset where it is. *)
Theorem read_after_boundary_returns_nothing (d : disk)
  (parts : list (list byte)) (self : JoinedFile) (j k : nat) (f : OpenFile)
  (n : Z) :
  jf_inv d parts self ->
  (j < List.length parts)%nat -> (k < List.length (nth j parts []))%nat ->
  offset self = Z.of_nat (start_of parts j + k) ->
  fileobj self = Some f -> len (f_data f) <= f_pos f ->
  exists self', read d n self = (Ok [], self') /\ offset self' = offset self.
Proof.
  intros Hinv Hj Hk Hoff Hfile Heof.
  unfold read. unfold bind at 1. unfold get at 1. unfold bind at 1.
  rewrite (findStencil_inside d parts self j k Hinv Hj Hk Hoff).
  apply (read_loop_exhausted d parts j k Hj Hk _ _ [] self f Hinv Hoff Hfile Heof).
  lia.
Qed.

Lemma read_after_boundary_returns_nothing_witness :
  exists self',
    read disk_S2 2 (snd (read disk_S2 2 joined_S2)) = (Ok [], self') /\
    offset self' = 2.
Proof.
  apply (read_after_boundary_returns_nothing disk_S2 parts_S2
           (snd (read disk_S2 2 joined_S2)) 1 0 (mkOpenFile [x00; x01] 2) 2).
  - unfold jf_inv. split; [repeat constructor|].
    split; [repeat constructor; discriminate|]. repeat split.
  - simpl. lia.
  - simpl. lia.
  - reflexivity.
  - reflexivity.
  - vm_compute. discriminate.
Defined.

Lemma collect_parts_contents (d : disk) (paths : list string) :
  (forall path, In path paths -> d path <> None) ->
  exists ps,
    collect_parts d paths = Ok (ps, map len (nonempty_contents d paths)) /\
    Forall2 (fun path c => d path = Some c) ps (nonempty_contents d paths) /\
    Forall (fun c => c <> []) (nonempty_contents d paths).
Proof.
  induction paths as [|p rest IH]; intros Hall.
  - exists []. repeat constructor.
  - destruct IH as (ps & Hc & Hf & Hne); [intros q Hq; apply Hall; right; exact Hq|].
    cbn [collect_parts nonempty_contents].
    destruct (d p) as [data|] eqn:Hd; [|exfalso; apply (Hall p); [left; reflexivity|exact Hd]].
    rewrite Hc. destruct (Z.gtb_spec (len data) 0) as [Hpos|Hz].
    + exists (p :: ps). split; [reflexivity|]. split; constructor; auto.
      intros ->. unfold len in Hpos. simpl in Hpos. lia.
    + exists ps. auto.
Qed.

Lemma collect_parts_missing (d : disk) (paths : list string) :
  (exists path, In path paths /\ d path = None) ->
  exists path,
    In path paths /\ d path = None /\
    collect_parts d paths
    = Raise (Exception_ ("File " ++ path ++ " does not exist!")).
Proof.
  induction paths as [|p rest IH]; intros (q & Hq & Hd).
  - destruct Hq.
  - cbn [collect_parts]. destruct (d p) as [data|] eqn:Hp.
    + destruct IH as (path & Hin & Hnone & Hc).
      { exists q. split; [|assumption]. destruct Hq as [<-|Hq]; [congruence|assumption]. }
      exists path. split; [right; assumption|]. split; [assumption|].
      rewrite Hc. reflexivity.
    + exists p. split; [left; reflexivity|]. split; [assumption|reflexivity].
Qed.

(** X2: [JoinedFile( filePaths )] raises when one of the paths is not a
    file; otherwise it builds an object over the contents that are not
    empty, in the order of the paths, positioned at offset 0. *)
Theorem init_joins_nonempty_parts (d : disk) (paths : list string) :
  ((exists path, In path paths /\ d path = None) ->
   exists path,
     In path paths /\ d path = None /\
     init d paths = Raise (Exception_ ("File " ++ path ++ " does not exist!"))) /\
  ((forall path, In path paths -> d path <> None) ->
   exists self,
     init d paths = Ok self /\
     jf_inv d (nonempty_contents d paths) self /\ offset self = 0).
Proof.
  split.
  - intros Hmiss. destruct (collect_parts_missing d paths Hmiss)
      as (path & Hin & Hnone & Hc).
    exists path. split; [assumption|]. split; [assumption|].
    unfold init. rewrite Hc. reflexivity.
  - intros Hall.
    destruct (collect_parts_contents d paths Hall) as (ps & Hc & Hf & Hne).
    set (parts := nonempty_contents d paths) in *.
    unfold init. rewrite Hc.
    assert (Hpos : forallb (fun s => s >? 0) (map len parts) = true).
    { apply forallb_forall. intros s Hs. apply in_map_iff in Hs.
      destruct Hs as (c & <- & Hin).
      rewrite Forall_forall in Hne. specialize (Hne c Hin).
      apply Z.gtb_lt. unfold len. destruct c; [congruence|simpl; lia]. }
    rewrite Hpos.
    set (self0 := mkJoinedFile ps (map len parts) (mk_cumsizes (map len parts))
                    0 None None).
    assert (Hinv0 : jf_inv d parts self0).
    { unfold jf_inv. repeat split; assumption. }
    destruct (Z.eq_dec (len (List.concat parts)) 0) as [Hz|Hnz].
    + rewrite (seek_set_past_end d self0 0 (jf_inv_sizes _ _ _ Hinv0)).
      * exists (set_offset 0 self0). repeat split; assumption.
      * lia.
      * simpl. rewrite sum_map_len. lia.
    + destruct (seek_set_inside d parts self0 0 Hinv0) as
        (self1 & i & k & Hseek & Hinv1 & _ & Hoff).
      { unfold len in *. lia. }
      rewrite Hseek. exists self1. repeat split; try apply Hinv1. assumption.
Qed.

Lemma init_joins_nonempty_parts_witness :
  exists self,
    init disk_S2 paths_S2 = Ok self /\
    jf_inv disk_S2 (nonempty_contents disk_S2 paths_S2) self /\ offset self = 0.
Proof.
  apply (init_joins_nonempty_parts disk_S2 paths_S2).
  intros path Hin. simpl in Hin.
  repeat (destruct Hin as [<-|Hin]; [vm_compute; discriminate|]).
  destruct Hin.
Defined.

Lemma stats_get_set_same key v stats :
  stats_get key (stats_set key v stats) = Some v.
Proof.
  induction stats as [|[k x] rest IH]; simpl.
  - rewrite String.eqb_refl. reflexivity.
  - destruct (String.eqb_spec key k) as [->|Hne]; simpl.
    + rewrite String.eqb_refl. reflexivity.
    + destruct (String.eqb_spec key k); [contradiction|]. assumption.
Qed.

Lemma stats_get_set_other key key' v stats :
  key <> key' -> stats_get key (stats_set key' v stats) = stats_get key stats.
Proof.
  intros Hne. induction stats as [|[k x] rest IH]; simpl.
  - destruct (String.eqb_spec key key'); [contradiction|reflexivity].
  - destruct (String.eqb_spec key' k) as [->|Hne']; simpl.
    + destruct (String.eqb_spec key k); [contradiction|reflexivity].
    + destruct (String.eqb_spec key k); [reflexivity|assumption].
Qed.

Lemma stats_get_del_other key key' stats :
  key <> key' -> stats_get key (stats_del key' stats) = stats_get key stats.
Proof.
  intros Hne. induction stats as [|[k x] rest IH]; simpl; [reflexivity|].
  destruct (String.eqb_spec key' k) as [->|Hne']; simpl.
  - destruct (String.eqb_spec key k); [contradiction|reflexivity].
  - destruct (String.eqb_spec key k); [reflexivity|assumption].
Qed.

Lemma stats_get_None key (stats : statsdict) :
  ~ In key (map fst stats) -> stats_get key stats = None.
Proof.
  induction stats as [|[k x] rest IH]; simpl; [reflexivity|]. intros Hn.
  destruct (String.eqb_spec key k) as [->|Hne]; [tauto|]. apply IH. tauto.
Qed.

Lemma stats_get_del_same key (stats : statsdict) :
  NoDup (map fst stats) -> stats_get key (stats_del key stats) = None.
Proof.
  induction stats as [|[k x] rest IH]; simpl; [reflexivity|]. intros Hnd.
  inversion Hnd as [|? ? Hnotin Hrest]; subst.
  destruct (String.eqb_spec key k) as [->|Hne]; simpl.
  - apply stats_get_None. assumption.
  - destruct (String.eqb_spec key k); [contradiction|]. apply IH. assumption.
Qed.

Lemma stats_set_keys key v (stats : statsdict) :
  map fst (stats_set key v stats)
  = if in_dec string_dec key (map fst stats) then map fst stats
    else (map fst stats ++ [key])%list.
Proof.
  induction stats as [|[k x] rest IH]; simpl; [reflexivity|].
  destruct (String.eqb_spec key k) as [->|Hne]; simpl.
  - destruct (string_dec k k); [reflexivity|contradiction].
  - rewrite IH. destruct (string_dec k key); [congruence|].
    destruct (in_dec string_dec key (map fst rest)); reflexivity.
Qed.

Lemma stats_set_NoDup key v (stats : statsdict) :
  NoDup (map fst stats) -> NoDup (map fst (stats_set key v stats)).
Proof.
  intros Hnd. rewrite stats_set_keys.
  destruct (in_dec string_dec key (map fst stats)); [assumption|].
  apply NoDup_app; [assumption|repeat constructor; intros []|].
  intros x Hx [<-|[]]. contradiction.
Qed.

Lemma seek_end (d : disk) (self : JoinedFile) :
  sizes_inv self ->
  seek d 0 SEEK_END self
  = (Ok (sum (sizes self)), set_offset (sum (sizes self)) self).
Proof.
  intros Hinv. unfold seek.
  change (SEEK_END =? SEEK_CUR) with false. change (SEEK_END =? SEEK_END) with true.
  cbv iota. unfold bind at 1. unfold modify at 1.
  unfold bind at 1. unfold get at 1. cbn [offset cumsizes set_offset].
  rewrite (cumsizes_last self Hinv), Z.add_0_r.
  assert (0 <= sum (sizes self)).
  { destruct Hinv as [Hpos _]. induction Hpos; simpl; lia. }
  destruct (Z.ltb_spec (sum (sizes self)) 0); [lia|].
  destruct (Z.geb_spec (sum (sizes self)) (sum (sizes self))); [reflexivity|lia].
Qed.

Lemma seek_set_any (d : disk) (parts : list (list byte)) (self : JoinedFile)
  (o : Z) :
  jf_inv d parts self -> 0 <= o ->
  exists self',
    seek d o SEEK_SET self = (Ok o, self') /\
    jf_inv d parts self' /\ offset self' = o.
Proof.
  intros Hinv Ho.
  destruct (Z.lt_ge_cases o (len (List.concat parts))) as [Hin|Hend].
  - destruct (seek_set_inside d parts self o Hinv ltac:(lia))
      as (self' & i & k & Hseek & Hinv' & _ & Hoff).
    exists self'. auto.
  - exists (set_offset o self). split; [|split; [exact Hinv|reflexivity]].
    apply seek_set_past_end; [eapply jf_inv_sizes; eassumption|assumption|].
    replace (sizes self) with (map len parts) by (symmetry; apply Hinv).
    rewrite sum_map_len. lia.
Qed.

(** The run of [FuseFileObjectMount.__init__]: the object it builds. *)
Lemma FuseFileObjectMount_init_run (d : disk) (parts : list (list byte))
  (fileobj : JoinedFile) (stats : statsdict) (blksize ino : Z) :
  jf_inv d parts fileobj -> 0 <= offset fileobj ->
  stats_get "st_blksize" stats = Some blksize -> blksize <> 0 ->
  stats_get "st_ino" stats = Some ino ->
  exists self',
    FuseFileObjectMount_init d fileobj stats
    = Ok (mkFuseFileObjectMount self'
            (stats_del "st_ino"
               (stats_set "st_blocks"
                  (ceilDiv (len (List.concat parts)) blksize)
                  (stats_set "st_size" (len (List.concat parts)) stats)))
            "joined") /\
    offset self' = offset fileobj /\
    jf_inv d parts self'.
Proof.
  intros Hinv Hpos Hblk Hnz Hino.
  pose proof (jf_inv_sizes d parts fileobj Hinv) as Hsinv.
  assert (Hsum : sum (sizes fileobj) = len (List.concat parts)).
  { replace (sizes fileobj) with (map len parts) by (symmetry; apply Hinv).
    apply sum_map_len. }
  set (total := len (List.concat parts)) in *.
  set (self1 := set_offset total fileobj).
  destruct (seek_set_any d parts self1 (offset fileobj)
              (jf_inv_set_offset _ _ _ _ Hinv) Hpos)
    as (self2 & Hseek2 & Hinv2 & Hoff2).
  exists self2. split; [|split; [exact Hoff2|exact Hinv2]].
  unfold FuseFileObjectMount_init.
  unfold bind at 1. unfold tell at 1. unfold bind at 1. unfold get at 1.
  unfold ret at 1. unfold bind at 1.
  rewrite (seek_end d fileobj Hsinv), Hsum. fold self1.
  unfold bind at 1. unfold tell at 1. unfold bind at 1. unfold get at 1.
  unfold ret at 1. change (offset self1) with total.
  rewrite stats_get_set_other by discriminate. rewrite Hblk.
  unfold bind at 1. unfold ret at 1. unfold bind at 1.
  destruct (Z.eqb_spec blksize 0); [contradiction|]. unfold ret at 1.
  rewrite !stats_get_set_other by discriminate. rewrite Hino.
  unfold bind at 1. unfold ret at 1. unfold bind at 1.
  rewrite Hseek2. reflexivity.
Qed.

(** X8: [FuseFileObjectMount.__init__] records the joined length as
    [st_size] and the number of blocks covering it as [st_blocks], removes
    [st_ino], and leaves the joined file at the offset it had. *)
Theorem FuseFileObjectMount_init_stats (d : disk) (parts : list (list byte))
  (fileobj : JoinedFile) (stats : statsdict) (blksize ino : Z) :
  jf_inv d parts fileobj -> 0 <= offset fileobj ->
  NoDup (map fst stats) ->
  stats_get "st_blksize" stats = Some blksize -> blksize <> 0 ->
  stats_get "st_ino" stats = Some ino ->
  exists m,
    FuseFileObjectMount_init d fileobj stats = Ok m /\
    stats_get "st_size" (fm_stats m) = Some (len (List.concat parts)) /\
    stats_get "st_blocks" (fm_stats m)
    = Some (ceilDiv (len (List.concat parts)) blksize) /\
    stats_get "st_ino" (fm_stats m) = None /\
    (forall key, key <> "st_size"%string -> key <> "st_blocks"%string ->
                 key <> "st_ino"%string ->
                 stats_get key (fm_stats m) = stats_get key stats) /\
    offset (fm_fileobj m) = offset fileobj /\
    jf_inv d parts (fm_fileobj m).
Proof.
  intros Hinv Hpos Hnd Hblk Hnz Hino.
  destruct (FuseFileObjectMount_init_run d parts fileobj stats blksize ino
              Hinv Hpos Hblk Hnz Hino) as (self' & Hrun & Hoff & Hinv').
  eexists. split; [exact Hrun|]. cbn [fm_stats fm_fileobj].
  split; [|split; [|split; [|split; [|split]]]].
  - rewrite stats_get_del_other, stats_get_set_other by discriminate.
    apply stats_get_set_same.
  - rewrite stats_get_del_other by discriminate. apply stats_get_set_same.
  - apply stats_get_del_same. do 2 apply stats_set_NoDup. assumption.
  - intros key H1 H2 H3.
    rewrite stats_get_del_other, !stats_get_set_other by assumption.
    reflexivity.
  - exact Hoff.
  - exact Hinv'.
Qed.

(** X25: the mount [FuseFileObjectMount.__init__] builds shows one file:
    [readdir( "/" )] lists ["."], [".."] and ["joined"]; [getattr] of
    ["/joined"] reports the joined length as [st_size]; [getattr] of ["/"]
    reports a folder of mode [0o777] and size 0; for every other path
    [getattr] raises [ENOENT], and so does [readdir] for every path but
    ["/"]. *)
Theorem mount_shows_joined_file (d : disk) (parts : list (list byte))
  (fileobj : JoinedFile) (stats : statsdict) (blksize ino : Z) :
  jf_inv d parts fileobj -> 0 <= offset fileobj ->
  stats_get "st_blksize" stats = Some blksize -> blksize <> 0 ->
  stats_get "st_ino" stats = Some ino ->
  exists m,
    FuseFileObjectMount_init d fileobj stats = Ok m /\
    fm_readdir m "/" = Ok ["."; ".."; "joined"]%string /\
    (exists s, fm_getattr m "/joined" = Ok s /\
               stats_get "st_size" s = Some (len (List.concat parts))) /\
    (exists s, fm_getattr m "/" = Ok s /\
               stats_get "st_mode" s = Some (Z.lor 511 S_IFDIR) /\
               stats_get "st_size" s = Some 0) /\
    (forall path, path <> "/"%string ->
       fm_readdir m path = Raise (FuseOSError ENOENT) /\
       (path <> "/joined"%string ->
        fm_getattr m path = Raise (FuseOSError ENOENT))).
Proof.
  intros Hinv Hpos Hblk Hnz Hino.
  destruct (FuseFileObjectMount_init_run d parts fileobj stats blksize ino
              Hinv Hpos Hblk Hnz Hino) as (self' & Hrun & _ & _).
  eexists. split; [exact Hrun|].
  split; [reflexivity|]. split; [|split].
  - eexists. split; [reflexivity|]. cbn [fm_stats].
    rewrite stats_get_del_other, stats_get_set_other by discriminate.
    apply stats_get_set_same.
  - eexists. split; [reflexivity|]. cbn [fm_stats]. split.
    + rewrite stats_get_set_other by discriminate. apply stats_get_set_same.
    + apply stats_get_set_same.
  - intros path Hroot. unfold fm_readdir, fm_getattr. cbn [fm_fileName].
    destruct (String.eqb_spec path "/"); [contradiction|].
    split; [reflexivity|]. intros Hjoined.
    destruct (String.eqb_spec path ("/" ++ "joined")); [contradiction|].
    reflexivity.
Qed.

(** A seek followed by a read, from any state of the object. *)
Lemma seek_read_slice (d : disk) (parts : list (list byte))
  (self : JoinedFile) (o n : Z) :
  jf_inv d parts self -> 0 <= o -> 0 <= n ->
  exists self',
    (seek d o SEEK_SET ;;; read d n) self
    = (Ok (slice (List.concat parts) o (o + n)), self') /\
    jf_inv d parts self'.
Proof.
  intros Hinv Ho Hn.
  pose proof (jf_inv_sizes d parts _ Hinv) as Hsinv.
  assert (Hsum : sum (sizes self) = len (List.concat parts)).
  { replace (sizes self) with (map len parts) by (symmetry; apply Hinv).
    apply sum_map_len. }
  destruct (Z.lt_ge_cases o (len (List.concat parts))) as [Hin|Hend].
  - destruct (seek_set_inside d parts _ o Hinv ltac:(lia))
      as (self1 & i & k & Hseek & Hinv1 & Hal & Hoff).
    destruct (read_aligned d parts self1 i k n Hinv1 Hal Hn)
      as (self2 & Hread & Hinv2).
    exists self2. unfold bind. rewrite Hseek, Hread, Hoff. auto.
  - exists (set_offset o self). unfold bind.
    rewrite (seek_set_past_end d _ o Hsinv Ho) by lia.
    rewrite (read_past_end d _ o n Hsinv Ho) by lia.
    split; [|exact Hinv]. do 2 f_equal. unfold slice.
    rewrite skipn_all2 by (unfold len in *; lia).
    rewrite firstn_nil. reflexivity.
Qed.

(** X7: [close] needs an open part file: it raises on an object that has none,
    so also when called a second time; a closed object still serves [seek]
    and [read], as [seek] opens the part again. *)
Theorem close_then_reopen (d : disk) (parts : list (list byte))
  (self : JoinedFile) :
  jf_inv d parts self ->
  (fileobj self = None -> close self = (Raise AttributeError, self)) /\
  (fileobj self <> None ->
   exists self',
     close self = (Ok tt, self') /\
     offset self' = offset self /\
     close self' = (Raise AttributeError, self') /\
     forall o n, 0 <= o -> 0 <= n ->
       exists self'',
         (seek d o SEEK_SET ;;; read d n) self'
         = (Ok (slice (List.concat parts) o (o + n)), self'')).
Proof.
  intros Hinv. split.
  - intros Hnone. unfold close, fileobj_close, bind, get. rewrite Hnone.
    reflexivity.
  - intros Hopen. destruct (fileobj self) as [f|] eqn:Hf; [|congruence].
    set (self' := mkJoinedFile (filePaths self) (sizes self) (cumsizes self)
                    (offset self) None None).
    exists self'. split.
    { unfold close, fileobj_close, bind, get. rewrite Hf. reflexivity. }
    split; [reflexivity|]. split; [reflexivity|].
    intros o n Ho Hn.
    assert (Hinv' : jf_inv d parts self').
    { destruct Hinv as (H1 & H2 & H3 & H4 & H5).
      unfold jf_inv. repeat split; assumption. }
    destruct (seek_read_slice d parts self' o n Hinv' Ho Hn) as (s'' & H & _).
    eauto.
Qed.

Lemma close_then_reopen_witness :
  (fileobj joined_S2 = None -> close joined_S2 = (Raise AttributeError, joined_S2)) /\
  (fileobj joined_S2 <> None ->
   exists self',
     close joined_S2 = (Ok tt, self') /\
     offset self' = offset joined_S2 /\
     close self' = (Raise AttributeError, self') /\
     forall o n, 0 <= o -> 0 <= n ->
       exists self'',
         (seek disk_S2 o SEEK_SET ;;; read disk_S2 n) self'
         = (Ok (slice (List.concat parts_S2) o (o + n)), self'')).
Proof.
  apply (close_then_reopen disk_S2 parts_S2 joined_S2).
  unfold jf_inv. split; [repeat constructor|].
  split; [repeat constructor; discriminate|]. repeat split.
Defined.

Lemma read_advances_offset_witness :
  read disk_S2 3 joined_S2
  = (Ok [x00; x01; x02], snd (read disk_S2 3 joined_S2)) /\
  fst (tell (snd (read disk_S2 3 joined_S2)))
  = Ok (offset joined_S2 + len [x00; x01; x02]).
Proof.
  assert (H : read disk_S2 3 joined_S2
              = (Ok [x00; x01; x02], snd (read disk_S2 3 joined_S2)))
    by (vm_compute; reflexivity).
  split; [exact H|]. apply (read_advances_offset _ _ _ _ _ H).
Defined.

Lemma seek_past_end_reads_nothing_witness :
  seek disk_S2 19 SEEK_SET joined_S2 = (Ok 19, set_offset 19 joined_S2) /\
  read disk_S2 5 (set_offset 19 joined_S2) = (Ok [], set_offset 19 joined_S2).
Proof.
  apply (seek_past_end_reads_nothing disk_S2 joined_S2 19 5).
  - split; [repeat constructor|reflexivity].
  - lia.
  - vm_compute. discriminate.
Defined.

Lemma fm_read_returns_slice_witness :
  exists m',
    fm_read disk_S2 mount_S2 "/joined" 3 1
    = (Ok (slice (List.concat parts_S2) 1 (1 + 3)), m') /\
    jf_inv disk_S2 parts_S2 (fm_fileobj m') /\
    fm_stats m' = fm_stats mount_S2 /\ fm_fileName m' = fm_fileName mount_S2.
Proof.
  destruct (fm_read_returns_slice disk_S2 parts_S2 mount_S2 "/joined" 3 1)
    as [_ H].
  - unfold jf_inv. split; [repeat constructor|].
    split; [repeat constructor; discriminate|]. repeat split.
  - destruct (H eq_refl) as [_ H']. apply H'; lia.
Defined.

Lemma mount_shows_joined_file_witness :
  exists m,
    FuseFileObjectMount_init disk_S2 joined_S2 stats_S2 = Ok m /\
    fm_readdir m "/" = Ok ["."; ".."; "joined"]%string /\
    (exists s, fm_getattr m "/joined" = Ok s /\
               stats_get "st_size" s = Some (len (List.concat parts_S2))) /\
    (exists s, fm_getattr m "/" = Ok s /\
               stats_get "st_mode" s = Some (Z.lor 511 S_IFDIR) /\
               stats_get "st_size" s = Some 0) /\
    (forall path, path <> "/"%string ->
       fm_readdir m path = Raise (FuseOSError ENOENT) /\
       (path <> "/joined"%string ->
        fm_getattr m path = Raise (FuseOSError ENOENT))).
Proof.
  apply (mount_shows_joined_file disk_S2 parts_S2 joined_S2 stats_S2 4096 42).
  - unfold jf_inv. split; [repeat constructor|].
    split; [repeat constructor; discriminate|]. repeat split.
  - simpl. lia.
  - reflexivity.
  - discriminate.
  - reflexivity.
Defined.

Lemma FuseFileObjectMount_init_stats_witness :
  exists m,
    FuseFileObjectMount_init disk_S2 joined_S2 stats_S2 = Ok m /\
    stats_get "st_size" (fm_stats m) = Some (len (List.concat parts_S2)) /\
    stats_get "st_blocks" (fm_stats m)
    = Some (ceilDiv (len (List.concat parts_S2)) 4096) /\
    stats_get "st_ino" (fm_stats m) = None /\
    (forall key, key <> "st_size"%string -> key <> "st_blocks"%string ->
                 key <> "st_ino"%string ->
                 stats_get key (fm_stats m) = stats_get key stats_S2) /\
    offset (fm_fileobj m) = offset joined_S2 /\
    jf_inv disk_S2 parts_S2 (fm_fileobj m).
Proof.
  apply (FuseFileObjectMount_init_stats disk_S2 parts_S2 joined_S2 stats_S2
           4096 42).
  - unfold jf_inv. split; [repeat constructor|].
    split; [repeat constructor; discriminate|]. repeat split.
  - simpl. lia.
  - repeat (constructor; [simpl; intuition discriminate|]). constructor.
  - reflexivity.
  - discriminate.
  - reflexivity.
Defined.

(** X6: only [-1] stands for "all of the rest": [read] with a size of zero
    or with another negative size returns no bytes and leaves the object
    as it is. *)
Theorem read_other_negative_size_returns_nothing (d : disk)
  (self : JoinedFile) (n : Z) :
  sizes_inv self -> 0 <= offset self -> n <= 0 -> n <> -1 ->
  read d n self = (Ok [], self).
Proof.
  intros Hinv Ho Hn Hn1.
  destruct (findStencil_spec self (offset self) Hinv Ho) as (i & Hrun & _).
  unfold read. unfold bind at 1. unfold get at 1.
  destruct (Z.eqb_spec n (-1)); [contradiction|].
  unfold bind at 1. rewrite Hrun. rewrite read_loop_S.
  unfold bind at 1. unfold get at 1.
  destruct (Z.gtb_spec n 0); [lia|]. reflexivity.
Qed.

Lemma read_other_negative_size_returns_nothing_witness :
  read disk_S2 (-2) joined_S2 = (Ok [], joined_S2).
Proof.
  apply (read_other_negative_size_returns_nothing disk_S2 joined_S2 (-2)).
  - split; [repeat constructor|reflexivity].
  - simpl. lia.
  - lia.
  - lia.
Defined.

End JoinedFileProofs.

(** ** The index: codec, lookup, adapter and build *)

Module RatarmountProofs.
Import Ratarmount RatarmountSpec.
Local Open Scope Z_scope.
Local Open Scope result_scope.

Lemma unique_keys_Dir d :
  unique_keys (Dir d) <-> NoDup (keys d) /\ unique_keys_items d.
Proof.
  assert (H : forall l,
             (fix all (l : list (string * node)) : Prop :=
                match l with
                | [] => True
                | (_, v) :: rest => unique_keys v /\ all rest
                end) l <-> unique_keys_items l).
  { induction l as [|[k v] rest IH]; simpl; [tauto|]. rewrite IH. tauto. }
  simpl. rewrite H. tauto.
Qed.

Lemma dump_Dir lib entries :
  dump lib (Dir entries) =
  (body <- dump_items lib entries ;; Ok (x01 :: body ++ [x02])).
Proof.
  reflexivity.
Qed.

Lemma Z_of_byte_of_Z (x : Z) : 0 <= x < 256 -> Z_of_byte (byte_of_Z x) = x.
Proof.
  intros Hx. unfold Z_of_byte, byte_of_Z.
  destruct (Byte.of_N (Z.to_N x)) eqn:E.
  - apply Byte.to_of_N in E. rewrite E. lia.
  - apply Byte.of_N_None_iff in E. lia.
Qed.

Lemma le_bytes_length n v : List.length (le_bytes n v) = n.
Proof. revert v. induction n; intros; simpl; auto. Qed.

Lemma from_bytes_le_bytes n v :
  0 <= v < 2 ^ (8 * Z.of_nat n) -> from_bytes (le_bytes n v) = v.
Proof.
  revert v. induction n as [|n IH]; intros v Hv.
  - simpl in *. lia.
  - cbn [le_bytes from_bytes].
    rewrite Z_of_byte_of_Z by (apply Z.mod_pos_bound; lia).
    rewrite IH.
    + pose proof (Z.div_mod v 256). lia.
    + split; [apply Z.div_pos; lia|].
      apply Z.div_lt_upper_bound; [lia|].
      replace (8 * Z.of_nat (S n)) with (8 + 8 * Z.of_nat n) in Hv by lia.
      rewrite Z.pow_add_r in Hv by lia. change (2 ^ 8) with 256 in Hv. lia.
Qed.

Lemma to_bytes_Ok v n b :
  to_bytes v n = Ok b -> List.length b = n /\ from_bytes b = v.
Proof.
  unfold to_bytes.
  destruct (Z.leb_spec 0 v); [|discriminate].
  destruct (Z.ltb_spec v (2 ^ (8 * Z.of_nat n))); [|discriminate].
  simpl. intros [= <-]. split; [apply le_bytes_length|].
  apply from_bytes_le_bytes. lia.
Qed.

Lemma stream_read_app (a rest : list byte) :
  stream_read (len a) (a ++ rest) = (a, rest).
Proof.
  unfold stream_read, len. rewrite Nat2Z.id.
  rewrite firstn_app, skipn_app, Nat.sub_diag, firstn_all, skipn_all.
  simpl. rewrite app_nil_r. reflexivity.
Qed.

Lemma stream_read_4 (a rest : list byte) :
  List.length a = 4%nat -> stream_read 4 (a ++ rest) = (a, rest).
Proof.
  intros H. replace 4 with (len a) by (unfold len; lia). apply stream_read_app.
Qed.

Lemma rbind_Ok {A B} (r : result A) (k : A -> result B) (b : B) :
  rbind r k = Ok b -> exists a, r = Ok a /\ k a = Ok b.
Proof. destruct r; simpl; [eauto|discriminate]. Qed.

Lemma dict_set_new key v d :
  ~ In key (keys d) -> dict_set key v d = d ++ [(key, v)].
Proof.
  induction d as [|[k x] rest IH]; simpl; intros Hn; [reflexivity|].
  destruct (String.eqb_spec key k) as [->|Hne]; [tauto|].
  rewrite IH by tauto. reflexivity.
Qed.

Lemma stream_read_1 (b : byte) (file : list byte) :
  stream_read 1 (b :: file) = ([b], file).
Proof. reflexivity. Qed.

Lemma to_bytes_4_fits (b : list byte) :
  len b < 2 ^ 32 -> exists n, to_bytes (len b) 4 = Ok n.
Proof.
  intros Hb. unfold to_bytes. change (8 * Z.of_nat 4) with 32.
  destruct (Z.leb_spec 0 (len b)); [|unfold len in *; lia].
  destruct (Z.ltb_spec (len b) (2 ^ 32)); [|lia].
  eexists. reflexivity.
Qed.

Lemma dump_succeeds (lib : Codecs) (t : node) :
  dumpable lib t -> exists file, dump lib t = Ok file.
Proof.
  induction t as [fi|d IH] using node_induction.
  - intros (b & Hb & Hlen). destruct (to_bytes_4_fits b Hlen) as [n Hn].
    simpl. unfold dump_FileInfo. rewrite Hb. cbn [rbind]. rewrite Hn.
    eexists. reflexivity.
  - intros Hd. rewrite dump_Dir.
    assert (Hitems : exists body, dump_items lib d = Ok body).
    { simpl in Hd. induction IH as [|[k v] rest Hv _ IHrest].
      - eexists. reflexivity.
      - destruct Hd as ((b & Hb & Hlen) & Hdv & Hrest).
        destruct (to_bytes_4_fits b Hlen) as [n Hn].
        destruct (Hv Hdv) as [fv Hfv]. destruct (IHrest Hrest) as [fr Hfr].
        cbn [dump_items]. unfold dump_str. rewrite Hb. cbn [rbind]. rewrite Hn.
        cbn [rbind]. cbn [snd] in Hfv. rewrite Hfv. cbn [rbind]. rewrite Hfr.
        eexists. reflexivity. }
    destruct Hitems as [body ->]. eexists. reflexivity.
Qed.

Section RoundTrip.

Context (lib : Codecs).

(** What the libraries give: decoding what [encode] produced returns the
    string, unpacking what msgpack packed returns the record. *)
Hypothesis decode_encode :
  forall s b, str_encode lib s = Ok b -> bytes_decode lib b = Ok s.
Hypothesis loads_dumps :
  forall fi b, msgpack_dumps lib fi = Ok b -> msgpack_loads lib b = Ok fi.

Lemma load_fuel_S fuel file :
  load_fuel lib (S fuel) file =
  let '(elementType, file) := stream_read 1 file in
  if bytes_eqb elementType [x01] then load_loop lib fuel file []
  else Raise (Exception_ "Custom TAR index loader: invalid file format").
Proof. reflexivity. Qed.

Lemma load_loop_end fuel rest res :
  load_loop lib (S fuel) (x02 :: rest) res = Ok (res, rest).
Proof. reflexivity. Qed.

(** Reading back a key written by [dump]. *)
Lemma read_back_chunk (tag : byte) (n serialized tail : list byte) :
  to_bytes (len serialized) 4 = Ok n ->
  stream_read 4 (n ++ serialized ++ tail) = (n, serialized ++ tail) /\
  stream_read (from_bytes n) (serialized ++ tail) = (serialized, tail).
Proof.
  intros Hn. apply to_bytes_Ok in Hn. destruct Hn as [Hl Hv]. split.
  - apply stream_read_4. assumption.
  - rewrite Hv. apply stream_read_app.
Qed.

Lemma load_loop_entry_File fuel key fi k v tail res :
  dump_str lib key = Ok k -> dump_FileInfo lib fi = Ok v ->
  load_loop lib (S fuel) (x03 :: k ++ v ++ tail) res
  = load_loop lib fuel tail (dict_set key (File fi) res).
Proof.
  intros Hk Hv. unfold dump_str in Hk. unfold dump_FileInfo in Hv.
  apply rbind_Ok in Hk. destruct Hk as (ser & Hser & Hk).
  apply rbind_Ok in Hk. destruct Hk as (n & Hn & Hk). injection Hk as <-.
  apply rbind_Ok in Hv. destruct Hv as (ser' & Hser' & Hv).
  apply rbind_Ok in Hv. destruct Hv as (n' & Hn' & Hv). injection Hv as <-.
  destruct (read_back_chunk x04 n ser (x05 :: n' ++ ser' ++ tail) Hn) as [R1 R2].
  destruct (read_back_chunk x05 n' ser' tail Hn') as [R3 R4].
  replace (x03 :: (x04 :: n ++ ser) ++ (x05 :: n' ++ ser') ++ tail)
    with (x03 :: x04 :: n ++ ser ++ x05 :: n' ++ ser' ++ tail)
    by (simpl; rewrite <- ?app_assoc; simpl; rewrite <- ?app_assoc; reflexivity).
  cbn [load_loop]. rewrite stream_read_1. cbv beta iota.
  change (len [x03] =? 0) with false. change (bytes_eqb [x03] [x02]) with false.
  change (bytes_eqb [x03] [x03]) with true. cbv iota.
  rewrite stream_read_1. cbv beta iota.
  change (bytes_eqb [x04] [x04]) with true. cbn [negb]. cbv iota.
  rewrite R1. cbv beta iota.
  rewrite R2. cbv beta iota. rewrite (decode_encode _ _ Hser). cbn [rbind].
  rewrite stream_read_1. cbv beta iota.
  change (bytes_eqb [x05] [x05]) with true. cbv iota.
  rewrite R3. cbv beta iota. rewrite R4. cbv beta iota.
  rewrite (loads_dumps _ _ Hser'). reflexivity.
Qed.

Lemma load_loop_entry_Dir fuel key k v d tail res :
  dump_str lib key = Ok k ->
  load_fuel lib fuel ((x01 :: v) ++ tail) = Ok (d, tail) ->
  load_loop lib (S fuel) (x03 :: k ++ (x01 :: v) ++ tail) res
  = load_loop lib fuel tail (dict_set key (Dir d) res).
Proof.
  intros Hk Hv. unfold dump_str in Hk.
  apply rbind_Ok in Hk. destruct Hk as (ser & Hser & Hk).
  apply rbind_Ok in Hk. destruct Hk as (n & Hn & Hk). injection Hk as <-.
  destruct (read_back_chunk x04 n ser (x01 :: v ++ tail) Hn) as [R1 R2].
  replace (x03 :: (x04 :: n ++ ser) ++ (x01 :: v) ++ tail)
    with (x03 :: x04 :: n ++ ser ++ x01 :: v ++ tail)
    by (simpl; rewrite <- ?app_assoc; simpl; rewrite <- ?app_assoc; reflexivity).
  cbn [load_loop]. rewrite stream_read_1. cbv beta iota.
  change (len [x03] =? 0) with false. change (bytes_eqb [x03] [x02]) with false.
  change (bytes_eqb [x03] [x03]) with true. cbv iota.
  rewrite stream_read_1. cbv beta iota.
  change (bytes_eqb [x04] [x04]) with true. cbn [negb]. cbv iota.
  rewrite R1. cbv beta iota.
  rewrite R2. cbv beta iota. rewrite (decode_encode _ _ Hser). cbn [rbind].
  rewrite stream_read_1. cbv beta iota.
  change (bytes_eqb [x01] [x05]) with false. change (bytes_eqb [x01] [x01]) with true.
  cbv iota. change (x01 :: v ++ tail) with ((x01 :: v) ++ tail).
  fold (load_fuel lib). rewrite Hv. reflexivity.
Qed.

Lemma keys_app (a b : dict) : keys (a ++ b) = keys a ++ keys b.
Proof. apply map_app. Qed.

Lemma load_loop_items (es : list (string * node)) :
  Forall (fun kv => loads_back lib (snd kv)) es ->
  forall body acc fuel tail,
    dump_items lib es = Ok body ->
    NoDup (keys acc ++ keys es) -> unique_keys_items es ->
    (List.length body < fuel)%nat ->
    load_loop lib fuel (body ++ x02 :: tail) acc = Ok (acc ++ es, tail).
Proof.
  induction 1 as [|[key value] rest Hv Hrest IH];
    intros body acc fuel tail Hdump Hnd Huniq Hfuel.
  - injection Hdump as <-. destruct fuel as [|fuel]; [simpl in Hfuel; lia|].
    rewrite app_nil_r. apply load_loop_end.
  - cbn [dump_items] in Hdump.
    apply rbind_Ok in Hdump. destruct Hdump as (k & Hk & Hdump).
    apply rbind_Ok in Hdump. destruct Hdump as (v & Hval & Hdump).
    apply rbind_Ok in Hdump. destruct Hdump as (r & Hr & Hdump).
    injection Hdump as <-.
    destruct fuel as [|fuel]; [simpl in Hfuel; lia|].
    cbn [List.length] in Hfuel. rewrite !length_app in Hfuel.
    destruct Huniq as [Huv Hur]. cbn [keys map fst] in Hnd.
    assert (Hnew : ~ In key (keys acc)).
    { apply NoDup_remove_2 in Hnd. intros Hin. apply Hnd.
      apply in_or_app. left. assumption. }
    assert (Hnd' : forall x, NoDup (keys (acc ++ [(key, x)]) ++ keys rest)).
    { intros x. rewrite keys_app, <- app_assoc. exact Hnd. }
    replace ((x03 :: k ++ v ++ r) ++ x02 :: tail)
      with (x03 :: k ++ v ++ (r ++ x02 :: tail))
      by (simpl; rewrite <- !app_assoc; reflexivity).
    destruct value as [fi|d].
    + rewrite (load_loop_entry_File fuel key fi k v _ acc Hk Hval).
      rewrite dict_set_new by assumption.
      rewrite (IH r _ fuel tail Hr (Hnd' _) Hur) by lia.
      rewrite <- app_assoc. reflexivity.
    + pose proof Hval as Hval'. rewrite dump_Dir in Hval'.
      apply rbind_Ok in Hval'. destruct Hval' as (b & _ & Hb). injection Hb as <-.
      cbn [snd] in Hv.
      rewrite (load_loop_entry_Dir fuel key k _ d _ acc Hk).
      * rewrite dict_set_new by assumption.
        rewrite (IH r _ fuel tail Hr (Hnd' _) Hur) by lia.
        rewrite <- app_assoc. reflexivity.
      * apply (Hv Huv _ Hval). lia.
Qed.

Lemma load_dump_node (t : node) : loads_back lib t.
Proof.
  induction t as [fi|d IH] using node_induction; [exact I|].
  intros Huniq file Hdump fuel tail Hfuel.
  rewrite dump_Dir in Hdump.
  apply rbind_Ok in Hdump. destruct Hdump as (body & Hbody & Hdump).
  injection Hdump as <-.
  destruct fuel as [|fuel]; [simpl in Hfuel; lia|].
  cbn [List.length] in Hfuel. rewrite length_app in Hfuel.
  apply unique_keys_Dir in Huniq. destruct Huniq as [Hnd Hitems].
  rewrite load_fuel_S. cbn [app]. rewrite stream_read_1. cbv beta iota.
  change (bytes_eqb [x01] [x01]) with true. cbv iota.
  rewrite <- app_assoc. cbn [app].
  apply (load_loop_items d IH body [] fuel tail Hbody Hnd Hitems). lia.
Qed.

Lemma load_dump (fileIndex : dict) (file : list byte) :
  unique_keys (Dir fileIndex) ->
  dump lib (Dir fileIndex) = Ok file ->
  load lib file = Ok fileIndex.
Proof.
  intros Huniq Hdump. unfold load.
  pose proof (load_dump_node (Dir fileIndex) Huniq file Hdump
                (S (List.length file)) [] (Nat.lt_succ_diag_r _)) as H.
  rewrite app_nil_r in H. rewrite H. reflexivity.
Qed.

(** C1: for every index, [load] applied to the bytes [dump] wrote for it
    returns that index; and [dump] does write them whenever the keys and
    records fit the four-byte length fields of the format. *)
Theorem load_dump_roundtrip (fileIndex : dict) :
  unique_keys (Dir fileIndex) ->
  (forall file, dump lib (Dir fileIndex) = Ok file ->
                load lib file = Ok fileIndex) /\
  (dumpable lib (Dir fileIndex) ->
   exists file, dump lib (Dir fileIndex) = Ok file /\
                load lib file = Ok fileIndex).
Proof.
  intros Huniq. split.
  - intros file Hdump. apply load_dump; assumption.
  - intros Hfits. destruct (dump_succeeds lib _ Hfits) as [file Hdump].
    exists file. split; [assumption|]. apply load_dump; assumption.
Qed.

End RoundTrip.

(** *** What else [load] accepts *)

Section CodecEdges.

Context (lib : Codecs).

Hypothesis decode_encode :
  forall s b, str_encode lib s = Ok b -> bytes_decode lib b = Ok s.
Hypothesis loads_dumps :
  forall fi b, msgpack_dumps lib fi = Ok b -> msgpack_loads lib b = Ok fi.

(** X10: [load] stops at the end-of-dictionary tag of the root: the bytes
    that follow it in the file are not read, and the index returned is the
    one that was dumped. *)
Theorem load_ignores_trailing_bytes (fileIndex : dict) (file extra : list byte) :
  unique_keys (Dir fileIndex) ->
  dump lib (Dir fileIndex) = Ok file ->
  load lib (file ++ extra) = Ok fileIndex.
Proof.
  intros Huniq Hdump. unfold load.
  rewrite (load_dump_node lib decode_encode loads_dumps (Dir fileIndex) Huniq
             file Hdump (S (List.length (file ++ extra))) extra).
  - reflexivity.
  - rewrite length_app. lia.
Qed.

(** X12: two indexes that [dump] writes as the same bytes are the same
    index. *)
Theorem dump_injective (index1 index2 : dict) (file : list byte) :
  unique_keys (Dir index1) -> unique_keys (Dir index2) ->
  dump lib (Dir index1) = Ok file -> dump lib (Dir index2) = Ok file ->
  index1 = index2.
Proof.
  intros H1 H2 D1 D2.
  pose proof (load_dump lib decode_encode loads_dumps index1 file H1 D1) as L1.
  pose proof (load_dump lib decode_encode loads_dumps index2 file H2 D2) as L2.
  congruence.
Qed.

Lemma load_loop_eof fuel res : load_loop lib (S fuel) [] res = Ok (res, []).
Proof. reflexivity. Qed.

(** The loop of [load] over the entries [dump] wrote, when the file ends
    after the last of them. *)
Lemma load_loop_items_eof (es : list (string * node)) :
  Forall (fun kv => loads_back lib (snd kv)) es ->
  forall body acc fuel,
    dump_items lib es = Ok body ->
    NoDup (keys acc ++ keys es) -> unique_keys_items es ->
    (List.length body < fuel)%nat ->
    load_loop lib fuel body acc = Ok (acc ++ es, []).
Proof.
  induction 1 as [|[key value] rest Hv Hrest IH];
    intros body acc fuel Hdump Hnd Huniq Hfuel.
  - injection Hdump as <-. destruct fuel as [|fuel]; [simpl in Hfuel; lia|].
    rewrite app_nil_r. apply load_loop_eof.
  - cbn [dump_items] in Hdump.
    apply rbind_Ok in Hdump. destruct Hdump as (k & Hk & Hdump).
    apply rbind_Ok in Hdump. destruct Hdump as (v & Hval & Hdump).
    apply rbind_Ok in Hdump. destruct Hdump as (r & Hr & Hdump).
    injection Hdump as <-.
    destruct fuel as [|fuel]; [simpl in Hfuel; lia|].
    cbn [List.length] in Hfuel. rewrite !length_app in Hfuel.
    destruct Huniq as [Huv Hur]. cbn [keys map fst] in Hnd.
    assert (Hnew : ~ In key (keys acc)).
    { apply NoDup_remove_2 in Hnd. intros Hin. apply Hnd.
      apply in_or_app. left. assumption. }
    assert (Hnd' : forall x, NoDup (keys (acc ++ [(key, x)]) ++ keys rest)).
    { intros x. rewrite keys_app, <- app_assoc. exact Hnd. }
    destruct value as [fi|d].
    + rewrite (load_loop_entry_File lib decode_encode loads_dumps
                 fuel key fi k v _ acc Hk Hval).
      rewrite dict_set_new by assumption.
      rewrite (IH r _ fuel Hr (Hnd' _) Hur) by lia.
      rewrite <- app_assoc. reflexivity.
    + pose proof Hval as Hval'. rewrite dump_Dir in Hval'.
      apply rbind_Ok in Hval'. destruct Hval' as (b & _ & Hb). injection Hb as <-.
      cbn [snd] in Hv.
      rewrite (load_loop_entry_Dir lib decode_encode fuel key k _ d _ acc Hk).
      * rewrite dict_set_new by assumption.
        rewrite (IH r _ fuel Hr (Hnd' _) Hur) by lia.
        rewrite <- app_assoc. reflexivity.
      * apply (Hv Huv _ Hval). lia.
Qed.

(** X11: [load] also accepts the bytes of a dump without their last byte,
    the end-of-dictionary tag of the root: the loop ends at the end of the
    file as it does at the tag, and the index is the same. *)
Theorem load_accepts_missing_end_tag (fileIndex : dict) (file : list byte) :
  unique_keys (Dir fileIndex) ->
  dump lib (Dir fileIndex) = Ok file ->
  load lib (removelast file) = Ok fileIndex.
Proof.
  intros Huniq Hdump. rewrite dump_Dir in Hdump.
  apply rbind_Ok in Hdump. destruct Hdump as (body & Hbody & Hdump).
  injection Hdump as <-.
  change (x01 :: body ++ [x02]) with ((x01 :: body) ++ [x02]).
  rewrite removelast_last.
  apply unique_keys_Dir in Huniq. destruct Huniq as [Hnd Hitems].
  unfold load. rewrite load_fuel_S, stream_read_1. cbv beta iota.
  change (bytes_eqb [x01] [x01]) with true. cbv iota.
  assert (Hall : Forall (fun kv => loads_back lib (snd kv)) fileIndex).
  { apply Forall_forall. intros kv _.
    apply (load_dump_node lib decode_encode loads_dumps). }
  rewrite (load_loop_items_eof fileIndex Hall body [] _ Hbody Hnd Hitems).
  - reflexivity.
  - simpl. lia.
Qed.

End CodecEdges.

Lemma stream_read_8 (a rest : list byte) :
  List.length a = 8%nat -> stream_read 8 (a ++ rest) = (a, rest).
Proof.
  intros H. replace 8 with (len a) by (unfold len; lia). apply stream_read_app.
Qed.

Lemma sample_decode_encode (s : string) (b : list byte) :
  str_encode sample_codecs s = Ok b -> bytes_decode sample_codecs b = Ok s.
Proof.
  simpl. intros [= <-]. rewrite string_of_list_byte_of_string. reflexivity.
Qed.

Lemma sample_loads_dumps (fi : FileInfo) (b : list byte) :
  msgpack_dumps sample_codecs fi = Ok b -> msgpack_loads sample_codecs b = Ok fi.
Proof.
  simpl. unfold sample_dumps, sample_chunk. intros H.
  repeat match goal with
         | Hb : rbind _ _ = Ok _ |- _ =>
             apply rbind_Ok in Hb; destruct Hb as (? & ? & ?)
         | Hb : Ok _ = Ok _ |- _ => injection Hb as <-
         end.
  repeat match goal with
         | Hx : to_bytes _ _ = Ok _ |- _ =>
             apply to_bytes_Ok in Hx; destruct Hx as [? ?]
         end.
  unfold sample_loads.
  repeat (rewrite <- ?app_assoc;
          first [ rewrite stream_read_8 by assumption
                | rewrite stream_read_4 by assumption
                | match goal with
                  | Hv : from_bytes ?n = len ?x |- context [stream_read (from_bytes ?n) (?x ++ _)] =>
                      rewrite Hv, stream_read_app
                  end ];
          cbv beta iota).
  rewrite stream_read_1. cbv beta iota.
  rewrite stream_read_1. cbv beta iota.
  destruct fi as [o s mt m t l u g i]. simpl in *.
  rewrite string_of_list_byte_of_string.
  repeat match goal with
         | Hv : from_bytes _ = _ |- _ => rewrite Hv; clear Hv
         end.
  destruct mt as [[tn td]| | |]; simpl; rewrite ?Pos2Z.id;
    destruct i; reflexivity.
Qed.

Ltac solve_unique_keys :=
  simpl; repeat split;
  repeat (constructor; [simpl; intuition discriminate|]); try constructor.

Lemma load_dump_roundtrip_witness :
  dump sample_codecs (Dir mounted_S1) = Ok index_bytes_S1 /\
  load sample_codecs index_bytes_S1 = Ok mounted_S1.
Proof.
  assert (Hdump : dump sample_codecs (Dir mounted_S1) = Ok index_bytes_S1)
    by (vm_compute; reflexivity).
  split; [exact Hdump|].
  destruct (load_dump_roundtrip sample_codecs sample_decode_encode
              sample_loads_dumps mounted_S1) as [Hload _].
  - solve_unique_keys.
  - apply Hload. exact Hdump.
Defined.

Local Open Scope string_scope.

(** [normpath] on the paths the docstrings and the scenarios use. *)
Example normpath_examples :
  map normpath [""; "/"; "//"; "///"; "/a//b/"; "/a/./b/.."; "/.."; "a/../..";
                "//a"; "/foo.tar"; "./"; "/a/../../b"; "/."]
  = ["."; "/"; "//"; "/"; "/a/b"; "/a"; "/"; ".."; "//a"; "/foo.tar"; ".";
     "/b"; "/"].
Proof. reflexivity. Qed.

Lemma self_entries_ok_get name d v :
  self_entries_ok (Dir d) -> dict_get name d = Some v -> self_entries_ok v.
Proof.
  intros [_ Hall]. induction d as [|[k x] rest IH]; simpl; [discriminate|].
  destruct Hall as [Hx Hrest].
  destruct (String.eqb name k); [intros [= <-]; assumption|].
  apply IH. assumption.
Qed.

Lemma land_clear_bits (m w : Z) : Z.land (Z.land m (Z.lnot w)) w = 0.
Proof.
  rewrite <- Z.land_assoc, (Z.land_comm (Z.lnot w)), Z.land_lnot_diag.
  apply Z.land_0_r.
Qed.

Lemma lor_restore_bits (m w : Z) :
  Z.lor (Z.land m (Z.lnot w)) (Z.land m w) = m.
Proof.
  apply Z.bits_inj'. intros n Hn.
  rewrite Z.lor_spec, !Z.land_spec, Z.lnot_spec by assumption.
  destruct (Z.testbit m n), (Z.testbit w n); reflexivity.
Qed.

(** [int] rounds towards zero: the result lies between zero and the value,
    less than one away from it. *)
Lemma int_of_Q_truncates (x : Q) :
  (0 <= x -> inject_Z (int_of_Q x) <= x /\ x < inject_Z (int_of_Q x + 1))%Q /\
  (x <= 0 -> x <= inject_Z (int_of_Q x) /\ inject_Z (int_of_Q x - 1) < x)%Q.
Proof.
  destruct x as [n dn]. unfold int_of_Q, Qle, Qlt, inject_Z. simpl.
  pose proof (Z.quot_rem' n (Z.pos dn)) as Hqr.
  assert (Hd : 0 < Z.pos dn) by lia.
  split; intros Hx.
  - assert (Hr : 0 <= Z.rem n (Z.pos dn) < Z.pos dn)
      by (apply Z.rem_bound_pos; lia).
    revert Hqr Hr. generalize (Z.rem n (Z.pos dn)) (n ÷ Z.pos dn) (Z.pos dn).
    intros r q d Hqr Hr. nia.
  - assert (Hr : - Z.pos dn < Z.rem n (Z.pos dn) <= 0)
      by (apply Z.rem_bound_pos_neg; lia).
    revert Hqr Hr. generalize (Z.rem n (Z.pos dn)) (n ÷ Z.pos dn) (Z.pos dn).
    intros r q d Hqr Hr. nia.
Qed.

Ltac solve_self_entries :=
  simpl; repeat split;
  try (intros ? [= <-]; eexists; reflexivity); try (intros ? [=]).

Example createIndex_S1 : createIndex false members_S1 = Ok index_S1.
Proof. reflexivity. Qed.

Lemma mounted_S1_self_entries_ok : self_entries_ok (Dir mounted_S1).
Proof. solve_self_entries. Qed.

(** Scenario S6: a member with mode [0o755] is reported with [0o555]; the
    mount point's float [mtime] 1.5 is reported as 1. *)
Example getattr_S6 :
  (exists st, getattr mounted_S1 "/d/c.txt" = Ok st /\
              Z.land (st_mode st) 511 = 365) /\
  (exists st, getattr mounted_S1 "/" = Ok st /\ st_mtime st = 1).
Proof. split; eexists; split; reflexivity. Qed.

(** Looking below a record whose link name is the next component raises
    [TypeError] in [getFileInfo]: the path is then neither found nor
    reported as missing. *)
Example getFileInfo_below_link :
  getFileInfo index_links "/rel/a.txt" false = Raise TypeError /\
  getFileInfo index_links "/rel/b.txt" false = Ok None.
Proof. split; reflexivity. Qed.

Lemma unique_keys_get name d v :
  unique_keys (Dir d) -> dict_get name d = Some v -> unique_keys v.
Proof.
  intros H. apply unique_keys_Dir in H. destruct H as [_ Hall].
  induction d as [|[k x] rest IH]; simpl; [discriminate|].
  destruct Hall as [Hx Hrest].
  destruct (String.eqb name k); [intros [= <-]; assumption|].
  apply IH. assumption.
Qed.





(** C8, as amended: for a path with a record whose link name does not
    begin with ["/"], [readlink] returns the stored link name. *)
Theorem readlink_stored_linkname (fileIndex : dict) (path : string)
  (fi : FileInfo) :
  getFileInfo fileIndex path false = Ok (Some (File fi)) ->
  startswith (linkname fi) "/" = false ->
  readlink fileIndex path = Ok (linkname fi).
Proof.
  intros Hfi Hrel. unfold readlink. rewrite Hfi. cbn [rbind]. rewrite Hrel.
  reflexivity.
Qed.

Lemma readlink_stored_linkname_witness :
  readlink index_links "/rel" = Ok "a.txt".
Proof.
  apply (readlink_stored_linkname index_links "/rel"
           (mkFileInfo 512 0 (Finite 0) 41471 SYMTYPE "a.txt" 0 0 false));
    reflexivity.
Defined.

(** C8 as stated fails for an absolute link name: the record of [/abs]
    stores ["/etc/passwd"], and [readlink] raises [AttributeError]. *)
Lemma readlink_absolute_linkname_raises :
  (exists fi, getFileInfo index_links "/abs" false = Ok (Some (File fi)) /\
              linkname fi = "/etc/passwd") /\
  readlink index_links "/abs" = Raise AttributeError /\
  readlink index_links "/abs" <> Ok "/etc/passwd".
Proof.
  split; [eexists; split; reflexivity|]. split; [reflexivity|].
  vm_compute. discriminate.
Qed.

(** C6 at the failing input: with recursive mounting, [foo.tar] is mounted
    as the synthesized folder [/foo]; the folder [foo/] that follows clashes
    with it, and the relocation call raises [TypeError], so no index is
    built. *)
Theorem createIndex_name_clash_raises :
  (exists idx fi,
     createIndex true (firstn 1 members_S4) = Ok idx /\
     getFileInfo idx "/foo" false = Ok (Some (File fi)) /\ istar fi = true) /\
  createIndex true members_S4 = Raise TypeError.
Proof. split; [do 2 eexists; repeat split|]; reflexivity. Qed.

(** In the other archive order there is no clash to resolve, and the index
    is the one scenario S4 describes. *)
Example createIndex_S4_reversed :
  exists idx foo mount,
    createIndex true (rev members_S4) = Ok idx /\
    getFileInfo idx "/foo" false = Ok (Some (File foo)) /\ istar foo = false /\
    getFileInfo idx "/foo.tar" false = Ok (Some (File mount)) /\
    istar mount = true /\
    fst (readdir idx "/foo.tar") = ["."; ".."; "x"; "."].
Proof. do 3 eexists. repeat split; reflexivity. Qed.

(** The type bits of the mode for the member types [createIndex] handles. *)
Lemma scan_mode_handled_types (tarInfo : TarInfo) :
  (ti_type tarInfo = DIRTYPE -> scan_mode tarInfo = Z.lor (ti_mode tarInfo) S_IFDIR) /\
  (ti_type tarInfo = REGTYPE -> scan_mode tarInfo = Z.lor (ti_mode tarInfo) S_IFREG) /\
  (ti_type tarInfo = SYMTYPE -> scan_mode tarInfo = Z.lor (ti_mode tarInfo) S_IFLNK) /\
  (ti_type tarInfo = CHRTYPE -> scan_mode tarInfo = Z.lor (ti_mode tarInfo) S_IFCHR) /\
  (ti_type tarInfo = FIFOTYPE -> scan_mode tarInfo = Z.lor (ti_mode tarInfo) S_IFIFO).
Proof.
  unfold scan_mode, ti_isdir, ti_isfile, ti_issym, ti_ischr, ti_isfifo.
  repeat split; intros ->; reflexivity.
Qed.

(** A block device gets no type bit: none of the five tests matches it. *)
Lemma scan_mode_block_device (tarInfo : TarInfo) :
  ti_type tarInfo = BLKTYPE -> scan_mode tarInfo = ti_mode tarInfo.
Proof.
  intros Ht.
  unfold scan_mode, ti_isdir, ti_isfile, ti_issym, ti_ischr, ti_isfifo.
  rewrite Ht. reflexivity.
Qed.

(** C7 at the failing input: the record [createIndex] stores for the block
    device [dev/sda] with permissions [0o660] has mode [0o660], without
    [S_IFBLK]; the character device next to it gets [S_IFCHR]. *)
Theorem createIndex_block_device_no_type_bit :
  exists idx sda tty,
    createIndex false members_dev = Ok idx /\
    getFileInfo idx "/dev/sda" false = Ok (Some (File sda)) /\
    type sda = BLKTYPE /\
    mode sda = 432 /\ mode sda <> Z.lor 432 S_IFBLK /\
    getFileInfo idx "/dev/tty" false = Ok (Some (File tty)) /\
    mode tty = Z.lor 432 S_IFCHR.
Proof.
  do 3 eexists. repeat split; try reflexivity. vm_compute. discriminate.
Qed.

(** ** The index: paths, the setters, [createIndex] and the mount *)

Lemma split_not_nil c s : split c s <> [].
Proof.
  destruct s as [|a rest]; simpl; [discriminate|].
  destruct (Ascii.eqb a c); [discriminate|].
  destruct (split c rest); discriminate.
Qed.

Lemma split_nosep (a : string) : has_sep a = false -> split sep a = [a].
Proof.
  induction a as [|c rest IH]; simpl; [reflexivity|].
  intros H. apply orb_false_elim in H. destruct H as [Hc Hrest].
  rewrite Hc, (IH Hrest). reflexivity.
Qed.

Lemma split_app_nosep (a b : string) :
  has_sep a = false -> split sep (a ++ String sep b) = a :: split sep b.
Proof.
  induction a as [|c rest IH]; simpl.
  - intros _. reflexivity.
  - intros H. apply orb_false_elim in H. destruct H as [Hc Hrest].
    rewrite Hc, (IH Hrest). reflexivity.
Qed.

Lemma split_comps_nosep (s : string) :
  Forall (fun c => has_sep c = false) (split sep s).
Proof.
  induction s as [|c rest IH]; simpl; [repeat constructor|].
  destruct (Ascii.eqb c sep) eqn:E; [constructor; [reflexivity|assumption]|].
  destruct (split sep rest) as [|h t]; [repeat constructor; simpl; rewrite E; reflexivity|].
  inversion IH; subst. constructor; [|assumption]. simpl. rewrite E. assumption.
Qed.

Lemma split_concat (comps : list string) :
  comps <> [] -> Forall (fun c => has_sep c = false) comps ->
  split sep (String.concat "/" comps) = comps.
Proof.
  induction comps as [|x rest IH]; [congruence|]. intros _ Hall.
  inversion Hall as [|? ? Hx Hrest]; subst.
  destruct rest as [|y rest'].
  - simpl. apply split_nosep. assumption.
  - change (String.concat "/" (x :: y :: rest'))
      with (x ++ String sep (String.concat "/" (y :: rest'))).
    rewrite split_app_nosep by assumption. rewrite IH; [reflexivity|discriminate|assumption].
Qed.

Lemma proper_comp_nosep c : proper_comp c -> has_sep c = false.
Proof. intros (_ & _ & H). exact H. Qed.

Lemma normpath_comps_proper (k : nat) (comps acc : list string) :
  Forall (fun c => has_sep c = false) comps ->
  Forall proper_comp acc ->
  Forall proper_comp (normpath_comps k comps acc).
Proof.
  revert acc. induction comps as [|c rest IH]; intros acc Hc Hacc; simpl.
  - assumption.
  - inversion Hc as [|? ? Hns Hrest]; subst.
    destruct (String.eqb_spec c "") as [->|Hne]; [apply IH; assumption|].
    destruct (String.eqb_spec c ".") as [->|Hnd]; [apply IH; assumption|].
    cbn [orb].
    destruct (negb (String.eqb c "..")
              || (Nat.eqb k 0 && Nat.eqb (List.length acc) 0)
              || (negb (Nat.eqb (List.length acc) 0) && String.eqb (last acc "") "..")).
    + apply IH; [assumption|]. apply Forall_app. split; [assumption|].
      repeat constructor; assumption.
    + apply IH; [assumption|].
      destruct acc as [|a acc'] using rev_ind; [constructor|].
      rewrite removelast_last. apply Forall_app in Hacc. apply Hacc.
Qed.

Lemma concat_proper_not_empty (c : string) (rest : list string) :
  c <> "" -> String.eqb (String.concat "/" (c :: rest)) "" = false.
Proof.
  intros Hc. destruct c as [|a c']; [congruence|].
  destruct rest; reflexivity.
Qed.

Lemma last_repeat_dotdot (j : nat) : last (repeat ".." (S j)) "" = "..".
Proof. induction j as [|j IH]; [reflexivity|]. exact IH. Qed.

Lemma repeat_snoc {A} (x : A) (j : nat) : (repeat x j ++ [x])%list = repeat x (S j).
Proof. induction j as [|j IH]; simpl; [reflexivity|]. rewrite IH. reflexivity. Qed.

Lemma normpath_comps_dotdot (k : nat) (comps acc : list string) :
  dotdot_form k acc -> dotdot_form k (normpath_comps k comps acc).
Proof.
  revert acc. induction comps as [|c comps' IH]; intros acc Hacc; simpl.
  - assumption.
  - destruct (String.eqb c "" || String.eqb c "."); [apply IH; assumption|].
    destruct Hacc as (n & rest & -> & Hrest & Hkn).
    destruct (String.eqb_spec c "..") as [->|Hc]; cbn [negb orb].
    + destruct (Nat.eqb_spec k 0) as [->|Hk]; cbn [andb].
      * destruct rest as [|r rest'] using rev_ind.
        -- rewrite app_nil_r.
           assert (Hcond : Nat.eqb (List.length (repeat ".." n)) 0
                           || negb (Nat.eqb (List.length (repeat ".." n)) 0)
                              && String.eqb (last (repeat ".." n) "") ".." = true).
           { destruct n as [|n']; [reflexivity|].
             rewrite last_repeat_dotdot. rewrite repeat_length. reflexivity. }
           rewrite Hcond. apply IH. exists (S n), [].
           rewrite app_nil_r, repeat_snoc. (split; [|split]); [try reflexivity|constructor|lia].
        -- clear IHrest'.
           assert (Hr : r <> "..").
           { apply Forall_app in Hrest. destruct Hrest as [_ Hr].
             inversion Hr. assumption. }
           rewrite app_assoc, last_last, removelast_last.
           rewrite length_app. cbn [List.length].
           replace (Nat.eqb (List.length (repeat ".." n ++ rest') + 1) 0)
             with false by (symmetry; apply Nat.eqb_neq; lia).
           cbn [orb negb andb].
           destruct (String.eqb_spec r "..") as [E|_]; [congruence|].
           apply IH. exists n, rest'. split; [reflexivity|]. split; [|assumption].
           apply Forall_app in Hrest. apply Hrest.
      * assert (Hn : n = 0%nat) by (apply Hkn; lia). subst n. cbn [repeat app].
        destruct rest as [|r rest'] using rev_ind.
        -- cbn. apply IH. exists 0%nat, []. (split; [|split]); [try reflexivity|constructor|lia].
        -- clear IHrest'.
           assert (Hr : r <> "..").
           { apply Forall_app in Hrest. destruct Hrest as [_ Hr].
             inversion Hr. assumption. }
           rewrite last_last, removelast_last, length_app. cbn [List.length].
           replace (Nat.eqb (List.length rest' + 1) 0)
             with false by (symmetry; apply Nat.eqb_neq; lia).
           cbn [orb negb andb].
           destruct (String.eqb_spec r "..") as [E|_]; [congruence|].
           apply IH. exists 0%nat, rest'. split; [reflexivity|]. split; [|lia].
           apply Forall_app in Hrest. apply Hrest.
    + apply IH. exists n, (rest ++ [c])%list. rewrite app_assoc.
      split; [reflexivity|]. split; [|assumption].
      apply Forall_app. split; [assumption|]. repeat constructor. assumption.
Qed.

(** The component loop leaves normalized components as they are. *)
Lemma normpath_comps_keep (k : nat) (rest acc : list string) :
  Forall proper_comp rest -> Forall (fun c => c <> "..") rest ->
  normpath_comps k rest acc = (acc ++ rest)%list.
Proof.
  revert acc. induction rest as [|c rest' IH]; intros acc Hp Hd; simpl.
  - rewrite app_nil_r. reflexivity.
  - inversion Hp as [|? ? (Hne & Hnd & _) Hp']; subst.
    inversion Hd as [|? ? Hc Hd']; subst.
    destruct (String.eqb_spec c "") as [E|_]; [congruence|].
    destruct (String.eqb_spec c ".") as [E|_]; [congruence|].
    destruct (String.eqb_spec c "..") as [E|_]; [congruence|].
    cbn [orb negb]. rewrite IH by assumption.
    rewrite <- app_assoc. reflexivity.
Qed.

Lemma normpath_comps_keep_dotdot (m j : nat) (rest : list string) :
  Forall proper_comp rest -> Forall (fun c => c <> "..") rest ->
  normpath_comps 0 (repeat ".." m ++ rest) (repeat ".." j)
  = (repeat ".." (j + m) ++ rest)%list.
Proof.
  intros Hp Hd. revert j. induction m as [|m IH]; intros j.
  - cbn [repeat app]. rewrite Nat.add_0_r. apply normpath_comps_keep; assumption.
  - cbn [repeat app normpath_comps]. cbn.
    assert (Hcond : Nat.eqb (List.length (repeat ".." j)) 0
                    || negb (Nat.eqb (List.length (repeat ".." j)) 0)
                       && String.eqb (last (repeat ".." j) "") ".." = true).
    { destruct j as [|j']; [reflexivity|].
      rewrite last_repeat_dotdot. rewrite repeat_length. reflexivity. }
    rewrite Hcond, repeat_snoc, IH.
    replace (S j + m)%nat with (j + S m)%nat by lia. reflexivity.
Qed.

Lemma normpath_comps_fixed (k : nat) (comps : list string) :
  Forall proper_comp comps -> dotdot_form k comps ->
  normpath_comps k comps [] = comps.
Proof.
  intros Hp (n & rest & -> & Hd & Hkn).
  apply Forall_app in Hp. destruct Hp as [_ Hp].
  destruct k as [|k].
  - apply (normpath_comps_keep_dotdot n 0 rest Hp Hd).
  - rewrite (Hkn ltac:(lia)). apply normpath_comps_keep; assumption.
Qed.

(** A normalized path: no, one or two leading slashes, then proper
    components joined by single slashes; ["."] when there is neither. *)
Lemma normpath_shape (path : string) :
  exists (k : nat) (comps : list string),
    Forall proper_comp comps /\ dotdot_form k comps /\
    (startswith path "/" = true <-> (1 <= k)%nat) /\ (k <= 2)%nat /\
    normpath path
    = match k, comps with
      | O, [] => "."
      | _, _ => String.concat "" (repeat "/" k) ++ String.concat "/" comps
      end.
Proof.
  unfold normpath.
  destruct (String.eqb_spec path "") as [->|Hne].
  { exists 0%nat, []. split; [constructor|].
    split; [exists 0%nat, []; (split; [|split]); [try reflexivity|constructor|lia]|].
    split; [split; [discriminate|lia]|]. split; [lia|reflexivity]. }
  set (k := if startswith path "/"
            then if startswith path "//" && negb (startswith path "///")
                 then 2%nat else 1%nat
            else 0%nat).
  set (comps := normpath_comps k (split sep path) []).
  assert (Hproper : Forall proper_comp comps).
  { apply normpath_comps_proper; [apply split_comps_nosep|constructor]. }
  assert (Hdots : dotdot_form k comps).
  { apply normpath_comps_dotdot. exists 0%nat, [].
    (split; [|split]); [try reflexivity|constructor|lia]. }
  clearbody comps. exists k, comps. split; [assumption|].
  assert (Hnonempty : comps <> [] ->
                      String.eqb (String.concat "/" comps) "" = false).
  { destruct comps as [|c rest]; [congruence|]. intros _.
    inversion Hproper as [|? ? (Hc & _) _]; subst.
    apply concat_proper_not_empty. assumption. }
  split; [assumption|]. clear Hdots.
  destruct (startswith path "/") eqn:E1.
  - destruct (startswith path "//" && negb (startswith path "///"));
      subst k; (split; [split; [lia|reflexivity]|]); (split; [lia|]);
      reflexivity.
  - subst k. split; [split; [discriminate|lia]|]. split; [lia|].
    destruct comps as [|c rest]; [reflexivity|].
    cbn [repeat]. change (String.concat "" [] ++ ?x) with x.
    rewrite Hnonempty by discriminate. reflexivity.
Qed.

Lemma lstrip_proper (c : string) (rest : list string) :
  proper_comp c -> lstrip sep (String.concat "/" (c :: rest))
                   = String.concat "/" (c :: rest).
Proof.
  intros (Hne & _ & Hns). destruct c as [|a c']; [congruence|].
  simpl in Hns. apply orb_false_elim in Hns. destruct Hns as [Ha _].
  destruct rest; simpl; rewrite Ha; reflexivity.
Qed.

Lemma rstrip_nosep (b : string) :
  has_sep b = false -> rstrip sep b = b.
Proof.
  induction b as [|c b' IH]; [reflexivity|]. simpl. intros H.
  apply orb_false_elim in H. destruct H as [Hc Hb]. rewrite (IH Hb).
  destruct b'; [rewrite Hc|]; reflexivity.
Qed.

Lemma rstrip_concat_proper (comps : list string) :
  comps <> [] -> Forall proper_comp comps ->
  rstrip sep (String.concat "/" comps) = String.concat "/" comps.
Proof.
  induction comps as [|c rest IH]; [congruence|]. intros _ Hall.
  inversion Hall as [|? ? (Hne & _ & Hns) Hrest]; subst.
  destruct rest as [|y rest'].
  - simpl. apply rstrip_nosep. assumption.
  - change (String.concat "/" (c :: y :: rest'))
      with (c ++ String sep (String.concat "/" (y :: rest'))).
    specialize (IH ltac:(discriminate) Hrest).
    set (tl := String.concat "/" (y :: rest')) in *.
    assert (Htl : tl <> "").
    { inversion Hrest as [|? ? (Hy & _) _]; subst. unfold tl.
      intros E. pose proof (concat_proper_not_empty y rest' Hy) as Hc.
      rewrite E in Hc. discriminate. }
    clearbody tl. clear -IH Htl.
    induction c as [|a c' IHc]; simpl.
    + rewrite IH. destruct tl; [congruence|reflexivity].
    + rewrite IHc. destruct (c' ++ String sep tl) eqn:E; [|reflexivity].
      destruct c'; discriminate.
Qed.

(** The components of a normalized path: up to two empty names for the
    leading slashes, then proper components; the root has one more empty
    name, and the empty relative path is ["."]. *)
Lemma split_normpath (path : string) :
  (startswith path "/" = false /\ split sep (normpath path) = ["."] /\
   split sep (strip sep (normpath path)) = ["."]) \/
  exists (k : nat) (comps : list string),
    Forall proper_comp comps /\
    (startswith path "/" = true <-> (1 <= k)%nat) /\
    (comps = [] -> normpath path = "/" \/ normpath path = "//") /\
    split sep (normpath path)
    = (repeat "" k ++ match comps with [] => [""] | _ => comps end)%list /\
    split sep (strip sep (normpath path))
    = match comps with [] => [""] | _ => comps end.
Proof.
  destruct (normpath_shape path) as (k & comps & Hproper & _ & Hk & Hk2 & Hn).
  assert (Hns : Forall (fun c => has_sep c = false) comps).
  { eapply Forall_impl; [|exact Hproper]. intros c. apply proper_comp_nosep. }
  assert (Hsplit : split sep (String.concat "/" comps)
                   = match comps with [] => [""] | _ => comps end).
  { destruct comps as [|c rest]; [reflexivity|].
    apply split_concat; [discriminate|assumption]. }
  assert (Hstrip : strip sep (String.concat "/" comps) = String.concat "/" comps).
  { destruct comps as [|c rest]; [reflexivity|]. unfold strip.
    inversion Hproper; subst.
    rewrite lstrip_proper by assumption.
    apply rstrip_concat_proper; [discriminate|assumption]. }
  destruct k as [|[|[|k]]]; [| | |lia]; cbv iota in Hn.
  - destruct comps as [|c rest].
    + left. rewrite Hn. split; [|split; reflexivity].
      destruct (startswith path "/"); [|reflexivity].
      destruct Hk as [Hk _]. specialize (Hk eq_refl). lia.
    + right. exists 0%nat, (c :: rest). split; [assumption|]. split; [assumption|].
      split; [discriminate|].
      rewrite Hn.
      change (String.concat "" (repeat "/" 0) ++ ?x) with x.
      rewrite Hstrip, Hsplit. split; reflexivity.
  - right. exists 1%nat, comps. split; [assumption|]. split; [assumption|].
    split; [intros ->; rewrite Hn; left; reflexivity|].
    rewrite Hn.
    remember (String.concat "/" comps) as joined.
    assert (Hs : strip sep (String.concat "" (repeat "/" 1) ++ joined) = joined).
    { transitivity (strip sep joined); [reflexivity|exact Hstrip]. }
    rewrite Hs, Hsplit. split; [|reflexivity].
    simpl. rewrite Hsplit. reflexivity.
  - right. exists 2%nat, comps. split; [assumption|]. split; [assumption|].
    split; [intros ->; rewrite Hn; right; reflexivity|].
    rewrite Hn.
    remember (String.concat "/" comps) as joined.
    assert (Hs : strip sep (String.concat "" (repeat "/" 2) ++ joined) = joined).
    { transitivity (strip sep joined); [reflexivity|exact Hstrip]. }
    rewrite Hs, Hsplit. split; [|reflexivity].
    simpl. rewrite Hsplit. reflexivity.
Qed.

Lemma startswith_nil (s : string) : startswith s "" = true.
Proof. destruct s; reflexivity. Qed.

Lemma startswith_cons (a c : ascii) (s pre : string) :
  startswith (String a s) (String c pre) = Ascii.eqb c a && startswith s pre.
Proof.
  unfold startswith. simpl.
  destruct (ascii_dec c a) as [->|Hne].
  - rewrite Ascii.eqb_refl. reflexivity.
  - destruct (Ascii.eqb_spec c a); [congruence|reflexivity].
Qed.

Lemma concat_proper_head (comps : list string) :
  comps <> [] -> Forall proper_comp comps ->
  exists (a : ascii) (tl : string),
    String.concat "/" comps = String a tl /\ Ascii.eqb a sep = false.
Proof.
  destruct comps as [|c rest]; [congruence|]. intros _ Hall.
  inversion Hall as [|? ? (Hne & _ & Hns) _]; subst.
  destruct c as [|a c']; [congruence|].
  simpl in Hns. apply orb_false_elim in Hns. destruct Hns as [Ha _].
  destruct rest; simpl; eauto.
Qed.

Lemma normpath_fixed (s : string) (k : nat) (comps : list string) :
  String.eqb s "" = false ->
  (if startswith s "/"
   then if startswith s "//" && negb (startswith s "///") then 2%nat else 1%nat
   else 0%nat) = k ->
  normpath_comps k (split sep s) [] = comps ->
  String.concat "" (repeat "/" k) ++ String.concat "/" comps = s ->
  normpath s = s.
Proof.
  intros Hne Hk Hcomps Hs. unfold normpath.
  rewrite Hne, Hk, Hcomps, Hs, Hne. reflexivity.
Qed.

(** [os.path.normpath] leaves a normalized path as it is. *)
Lemma normpath_idempotent (path : string) :
  normpath (normpath path) = normpath path.
Proof.
  destruct (normpath_shape path)
    as (k & comps & Hproper & Hdots & Hk & Hk2 & Hn).
  rewrite Hn. clear Hn Hk path.
  assert (Hns : Forall (fun c => has_sep c = false) comps).
  { eapply Forall_impl; [|exact Hproper]. intros c. apply proper_comp_nosep. }
  pose proof (normpath_comps_fixed k comps Hproper Hdots) as Hfix.
  destruct comps as [|c rest].
  { destruct k as [|[|[|k]]]; [reflexivity|reflexivity|reflexivity|lia]. }
  assert (Hsplit : split sep (String.concat "/" (c :: rest)) = c :: rest).
  { apply split_concat; [discriminate|assumption]. }
  destruct (concat_proper_head (c :: rest)) as (a & tl & Hhead & Ha);
    [discriminate|assumption|].
  assert (Ha' : Ascii.eqb "/" a = false).
  { rewrite Ascii.eqb_sym. exact Ha. }
  remember (String.concat "/" (c :: rest)) as joined.
  replace (match k with
           | 0%nat => String.concat "" (repeat "/" k) ++ joined
           | S _ => String.concat "" (repeat "/" k) ++ joined
           end) with (String.concat "" (repeat "/" k) ++ joined)
    by (destruct k; reflexivity).
  destruct k as [|[|[|k]]]; [| | |lia].
  - change (String.concat "" (repeat "/" 0) ++ joined) with joined.
    apply (normpath_fixed joined 0 (c :: rest)).
    + rewrite Hhead. reflexivity.
    + rewrite Hhead, startswith_cons, Ha'. reflexivity.
    + rewrite Hsplit. exact Hfix.
    + rewrite <- Heqjoined. reflexivity.
  - change (String.concat "" (repeat "/" 1) ++ joined) with (String "/" joined).
    apply (normpath_fixed (String "/" joined) 1 (c :: rest)).
    + reflexivity.
    + rewrite Hhead, !startswith_cons, Ha', startswith_nil. reflexivity.
    + cbn [split]. change (Ascii.eqb "/" sep) with true. cbv iota.
      cbn [normpath_comps String.eqb orb]. rewrite Hsplit. exact Hfix.
    + rewrite <- Heqjoined. reflexivity.
  - change (String.concat "" (repeat "/" 2) ++ joined)
      with (String "/" (String "/" joined)).
    apply (normpath_fixed (String "/" (String "/" joined)) 2 (c :: rest)).
    + reflexivity.
    + rewrite Hhead, !startswith_cons, Ha', startswith_nil. reflexivity.
    + cbn [split]. change (Ascii.eqb "/" sep) with true. cbv iota.
      cbn [normpath_comps String.eqb orb]. rewrite Hsplit. exact Hfix.
    + rewrite <- Heqjoined. reflexivity.
Qed.

(** The names of a path other than the root: no, one or two empty names,
    which the walks skip, and then names that are not empty. *)
Lemma normpath_names (path : string) :
  normpath path <> "/" -> normpath path <> "//" ->
  exists (k : nat) (names : list string),
    names <> [] /\ Forall (fun c => c <> "") names /\
    (startswith path "/" = true -> Forall proper_comp names) /\
    split sep (normpath path) = (repeat "" k ++ names)%list /\
    split sep (strip sep (normpath path)) = names.
Proof.
  intros H1 H2.
  destruct (split_normpath path)
    as [(Hrel & Hs & Hst)|(k & comps & Hp & Hk & Hroot & Hs & Hst)].
  - exists 0%nat, ["."]. split; [discriminate|].
    split; [repeat constructor; discriminate|].
    split; [congruence|]. split; assumption.
  - destruct comps as [|c rest]; [destruct (Hroot eq_refl); contradiction|].
    exists k, (c :: rest). split; [discriminate|]. split.
    + eapply Forall_impl; [|exact Hp]. intros x (Hx & _). exact Hx.
    + split; [intros _; assumption|]. split; assumption.
Qed.

Lemma dict_get_set_same (key : string) (v : node) (d : dict) :
  dict_get key (dict_set key v d) = Some v.
Proof.
  induction d as [|[k w] rest IH]; simpl.
  - rewrite String.eqb_refl. reflexivity.
  - destruct (String.eqb_spec key k) as [->|Hne]; simpl.
    + rewrite String.eqb_refl. reflexivity.
    + destruct (String.eqb_spec key k); [congruence|]. exact IH.
Qed.

Lemma dict_get_set_other (key key' : string) (v : node) (d : dict) :
  key <> key' -> dict_get key (dict_set key' v d) = dict_get key d.
Proof.
  intros Hne. induction d as [|[k w] rest IH]; simpl.
  - destruct (String.eqb_spec key key'); [congruence|reflexivity].
  - destruct (String.eqb_spec key' k) as [->|Hk]; simpl.
    + destruct (String.eqb_spec key k); [congruence|reflexivity].
    + destruct (String.eqb_spec key k); [reflexivity|exact IH].
Qed.

Lemma walk_skip_empty (k : nat) (names : list string) (p : node) :
  walk (repeat "" k ++ names) p = walk names p.
Proof. induction k as [|k IH]; [reflexivity|exact IH]. Qed.

Lemma descend_skip_empty (k : nat) (names : list string) f (p : node) :
  descend (repeat "" k ++ names) f p = descend names f p.
Proof. induction k as [|k IH]; [reflexivity|exact IH]. Qed.

Lemma path_names_repeat (k : nat) (l : list string) :
  filter (fun name => negb (String.eqb name "" || String.eqb name "."))
         (repeat "" k ++ l)
  = filter (fun name => negb (String.eqb name "" || String.eqb name ".")) l.
Proof. induction k as [|k IH]; [reflexivity|exact IH]. Qed.

Lemma path_names_proper (comps : list string) :
  Forall proper_comp comps ->
  filter (fun name => negb (String.eqb name "" || String.eqb name ".")) comps
  = comps.
Proof.
  induction 1 as [|c rest (Hne & Hnd & _) _ IH]; [reflexivity|].
  simpl. rewrite IH.
  destruct (String.eqb_spec c ""); [congruence|].
  destruct (String.eqb_spec c "."); [congruence|]. reflexivity.
Qed.

(** On names that are not empty the walk of [getFileInfo] is the descent of
    the data model, but for the [TypeError] below a record that holds the
    next name as its link name. *)
Lemma walk_tree_find (names : list string) (p : node) :
  no_empty names ->
  walk names p = if below_link names p then Raise TypeError
                 else Ok (tree_find names p).
Proof.
  intros Hne. revert p. induction Hne as [|name rest Hname _ IH]; intros p.
  - reflexivity.
  - cbn [walk below_link tree_find].
    destruct (String.eqb_spec name ""); [congruence|].
    destruct p as [fi|d].
    + destruct (String.eqb name (linkname fi)); reflexivity.
    + destruct (dict_get name d) as [v|]; [apply IH|reflexivity].
Qed.

Lemma tree_find_not_below_link (names : list string) (p v : node) :
  tree_find names p = Some v -> below_link names p = false.
Proof.
  revert p. induction names as [|name rest IH]; intros p H; [reflexivity|].
  cbn [tree_find below_link] in *. destruct p as [fi|d]; [discriminate|].
  destruct (dict_get name d) as [x|]; [eauto|reflexivity].
Qed.

Lemma tree_find_self_entries_ok (names : list string) (p v : node) :
  tree_find names p = Some v -> self_entries_ok p -> self_entries_ok v.
Proof.
  revert p. induction names as [|name rest IH]; intros p H Hok.
  - injection H as <-. assumption.
  - cbn [tree_find] in H. destruct p as [fi|d]; [discriminate|].
    destruct (dict_get name d) as [x|] eqn:E; [|discriminate].
    apply (IH x H). eapply self_entries_ok_get; eassumption.
Qed.

(** The walk of [getFileInfo] along the components of the normalized path,
    in terms of the segments of the path: the relative path that
    normalizes to ["."] is looked up as the root's own entry. *)
Lemma walk_path_names (fileIndex : dict) (path : string) :
  (path_names path = [] /\
   walk (split sep (normpath path)) (Dir fileIndex)
   = Ok (dict_get "." fileIndex)) \/
  walk (split sep (normpath path)) (Dir fileIndex)
  = (if below_link (path_names path) (Dir fileIndex) then Raise TypeError
     else Ok (tree_find (path_names path) (Dir fileIndex))).
Proof.
  unfold path_names.
  destruct (split_normpath path)
    as [(_ & Hs & _)|(k & comps & Hp & _ & _ & Hs & _)]; rewrite Hs.
  - left. split; [reflexivity|]. cbn [walk String.eqb Ascii.eqb Bool.eqb].
    cbv iota. destruct (dict_get "." fileIndex); reflexivity.
  - right. rewrite path_names_repeat, walk_skip_empty.
    destruct comps as [|c rest]; [reflexivity|].
    rewrite path_names_proper by assumption.
    apply walk_tree_find.
    eapply Forall_impl; [|exact Hp]. intros x (Hx & _). exact Hx.
Qed.

(** For a path that is not present, and not below a record that holds the
    next name as its link name, [getFileInfo] finds nothing. *)
Lemma getFileInfo_not_present (fileIndex : dict) (path : string)
  (listDir : bool) :
  present fileIndex path = false ->
  below_link (path_names path) (Dir fileIndex) = false ->
  getFileInfo fileIndex path listDir = Ok None.
Proof.
  unfold present, getFileInfo. intros Hp Hb.
  destruct (walk_path_names fileIndex path) as [[Hn _]|Hw].
  - rewrite Hn in Hp. discriminate.
  - rewrite Hw, Hb.
    destruct (tree_find _ _); [discriminate|reflexivity].
Qed.

(** For a present path [getFileInfo] returns the record of its node, in a
    tree whose self-entries are records and whose root has one. *)
Lemma getFileInfo_tree_record (fileIndex : dict) (path : string)
  (fi : FileInfo) :
  self_entries_ok (Dir fileIndex) -> dict_get "." fileIndex <> None ->
  tree_record fileIndex path = Some fi ->
  getFileInfo fileIndex path false = Ok (Some (File fi)).
Proof.
  unfold tree_record, getFileInfo. intros Hok Hroot Hrec.
  destruct (tree_find (path_names path) (Dir fileIndex)) as [v|] eqn:Hfind;
    [|discriminate].
  injection Hrec as <-.
  destruct (walk_path_names fileIndex path) as [[Hn Hw]|Hw]; rewrite Hw.
  - rewrite Hn in Hfind. injection Hfind as <-.
    destruct (dict_get "." fileIndex) as [x|] eqn:E; [|congruence].
    destruct Hok as [Hself _]. destruct (Hself x E) as [fi ->].
    cbn [rbind record_of]. rewrite E. reflexivity.
  - rewrite (tree_find_not_below_link _ _ _ Hfind), Hfind. cbn [rbind negb].
    pose proof (tree_find_self_entries_ok _ _ _ Hfind Hok) as Hv.
    destruct v as [fi|d]; [reflexivity|].
    cbn [record_of]. destruct Hv as [Hself _].
    destruct (dict_get "." d) as [x|] eqn:E; [|reflexivity].
    destruct (Hself x eq_refl) as [fi ->]. reflexivity.
Qed.

(** C4, as amended: for a path present in the tree whose record holds a
    finite [mtime], in a tree whose self-entries are records and whose
    root has one, [getattr] returns a stat with the write permission bits
    cleared and nothing else of the record's mode changed, [st_nlink] 2,
    [st_mtime] the record's [mtime] truncated to an integer, and [st_size],
    [st_uid] and [st_gid] copied from the record. *)
Theorem getattr_read_only_stat (fileIndex : dict) (path : string)
  (fi : FileInfo) (q : Q) :
  self_entries_ok (Dir fileIndex) -> dict_get "." fileIndex <> None ->
  tree_record fileIndex path = Some fi ->
  mtime fi = Finite q ->
  exists st,
    getattr fileIndex path = Ok st /\
    Z.land (st_mode st) write_bits = 0 /\
    Z.lor (st_mode st) (Z.land (mode fi) write_bits) = mode fi /\
    st_nlink st = 2 /\
    truncation_of (st_mtime st) q /\
    st_size st = size fi /\ st_uid st = uid fi /\ st_gid st = gid fi.
Proof.
  intros Hok Hroot Hrec Hq.
  pose proof (getFileInfo_tree_record _ _ _ Hok Hroot Hrec) as Hfi.
  unfold getattr. rewrite Hfi. cbn [rbind]. rewrite Hq. cbn [int_of_number rbind].
  eexists. split; [reflexivity|].
  cbn [st_mode st_nlink st_mtime st_size st_uid st_gid]. fold write_bits.
  split; [apply land_clear_bits|]. split; [apply lor_restore_bits|].
  split; [reflexivity|]. split; [apply int_of_Q_truncates|].
  split; [reflexivity|]. split; reflexivity.
Qed.

Lemma getattr_read_only_stat_witness :
  exists st,
    getattr mounted_S1 "/" = Ok st /\
    Z.land (st_mode st) write_bits = 0 /\
    Z.lor (st_mode st) (Z.land 16877 write_bits) = 16877 /\
    st_nlink st = 2 /\
    truncation_of (st_mtime st) (3 # 2) /\
    st_size st = 10240 /\ st_uid st = 1000 /\ st_gid st = 1000.
Proof.
  apply (getattr_read_only_stat mounted_S1 "/"
           (mkFileInfo 0 10240 (Finite (3 # 2)) 16877 DIRTYPE "" 1000 1000 true)
           (3 # 2)).
  - solve_self_entries.
  - vm_compute. discriminate.
  - vm_compute. reflexivity.
  - reflexivity.
Defined.

(** C4 as stated fails for a member whose PAX header gives the time stamp
    [nan]: its path is present in the mounted index, and [getattr] raises
    [ValueError] and returns no stat. *)
Lemma getattr_nan_mtime_raises :
  (exists idx, createIndex false members_odd_mtime = Ok idx /\
               TarMount_init idx stats_S1 = mounted_odd_mtime) /\
  self_entries_ok (Dir mounted_odd_mtime) /\
  present mounted_odd_mtime "/n.txt" = true /\
  (exists fi, tree_record mounted_odd_mtime "/n.txt" = Some fi /\
              mtime fi = NaN) /\
  getattr mounted_odd_mtime "/n.txt" = Raise ValueError /\
  (forall st, getattr mounted_odd_mtime "/n.txt" <> Ok st).
Proof.
  split; [eexists; split; reflexivity|]. split; [solve_self_entries|].
  split; [reflexivity|]. split; [eexists; split; reflexivity|].
  split; [reflexivity|]. intros st. vm_compute. discriminate.
Qed.

(** C9, as amended: for a path that is not present in the tree, and does
    not lead below a record that holds the next segment as its link name,
    [getattr] raises [EROFS]; in a tree whose self-entries are records and
    whose root has one, [getattr] raises [EROFS] for no present path, and
    raises nothing for a present path whose record holds a finite
    [mtime]. *)
Theorem getattr_absent_EROFS (fileIndex : dict) (path : string) :
  (present fileIndex path = false ->
   below_link (path_names path) (Dir fileIndex) = false ->
   getattr fileIndex path = Raise (FuseOSError EROFS)) /\
  (self_entries_ok (Dir fileIndex) -> dict_get "." fileIndex <> None ->
   forall fi, tree_record fileIndex path = Some fi ->
     getattr fileIndex path <> Raise (FuseOSError EROFS) /\
     (forall q, mtime fi = Finite q ->
                exists st, getattr fileIndex path = Ok st)).
Proof.
  split.
  - intros Hp Hb. unfold getattr.
    rewrite (getFileInfo_not_present _ _ false Hp Hb). reflexivity.
  - intros Hok Hroot fi Hrec.
    pose proof (getFileInfo_tree_record _ _ _ Hok Hroot Hrec) as Hfi.
    unfold getattr. rewrite Hfi. cbn [rbind]. split.
    + destruct (mtime fi); cbn [int_of_number rbind]; discriminate.
    + intros q ->. eexists. reflexivity.
Qed.

Lemma getattr_absent_EROFS_witness :
  getattr mounted_S1 "/nope" = Raise (FuseOSError EROFS) /\
  getattr mounted_links "/rel/b.txt" = Raise (FuseOSError EROFS) /\
  exists st, getattr mounted_S1 "/d" = Ok st.
Proof.
  destruct (getattr_absent_EROFS mounted_S1 "/nope") as [Habs _].
  destruct (getattr_absent_EROFS mounted_links "/rel/b.txt") as [Hbelow _].
  destruct (getattr_absent_EROFS mounted_S1 "/d") as [_ Hpres].
  split; [apply Habs; reflexivity|]. split; [apply Hbelow; reflexivity|].
  destruct (Hpres mounted_S1_self_entries_ok ltac:(vm_compute; discriminate)
              (mkFileInfo 0 1 (Finite 0) 16749 DIRTYPE "" 0 0 false) eq_refl)
    as [_ Hst].
  apply (Hst 0%Q). reflexivity.
Defined.

(** C9 as stated fails on two sides.  The path [/rel/a.txt] is not present
    in the mounted index of the two links: [/rel] is a record and has
    nothing below it; but the record's link name is ["a.txt"], and
    [getattr] raises [TypeError], not [EROFS].  And the path [/i.txt] of a
    member whose PAX header gives the time stamp [inf] is present, and
    [getattr] raises [OverflowError]. *)
Lemma getattr_below_link_and_inf_mtime_raise :
  present mounted_links "/rel/a.txt" = false /\
  getattr mounted_links "/rel/a.txt" = Raise TypeError /\
  getattr mounted_links "/rel/a.txt" <> Raise (FuseOSError EROFS) /\
  self_entries_ok (Dir mounted_odd_mtime) /\
  present mounted_odd_mtime "/i.txt" = true /\
  getattr mounted_odd_mtime "/i.txt" = Raise OverflowError.
Proof.
  split; [reflexivity|]. split; [reflexivity|].
  split; [vm_compute; discriminate|]. split; [solve_self_entries|].
  split; reflexivity.
Qed.

Lemma last_app_nonempty {A} (l l' : list A) (dflt : A) :
  l' <> [] -> last (l ++ l') dflt = last l' dflt.
Proof.
  intros H. induction l as [|a l IH]; [reflexivity|].
  simpl. rewrite IH. destruct (l ++ l')%list eqn:E; [|reflexivity].
  apply app_eq_nil in E. destruct E. congruence.
Qed.

(** After the descent, the walk along the same names reaches the folder
    the descent has updated. *)
Lemma descend_walk (names rest : list string) (f : dict -> dict) (p p' : node) :
  descend names f p = Ok p' ->
  exists d, walk (names ++ rest) p' = walk rest (Dir (f d)).
Proof.
  revert p p'. induction names as [|name names' IH]; intros p p' H; simpl in *.
  - destruct p as [fi|d]; [discriminate|]. injection H as <-. eauto.
  - destruct (String.eqb name "") eqn:E.
    + eapply IH. exact H.
    + destruct p as [fi|d]; [discriminate|].
      destruct (descend names' f _) as [child'|e] eqn:Hd; [|discriminate].
      injection H as <-. rewrite dict_get_set_same.
      eapply IH. exact Hd.
Qed.

Lemma descend_root_Ok names f fileIndex fileIndex' :
  descend_root names f fileIndex = Ok fileIndex' ->
  descend names f (Dir fileIndex) = Ok (Dir fileIndex').
Proof.
  unfold descend_root. destruct (descend names f (Dir fileIndex)) as [[fi|d]|e];
    simpl; intros H; [discriminate|injection H as ->; reflexivity|discriminate].
Qed.

Lemma last_nonempty (names : list string) :
  names <> [] -> Forall (fun c => c <> "") names -> last names "" <> "".
Proof.
  intros Hne Hall. destruct names as [|a l] using rev_ind; [congruence|].
  rewrite last_last. apply Forall_app in Hall. destruct Hall as [_ Ha].
  inversion Ha. assumption.
Qed.

(** What both setters do: the walk along the path finds the value stored
    under the last name. *)
Lemma descend_set_walk (k : nat) (names : list string) (v : node)
  (fileIndex fileIndex' : dict) :
  names <> [] -> Forall (fun c => c <> "") names ->
  descend_root (removelast names) (dict_set (last names "") v) fileIndex
  = Ok fileIndex' ->
  walk (repeat "" k ++ names) (Dir fileIndex') = Ok (Some v).
Proof.
  intros Hne Hall H. apply descend_root_Ok in H.
  destruct (descend_walk _ [last names ""] _ _ _ H) as (d & Hw).
  rewrite walk_skip_empty.
  rewrite (app_removelast_last "" Hne), Hw. simpl.
  destruct (String.eqb_spec (last names "") "") as [E|_].
  - exfalso. exact (last_nonempty names Hne Hall E).
  - rewrite dict_get_set_same. reflexivity.
Qed.

Lemma setFileInfo_lookup (fileIndex fileIndex' : dict)
  (path : string) (fileInfo : FileInfo) (listDir : bool) :
  normpath path <> "/" -> normpath path <> "//" ->
  setFileInfo fileIndex path fileInfo = Ok fileIndex' ->
  getFileInfo fileIndex' path listDir = Ok (Some (File fileInfo)).
Proof.
  intros H1 H2 Hset.
  destruct (normpath_names path H1 H2) as (k & names & Hne & Hall & _ & Hs & _).
  unfold setFileInfo in Hset. cbv zeta in Hset. rewrite Hs in Hset.
  rewrite last_app_nonempty, removelast_app in Hset by assumption.
  unfold descend_root in Hset. rewrite descend_skip_empty in Hset.
  pose proof (descend_set_walk k names (File fileInfo) fileIndex fileIndex'
                Hne Hall Hset) as Hw.
  unfold getFileInfo. rewrite Hs, Hw. reflexivity.
Qed.

Lemma setDirInfo_lookup (fileIndex fileIndex' : dict)
  (path : string) (dirInfo : FileInfo) (dirContents : dict) :
  normpath path <> "/" -> normpath path <> "//" ->
  setDirInfo fileIndex path dirInfo dirContents = Ok fileIndex' ->
  getFileInfo fileIndex' path false = Ok (Some (File dirInfo)) /\
  getFileInfo fileIndex' path true
  = Ok (Some (Dir (dict_set "." (File dirInfo) dirContents))).
Proof.
  intros H1 H2 Hset.
  destruct (normpath_names path H1 H2) as (k & names & Hne & Hall & _ & Hs & Hst).
  unfold setDirInfo in Hset. cbv zeta in Hset. rewrite Hst in Hset.
  pose proof (descend_set_walk k names _ fileIndex fileIndex' Hne Hall Hset)
    as Hw.
  unfold getFileInfo. rewrite Hs, Hw. simpl.
  rewrite dict_get_set_same. split; reflexivity.
Qed.

Lemma getFileInfo_normpath (fileIndex : dict) (path : string) (listDir : bool) :
  getFileInfo fileIndex (normpath path) listDir
  = getFileInfo fileIndex path listDir.
Proof. unfold getFileInfo. rewrite normpath_idempotent. reflexivity. Qed.

(** [exists] says whether the lookup finds something. *)
Lemma exists_found (fileIndex : dict) (path : string) :
  exists_ fileIndex path
  = (v <- getFileInfo fileIndex path true ;;
     Ok (match v with Some _ => true | None => false end)).
Proof.
  unfold exists_, isDir. cbv zeta. rewrite !getFileInfo_normpath.
  unfold getFileInfo.
  destruct (walk _ _) as [[[fi|d]|]|e]; reflexivity.
Qed.

Lemma exists_normpath (fileIndex : dict) (path : string) :
  exists_ fileIndex (normpath path) = exists_ fileIndex path.
Proof. rewrite !exists_found, getFileInfo_normpath. reflexivity. Qed.

Lemma exists_root (fileIndex : dict) (path : string) :
  normpath path = "/" \/ normpath path = "//" ->
  exists_ fileIndex path = Ok true.
Proof.
  intros H. rewrite exists_found. unfold getFileInfo.
  destruct H as [-> | ->]; reflexivity.
Qed.

Lemma exists_false_not_root (fileIndex : dict) (path : string) :
  exists_ fileIndex path = Ok false ->
  normpath path <> "/" /\ normpath path <> "//".
Proof.
  intros H. split; intros E;
    rewrite (exists_root fileIndex path) in H by auto; discriminate.
Qed.

Lemma getFileInfo_record_exists (fileIndex : dict) (path : string) (v : node) :
  getFileInfo fileIndex path false = Ok (Some v) ->
  exists_ fileIndex path = Ok true.
Proof.
  rewrite exists_found. unfold getFileInfo.
  destruct (walk _ _) as [[[fi|d]|]|e]; simpl; congruence.
Qed.

Lemma eqb_normpath_root (path : string) :
  normpath path <> "/" -> String.eqb (normpath path) "/" = false.
Proof. intros H. destruct (String.eqb_spec (normpath path) "/"); congruence. Qed.

Lemma createIndex_member_new_lookup (fileIndex fileIndex' : dict)
  (tarInfo : TarInfo) :
  let path := "/" ++ ti_name tarInfo in
  normpath path <> "/" -> normpath path <> "//" ->
  exists_ fileIndex path = Ok false ->
  createIndex_member fileIndex tarInfo None = Ok fileIndex' ->
  getFileInfo fileIndex' path false = Ok (Some (File (scan_FileInfo tarInfo))) /\
  getFileInfo fileIndex' path true
  = Ok (Some (if ti_isdir tarInfo
              then Dir [(".", File (scan_FileInfo tarInfo))]
              else File (scan_FileInfo tarInfo))).
Proof.
  intros path H1 H2 Hex H. unfold createIndex_member in H. cbv zeta in H.
  fold path in H. rewrite eqb_normpath_root in H by assumption.
  cbn [negb] in H. rewrite exists_normpath, Hex in H. cbn [rbind] in H.
  rewrite <- !(getFileInfo_normpath fileIndex' path).
  rewrite <- (normpath_idempotent path) in H1, H2.
  destruct (ti_isdir tarInfo).
  - apply (setDirInfo_lookup _ _ _ _ _ H1 H2 H).
  - split; apply (setFileInfo_lookup _ _ _ _ _ H1 H2 H).
Qed.

(** X17: when the path of a member already has a record that is not a
    mounted TAR, [createIndex] stores that old record again, not the new
    member's: the first member of a name wins.  A folder member stored this
    way replaces the folder by one that holds the old record alone. *)
Theorem createIndex_member_keeps_old_record (fileIndex fileIndex' : dict)
  (tarInfo : TarInfo) (old : FileInfo) :
  let path := "/" ++ ti_name tarInfo in
  normpath path <> "/" -> normpath path <> "//" ->
  getFileInfo fileIndex path false = Ok (Some (File old)) ->
  istar old = false ->
  createIndex_member fileIndex tarInfo None = Ok fileIndex' ->
  getFileInfo fileIndex' path false = Ok (Some (File old)) /\
  getFileInfo fileIndex' path true
  = Ok (Some (if ti_isdir tarInfo then Dir [(".", File old)] else File old)).
Proof.
  intros path H1 H2 Hold Hstar H. unfold createIndex_member in H.
  cbv zeta in H. fold path in H.
  rewrite eqb_normpath_root in H by assumption. cbn [negb] in H.
  rewrite exists_normpath, (getFileInfo_record_exists _ _ _ Hold) in H.
  cbn [rbind] in H. rewrite getFileInfo_normpath, Hold in H.
  cbn [rbind] in H. rewrite Hstar in H. cbn [rbind] in H.
  rewrite <- !(getFileInfo_normpath fileIndex' path).
  rewrite <- (normpath_idempotent path) in H1, H2.
  destruct (ti_isdir tarInfo).
  - apply (setDirInfo_lookup _ _ _ _ _ H1 H2 H).
  - split; apply (setFileInfo_lookup _ _ _ _ _ H1 H2 H).
Qed.

(** X18: a member holding a TAR whose index was built is mounted as a
    folder: at the path without [.tar] when nothing is there, else at the
    member's own path.  The folder holds the nested index and, as its
    ["."] entry, the member's record with the mode of a mount point and
    [istar] set. *)
Theorem createIndex_member_mounts_nested (fileIndex fileIndex' nested : dict)
  (tarInfo : TarInfo) (taken : bool) :
  let path := normpath ("/" ++ ti_name tarInfo) in
  let target := if taken then path else strip_tar_suffix path in
  path <> "/" -> path <> "//" ->
  nested <> [] ->
  exists_ fileIndex (strip_tar_suffix path) = Ok taken ->
  createIndex_member fileIndex tarInfo (Some nested) = Ok fileIndex' ->
  getFileInfo fileIndex' target false
  = Ok (Some (File (mount_FileInfo tarInfo))) /\
  getFileInfo fileIndex' target true
  = Ok (Some (Dir (dict_set "." (File (mount_FileInfo tarInfo)) nested))).
Proof.
  intros path target H1 H2 Hnested Hex H.
  unfold createIndex_member in H. cbv zeta in H. fold path in H.
  assert (Hloaded : indexIsLoaded nested = true)
    by (destruct nested; [congruence|reflexivity]).
  rewrite Hloaded, Hex in H. cbn [rbind] in H.
  assert (Ht : (if negb taken then strip_tar_suffix path else path) = target)
    by (unfold target; destruct taken; reflexivity).
  rewrite Ht in H.
  destruct (exists_ fileIndex target) as [e|e]; [|discriminate].
  cbn [rbind] in H.
  apply (setDirInfo_lookup _ _ _ _ _) in H; [exact H| |].
  - unfold target. destruct taken.
    + unfold path. rewrite normpath_idempotent. exact H1.
    + apply (exists_false_not_root _ _ Hex).
  - unfold target. destruct taken.
    + unfold path. rewrite normpath_idempotent. exact H2.
    + apply (exists_false_not_root _ _ Hex).
Qed.

Lemma self_entries_ok_Dir d :
  self_entries_ok (Dir d) <->
  (forall v, dict_get "." d = Some v -> exists fi, v = File fi) /\
  Forall (fun kv => self_entries_ok (snd kv)) d.
Proof.
  assert (H : forall l,
             (fix all (l : list (string * node)) : Prop :=
                match l with
                | [] => True
                | (_, v) :: rest => self_entries_ok v /\ all rest
                end) l <-> Forall (fun kv => self_entries_ok (snd kv)) l).
  { induction l as [|[k v] rest IH]; simpl.
    - split; [constructor|trivial].
    - rewrite IH. split.
      + intros [? ?]. constructor; assumption.
      + intros HF. inversion HF. tauto. }
  simpl. rewrite H. tauto.
Qed.

Lemma unique_keys_items_Forall (l : list (string * node)) :
  unique_keys_items l <-> Forall (fun kv => unique_keys (snd kv)) l.
Proof.
  induction l as [|[k v] rest IH]; simpl.
  - split; [constructor|trivial].
  - rewrite IH. split.
    + intros [? ?]. constructor; assumption.
    + intros HF. inversion HF. tauto.
Qed.

Lemma in_keys_dict_set (x key : string) (v : node) (d : dict) :
  In x (keys (dict_set key v d)) -> x = key \/ In x (keys d).
Proof.
  induction d as [|[k w] rest IH]; simpl.
  - intros [<-|[]]. auto.
  - destruct (String.eqb_spec key k) as [->|Hne]; simpl; [tauto|].
    intros [<-|Hin]; [tauto|]. destruct (IH Hin); tauto.
Qed.

Lemma NoDup_keys_dict_set (key : string) (v : node) (d : dict) :
  NoDup (keys d) -> NoDup (keys (dict_set key v d)).
Proof.
  induction d as [|[k w] rest IH]; simpl; intros Hnd.
  - constructor; [intros []|constructor].
  - inversion Hnd as [|? ? Hk Hrest]; subst.
    destruct (String.eqb_spec key k) as [->|Hne]; simpl.
    + constructor; assumption.
    + constructor; [|apply IH; assumption].
      intros Hin. apply in_keys_dict_set in Hin. destruct Hin; [congruence|tauto].
Qed.

Lemma Forall_dict_set (P : string * node -> Prop) (key : string) (v : node)
  (d : dict) :
  (forall k, P (k, v)) -> Forall P d -> Forall P (dict_set key v d).
Proof.
  intros Hv. induction d as [|[k w] rest IH]; simpl; intros Hall.
  - repeat constructor. apply Hv.
  - inversion Hall; subst.
    destruct (String.eqb key k); constructor; auto.
Qed.

Lemma index_ok_nil : index_ok (Dir []).
Proof.
  split; [apply unique_keys_Dir; split; [constructor|exact I]|].
  apply self_entries_ok_Dir. split; [discriminate|constructor].
Qed.

Lemma index_ok_File fi : index_ok (File fi).
Proof. split; exact I. Qed.

Lemma index_ok_get (name : string) (d : dict) (v : node) :
  index_ok (Dir d) -> dict_get name d = Some v -> index_ok v.
Proof.
  intros [Hu Hs] Hget. split.
  - eapply unique_keys_get; eassumption.
  - eapply self_entries_ok_get; eassumption.
Qed.

Lemma index_ok_set (key : string) (v : node) (d : dict) :
  index_ok (Dir d) -> index_ok v ->
  (key = "." -> exists fi, v = File fi) ->
  index_ok (Dir (dict_set key v d)).
Proof.
  intros [Hu Hs] [Huv Hsv] Hdot. split.
  - apply unique_keys_Dir in Hu. destruct Hu as [Hnd Hit].
    apply unique_keys_Dir. split; [apply NoDup_keys_dict_set; assumption|].
    apply unique_keys_items_Forall. apply unique_keys_items_Forall in Hit.
    apply Forall_dict_set; [intros; assumption|assumption].
  - apply self_entries_ok_Dir in Hs. destruct Hs as [Hself Hall].
    apply self_entries_ok_Dir. split.
    + intros w. destruct (String.eqb_spec "." key) as [<-|Hne].
      * rewrite dict_get_set_same. intros [= <-]. auto.
      * rewrite dict_get_set_other by assumption. apply Hself.
    + apply Forall_dict_set; [intros; assumption|assumption].
Qed.

Lemma descend_index_ok (names : list string) (f : dict -> dict) (p p' : node) :
  Forall (fun c => c <> ".") names ->
  (forall d, index_ok (Dir d) -> index_ok (Dir (f d))) ->
  index_ok p -> descend names f p = Ok p' -> index_ok p'.
Proof.
  intros Hnames Hf. revert p p'.
  induction names as [|name rest IH]; intros p p' Hp H; simpl in H.
  - destruct p as [fi|d]; [discriminate|]. injection H as <-. auto.
  - inversion Hnames as [|? ? Hname Hrest]; subst.
    destruct (String.eqb name ""); [eapply IH; eassumption|].
    destruct p as [fi|d]; [discriminate|].
    destruct (descend rest f _) as [child'|e] eqn:Hd; [|discriminate].
    injection H as <-.
    apply index_ok_set; [assumption| |congruence].
    eapply (IH Hrest); [|exact Hd].
    destruct (dict_get name d) as [v|] eqn:E.
    + eapply index_ok_get; eassumption.
    + apply index_ok_nil.
Qed.

Lemma descend_root_index_ok (names : list string) (f : dict -> dict)
  (fileIndex fileIndex' : dict) :
  Forall (fun c => c <> ".") names ->
  (forall d, index_ok (Dir d) -> index_ok (Dir (f d))) ->
  index_ok (Dir fileIndex) ->
  descend_root names f fileIndex = Ok fileIndex' -> index_ok (Dir fileIndex').
Proof.
  intros Hn Hf Hok H. apply descend_root_Ok in H.
  eapply descend_index_ok; eassumption.
Qed.

Lemma Forall_removelast {A} (P : A -> Prop) (l : list A) :
  Forall P l -> Forall P (removelast l).
Proof.
  intros H. destruct l as [|a l'] using rev_ind; [constructor|].
  rewrite removelast_last. apply Forall_app in H. apply H.
Qed.

Lemma Forall_last {A} (P : A -> Prop) (l : list A) (dflt : A) :
  l <> [] -> Forall P l -> P (last l dflt).
Proof.
  intros Hne H. destruct l as [|a l'] using rev_ind; [congruence|].
  rewrite last_last. apply Forall_app in H. destruct H as [_ H].
  inversion H. assumption.
Qed.

(** The names of an absolute path: none is ["."]. *)
Lemma absolute_names_no_dot (path : string) :
  startswith path "/" = true ->
  Forall (fun c => c <> ".") (split sep (normpath path)) /\
  Forall (fun c => c <> ".") (split sep (strip sep (normpath path))).
Proof.
  intros Habs.
  destruct (split_normpath path)
    as [(Hrel & _)|(k & comps & Hp & _ & _ & -> & ->)]; [congruence|].
  assert (Hc : Forall (fun c => c <> ".")
                      (match comps with [] => [""] | _ :: _ => comps end)).
  { destruct comps as [|c rest]; [repeat constructor; discriminate|].
    eapply Forall_impl; [|exact Hp]. intros x (_ & Hx & _). exact Hx. }
  split; [|exact Hc]. apply Forall_app. split; [|exact Hc].
  clear. induction k; simpl; constructor; [discriminate|assumption].
Qed.

Lemma setFileInfo_index_ok (fileIndex fileIndex' : dict) (path : string)
  (fileInfo : FileInfo) :
  index_ok (Dir fileIndex) ->
  setFileInfo fileIndex path fileInfo = Ok fileIndex' ->
  index_ok (Dir fileIndex').
Proof.
  intros Hok H. unfold setFileInfo in H. cbv zeta in H.
  destruct (split_normpath path)
    as [(_ & Hs & _)|(k & comps & Hp & _ & _ & Hs & _)]; rewrite Hs in H.
  - simpl in H. injection H as <-.
    apply index_ok_set; [assumption|apply index_ok_File|eauto].
  - assert (Hc : Forall (fun c => c <> ".")
                        (repeat "" k
                         ++ match comps with [] => [""] | _ :: _ => comps end)).
    { apply Forall_app. split.
      - clear. induction k; simpl; constructor; [discriminate|assumption].
      - destruct comps as [|c rest]; [repeat constructor; discriminate|].
        eapply Forall_impl; [|exact Hp]. intros x (_ & Hx & _). exact Hx. }
    eapply descend_root_index_ok; [| |exact Hok|exact H].
    + apply Forall_removelast. exact Hc.
    + intros d Hd. apply index_ok_set; [assumption|apply index_ok_File|eauto].
Qed.

Lemma setDirInfo_index_ok (fileIndex fileIndex' : dict) (path : string)
  (dirInfo : FileInfo) (dirContents : dict) :
  startswith path "/" = true ->
  index_ok (Dir fileIndex) -> index_ok (Dir dirContents) ->
  setDirInfo fileIndex path dirInfo dirContents = Ok fileIndex' ->
  index_ok (Dir fileIndex').
Proof.
  intros Habs Hok Hc H. unfold setDirInfo in H. cbv zeta in H.
  destruct (absolute_names_no_dot path Habs) as [_ Hnames].
  eapply descend_root_index_ok; [| |exact Hok|exact H].
  - apply Forall_removelast. exact Hnames.
  - intros d Hd. apply index_ok_set; [assumption| |].
    + apply index_ok_set; [assumption|apply index_ok_File|eauto].
    + intros E. exfalso.
      apply (Forall_last _ _ "" (split_not_nil _ _) Hnames). exact E.
Qed.

Lemma normpath_absolute (path : string) :
  startswith path "/" = true -> startswith (normpath path) "/" = true.
Proof.
  intros Habs.
  destruct (normpath_shape path) as (k & comps & _ & _ & Hk & Hk2 & ->).
  apply Hk in Habs. destruct k as [|[|[|k]]]; [lia| | |lia].
  - change (startswith (String "/" (String.concat "/" comps)) "/" = true).
    rewrite startswith_cons, startswith_nil. reflexivity.
  - change (startswith (String "/" (String "/" (String.concat "/" comps))) "/"
            = true).
    rewrite startswith_cons, startswith_nil. reflexivity.
Qed.

Lemma substring_0_cons (n : nat) (a : ascii) (s : string) :
  substring 0 (S n) (String a s) = String a (substring 0 n s).
Proof. reflexivity. Qed.

Lemma strip_tar_suffix_absolute (path : string) :
  startswith path "/" = true -> startswith (strip_tar_suffix path) "/" = true.
Proof.
  intros Habs. unfold strip_tar_suffix.
  destruct (endswith path ".tar") eqn:E; [|assumption].
  destruct path as [|a rest]; [discriminate|].
  rewrite startswith_cons in Habs. apply andb_prop in Habs.
  destruct Habs as [Ha _]. apply Ascii.eqb_eq in Ha. subst a.
  unfold endswith in E. apply andb_prop in E. destruct E as [Hlen Heq].
  apply Nat.leb_le in Hlen. cbn [String.length] in *.
  destruct (String.length rest) as [|[|[|[|n]]]] eqn:El.
  - lia.
  - lia.
  - lia.
  - exfalso. simpl in Heq. destruct rest as [|b rest']; [discriminate|].
    simpl in Heq. discriminate.
  - replace (S (S (S (S (S n)))) - 4)%nat with (S n) by lia.
    rewrite substring_0_cons, startswith_cons, startswith_nil. reflexivity.
Qed.

Lemma startswith_slash_app (name : string) :
  startswith ("/" ++ name) "/" = true.
Proof.
  change ("/" ++ name) with (String "/" name).
  rewrite startswith_cons, startswith_nil. reflexivity.
Qed.

Lemma createIndex_member_index_ok (fileIndex fileIndex' : dict)
  (tarInfo : TarInfo) (indexedTar : option dict) :
  index_ok (Dir fileIndex) ->
  (forall nested, indexedTar = Some nested -> index_ok (Dir nested)) ->
  createIndex_member fileIndex tarInfo indexedTar = Ok fileIndex' ->
  index_ok (Dir fileIndex').
Proof.
  intros Hok Hnested H. unfold createIndex_member in H. cbv zeta in H.
  assert (Habs : startswith (normpath ("/" ++ ti_name tarInfo)) "/" = true)
    by (apply normpath_absolute, startswith_slash_app).
  set (path := normpath ("/" ++ ti_name tarInfo)) in *.
  destruct (match indexedTar with
            | Some nested => if indexIsLoaded nested then Some nested else None
            | None => None
            end) as [nested|] eqn:En.
  - assert (Hn : index_ok (Dir nested)).
    { destruct indexedTar as [n|]; [|discriminate]. apply Hnested.
      destruct (indexIsLoaded n); congruence. }
    destruct (exists_ fileIndex (strip_tar_suffix path)) as [e|e];
      [|discriminate]. cbn [rbind] in H.
    destruct (exists_ fileIndex _) as [e'|e']; [|discriminate].
    cbn [rbind] in H.
    eapply setDirInfo_index_ok; [|exact Hok|exact Hn|exact H].
    destruct e; cbn [negb]; [assumption|].
    apply strip_tar_suffix_absolute. assumption.
  - destruct (String.eqb path "/"); cbn [negb] in H; [injection H as <-; assumption|].
    destruct (exists_ fileIndex path) as [e|e]; [|discriminate].
    cbn [rbind] in H.
    match type of H with
    | rbind ?r _ = _ => destruct r as [fi|ex]; [|discriminate]
    end.
    cbn [rbind] in H.
    destruct (ti_isdir tarInfo).
    + eapply setDirInfo_index_ok; [exact Habs|exact Hok|apply index_ok_nil|exact H].
    + eapply setFileInfo_index_ok; [exact Hok|exact H].
Qed.

Lemma createIndex_flat_index_ok (members : list TarInfo)
  (fileIndex fileIndex' : dict) :
  index_ok (Dir fileIndex) ->
  createIndex_flat fileIndex members = Ok fileIndex' ->
  index_ok (Dir fileIndex').
Proof.
  revert fileIndex. induction members as [|m rest IH]; intros fileIndex Hok H;
    simpl in H.
  - injection H as <-. assumption.
  - destruct (createIndex_member fileIndex m None) as [idx|e] eqn:Em;
      [|discriminate].
    cbn [rbind] in H. eapply IH; [|exact H].
    eapply createIndex_member_index_ok; [exact Hok| |exact Em]. discriminate.
Qed.

Lemma createIndex_loop_index_ok (mountRecursively : bool)
  (members : list Member) (fileIndex fileIndex' : dict) :
  index_ok (Dir fileIndex) ->
  createIndex_loop mountRecursively fileIndex members = Ok fileIndex' ->
  index_ok (Dir fileIndex').
Proof.
  revert fileIndex. induction members as [|m rest IH]; intros fileIndex Hok H;
    simpl in H.
  - injection H as <-. assumption.
  - match type of H with
    | rbind ?r _ = _ => destruct r as [indexedTar|e] eqn:Et; [|discriminate]
    end.
    cbn [rbind] in H.
    destruct (createIndex_member fileIndex (info m) indexedTar) as [idx|e] eqn:Em;
      [|discriminate].
    cbn [rbind] in H. eapply IH; [|exact H].
    eapply createIndex_member_index_ok; [exact Hok| |exact Em].
    intros nested ->.
    destruct (mountRecursively && ti_isfile (info m)
              && endswith (ti_name (info m)) ".tar"); [|discriminate].
    destruct (payload m) as [inner|e]; [|discriminate]. cbn [rbind] in Et.
    destruct (createIndex_flat [] inner) as [n|e] eqn:Ef; [|discriminate].
    cbn [rbind] in Et. injection Et as <-.
    eapply createIndex_flat_index_ok; [apply index_ok_nil|exact Ef].
Qed.

(** X19: in every index [createIndex] builds, and in the index
    [TarMount.__init__] makes of it, each folder has each key once and the
    ["."] entry of each folder is a record. *)
Theorem createIndex_index_ok (mountRecursively : bool) (members : list Member)
  (fileIndex : dict) (tarStats : TarStats) :
  createIndex mountRecursively members = Ok fileIndex ->
  unique_keys (Dir fileIndex) /\ self_entries_ok (Dir fileIndex) /\
  unique_keys (Dir (TarMount_init fileIndex tarStats)) /\
  self_entries_ok (Dir (TarMount_init fileIndex tarStats)).
Proof.
  intros H. unfold createIndex in H.
  pose proof (createIndex_loop_index_ok _ _ _ _ index_ok_nil H) as Hok.
  assert (Hm : index_ok (Dir (TarMount_init fileIndex tarStats))).
  { unfold TarMount_init. apply index_ok_set; [assumption|apply index_ok_File|eauto]. }
  destruct Hok, Hm. tauto.
Qed.

Lemma land_511_range (mode : Z) : 0 <= Z.land mode 511 < 512.
Proof.
  change 511 with (Z.ones 9). rewrite Z.land_ones by lia.
  apply Z.mod_pos_bound. reflexivity.
Qed.

Lemma below_512_cases (P : Z -> bool) :
  forallb P (map Z.of_nat (seq 0 512)) = true ->
  forall m, 0 <= m < 512 -> P m = true.
Proof.
  intros H m Hm. rewrite forallb_forall in H. apply H.
  apply in_map_iff. exists (Z.to_nat m). split; [lia|].
  apply in_seq. lia.
Qed.

(** X20: the mode of a mount point is [S_IFDIR | ( mode & 0o777 ) |
    ( ( mode & 0o444 ) >> 2 )]: a folder that keeps the nine permission bits
    and is searchable by whoever may read it; the bits above are dropped. *)
Theorem mount_mode_closed_form (mode : Z) :
  mount_mode mode
  = Z.lor S_IFDIR (Z.lor (Z.land mode 511)
                         (Z.shiftr (Z.land mode 292) 2)) /\
  Z.land (mount_mode mode) 61440 = S_IFDIR /\
  Z.land (mount_mode mode) 438 = Z.land mode 438.
Proof.
  assert (H292 : Z.land mode 292 = Z.land (Z.land mode 511) 292)
    by (rewrite <- Z.land_assoc; reflexivity).
  assert (H438 : Z.land mode 438 = Z.land (Z.land mode 511) 438)
    by (rewrite <- Z.land_assoc; reflexivity).
  rewrite H292, H438. unfold mount_mode.
  pose proof (land_511_range mode) as Hr.
  generalize dependent (Z.land mode 511). intros m _ _ Hr.
  pose proof (below_512_cases
    (fun m =>
       let mm := mount_mode m in
       Z.eqb mm (Z.lor S_IFDIR (Z.lor m (Z.shiftr (Z.land m 292) 2)))
       && Z.eqb (Z.land mm 61440) S_IFDIR
       && Z.eqb (Z.land mm 438) (Z.land m 438))
    ltac:(vm_compute; reflexivity) m Hr) as H.
  cbv beta zeta in H. apply andb_prop in H. destruct H as [H H3].
  apply andb_prop in H. destruct H as [H1 H2].
  apply Z.eqb_eq in H1, H2, H3.
  assert (Hmm : mount_mode m
    = (let mountMode := Z.lor m S_IFDIR in
       let mountMode := if negb (Z.eqb (Z.land mountMode S_IRUSR) 0)
                        then Z.lor mountMode S_IXUSR else mountMode in
       let mountMode := if negb (Z.eqb (Z.land mountMode S_IRGRP) 0)
                        then Z.lor mountMode S_IXGRP else mountMode in
       if negb (Z.eqb (Z.land mountMode S_IROTH) 0)
       then Z.lor mountMode S_IXOTH else mountMode)).
  { unfold mount_mode.
    replace (Z.land m 511) with m; [reflexivity|].
    change 511 with (Z.ones 9). rewrite Z.land_ones by lia.
    symmetry. apply Z.mod_small. exact Hr. }
  cbv zeta in Hmm. rewrite <- Hmm. auto.
Qed.

Lemma split_app_sep (c : ascii) (a b : string) :
  split c (a ++ String c b) = (split c a ++ split c b)%list.
Proof.
  induction a as [|x a' IH]; simpl.
  - rewrite Ascii.eqb_refl. reflexivity.
  - rewrite IH. destruct (Ascii.eqb x c); [reflexivity|].
    destruct (split c a') as [|h t] eqn:E; [|reflexivity].
    exfalso. exact (split_not_nil _ _ E).
Qed.

Lemma skipn_app_all {A} (l l' : list A) :
  skipn (List.length (l ++ l') - List.length l') (l ++ l') = l'.
Proof.
  rewrite length_app. replace (List.length l + List.length l' - List.length l')%nat
    with (List.length l + 0)%nat by lia.
  rewrite skipn_app, Nat.add_0_r, skipn_all.
  replace (List.length l - List.length l)%nat with 0%nat by lia. reflexivity.
Qed.

Lemma str_in_In (x : string) (l : list string) :
  str_in x l = true <-> In x l.
Proof.
  unfold str_in. rewrite existsb_exists. split.
  - intros (y & Hin & E). apply String.eqb_eq in E. subst. assumption.
  - intros Hin. exists x. split; [assumption|apply String.eqb_refl].
Qed.

(** A name whose last piece is a backend is a supported extension only as
    that backend with a compression in front of nothing: the last piece of
    a supported two-piece extension is a compression. *)
Lemma backend_last_piece (pre backend : string) :
  In backend availableSerializationBackends ->
  In (pre ++ String "."%char backend) supportedIndexExtensions ->
  False.
Proof.
  intros Hb Hin.
  assert (Hl : forall e, In e supportedIndexExtensions ->
                 ~ In (last (split "."%char e) "") availableSerializationBackends
                 \/ List.length (split "."%char e) = 1%nat).
  { intros e He. vm_compute in He.
    repeat (destruct He as [<-|He];
            [first [right; reflexivity
                   |left; vm_compute; intuition discriminate]|]).
    destruct He. }
  destruct (Hl _ Hin) as [Hn|Hone].
  - apply Hn. rewrite split_app_sep.
    rewrite last_app_nonempty by apply split_not_nil.
    assert (Hs : split "."%char backend = [backend]).
    { vm_compute in Hb.
      repeat (destruct Hb as [<-|Hb]; [reflexivity|]). destruct Hb. }
    rewrite Hs. simpl. exact Hb.
  - rewrite split_app_sep, length_app in Hone.
    pose proof (split_not_nil "."%char pre).
    pose proof (split_not_nil "."%char backend).
    destruct (split "."%char pre); [congruence|].
    destruct (split "."%char backend); [congruence|]. simpl in Hone. lia.
Qed.

(** X23: from each of the names [__init__] tries and writes the index
    under, [indexPath + "." + serializationBackend],
    [serializationBackendFromFileName] recovers the backend [__init__]
    chose, whatever the path of the archive; so it does from any path with
    a supported extension. *)
Theorem backend_from_index_file_name (cacheFolder pathToTar : string)
  (serializationBackend : option string) :
  (forall name,
     In name (indexFileNames cacheFolder pathToTar serializationBackend) ->
     serializationBackendFromFileName name
     = Some (chosen_backend serializationBackend)) /\
  (forall indexPath extension, In extension supportedIndexExtensions ->
     serializationBackendFromFileName (indexPath ++ "." ++ extension)
     = Some extension).
Proof.
  assert (Hext : forall indexPath extension,
     In extension supportedIndexExtensions ->
     serializationBackendFromFileName (indexPath ++ "." ++ extension)
     = Some extension).
  { intros indexPath extension Hin. unfold serializationBackendFromFileName.
    cbv zeta.
    change (indexPath ++ "." ++ extension)
      with (indexPath ++ String "."%char extension).
    rewrite split_app_sep.
    pose proof (split_not_nil "."%char indexPath) as Hne.
    set (pieces := split "."%char indexPath) in *.
    assert (Hcases :
      (split "."%char extension = [extension] /\
       In extension availableSerializationBackends) \/
      (exists b c, split "."%char extension = [b; c] /\
                   extension = b ++ String "."%char c)).
    { vm_compute in Hin.
      repeat (destruct Hin as [<-|Hin];
              [first [left; split; [reflexivity|vm_compute; tauto]
                     |right; eexists; eexists; split; reflexivity]|]).
      destruct Hin. }
    assert (Hsup : str_in extension supportedIndexExtensions = true)
      by (apply str_in_In; assumption).
    destruct Hcases as [(Hs & Hb)|(b & c & Hs & Hbc)]; rewrite Hs.
    - rewrite last_last.
      destruct ((2 <? List.length (pieces ++ [extension]))%nat
                && str_in _ supportedIndexExtensions) eqn:E.
      + exfalso. apply andb_prop in E. destruct E as [Hlen E].
        apply str_in_In in E.
        destruct pieces as [|z pieces'] using rev_ind; [congruence|].
        clear IHpieces'. rewrite <- app_assoc in E. cbn [app] in E.
        replace (List.length (pieces' ++ [z; extension]) - 2)%nat
          with (List.length (pieces' ++ [z; extension])
                - List.length [z; extension])%nat in E by reflexivity.
        rewrite skipn_app_all in E.
        apply (backend_last_piece z extension Hb). exact E.
      + rewrite Hsup. reflexivity.
    - replace (List.length (pieces ++ [b; c]) - 2)%nat
        with (List.length (pieces ++ [b; c]) - List.length [b; c])%nat
        by reflexivity.
      rewrite skipn_app_all.
      change (String.concat "." [b; c]) with (b ++ String "."%char c).
      rewrite <- Hbc, Hsup, andb_true_r.
      replace (2 <? List.length (pieces ++ [b; c]))%nat with true; [reflexivity|].
      symmetry. apply Nat.ltb_lt. rewrite length_app.
      destruct pieces; [congruence|]. simpl. lia. }
  split; [|exact Hext].
  intros name Hin. unfold indexFileNames in Hin. apply in_map_iff in Hin.
  destruct Hin as (indexPath & <- & _).
  apply Hext. unfold chosen_backend.
  destruct serializationBackend as [b|]; [|vm_compute; tauto].
  destruct (str_in b supportedIndexExtensions) eqn:E.
  - apply str_in_In. exact E.
  - vm_compute. tauto.
Qed.

(** X13: after [setFileInfo( path, fileInfo )] for a path other than the
    root, [getFileInfo( path )] returns [fileInfo], with and without
    [listDir]; [isDir( path )] is false and [exists( path )] is true. *)
Theorem setFileInfo_then_getFileInfo (fileIndex fileIndex' : dict)
  (path : string) (fileInfo : FileInfo) :
  normpath path <> "/" -> normpath path <> "//" ->
  setFileInfo fileIndex path fileInfo = Ok fileIndex' ->
  (forall listDir,
     getFileInfo fileIndex' path listDir = Ok (Some (File fileInfo))) /\
  isDir fileIndex' path = Ok false /\
  exists_ fileIndex' path = Ok true.
Proof.
  intros H1 H2 Hset.
  pose proof (setFileInfo_lookup _ _ _ _ true H1 H2 Hset) as Ht.
  split; [intros listDir; apply (setFileInfo_lookup _ _ _ _ _ H1 H2 Hset)|].
  split.
  - unfold isDir. rewrite Ht. reflexivity.
  - rewrite exists_found, Ht. reflexivity.
Qed.

(** X14: after [setDirInfo( path, dirInfo, dirContents )] for a path other
    than the root, [getFileInfo( path )] returns [dirInfo], and with
    [listDir] the folder: [dirContents] with [dirInfo] as its ["."] entry,
    whatever the path held before; [isDir] and [exists] are true. *)
Theorem setDirInfo_then_getFileInfo (fileIndex fileIndex' : dict)
  (path : string) (dirInfo : FileInfo) (dirContents : dict) :
  normpath path <> "/" -> normpath path <> "//" ->
  setDirInfo fileIndex path dirInfo dirContents = Ok fileIndex' ->
  getFileInfo fileIndex' path false = Ok (Some (File dirInfo)) /\
  getFileInfo fileIndex' path true
  = Ok (Some (Dir (dict_set "." (File dirInfo) dirContents))) /\
  isDir fileIndex' path = Ok true /\
  exists_ fileIndex' path = Ok true.
Proof.
  intros H1 H2 Hset.
  destruct (setDirInfo_lookup _ _ _ _ _ H1 H2 Hset) as [Hf Ht].
  split; [exact Hf|]. split; [exact Ht|]. split.
  - unfold isDir. rewrite Ht. reflexivity.
  - rewrite exists_found, Ht. reflexivity.
Qed.

(** X15: [exists( path )] tells whether [getFileInfo( path, listDir = True )]
    finds something, a record or a folder, and raises when that lookup
    raises. *)
Theorem exists_iff_lookup_finds (fileIndex : dict) (path : string) (b : bool) :
  exists_ fileIndex path = Ok b <->
  exists v, getFileInfo fileIndex path true = Ok v /\
            b = match v with Some _ => true | None => false end.
Proof.
  rewrite exists_found.
  destruct (getFileInfo fileIndex path true) as [v|e]; simpl.
  - split.
    + intros [= <-]. eauto.
    + intros (v' & [= <-] & ->). reflexivity.
  - split; [discriminate|]. intros (v' & Hv & _). discriminate.
Qed.

(** X16: a member whose path is new to the index is found afterwards at
    ["/" + name] with the record [createIndex] made of its header; a folder
    member is found as a folder holding that record alone; and [getattr]
    reports the member's size and owner, its mode without the write bits,
    and as [st_mtime] the member's time truncated to an integer, [int] of
    it, when the time is finite; for the time [nan] it raises
    [ValueError], and for an infinite one [OverflowError]. *)
Theorem createIndex_member_new_path (fileIndex fileIndex' : dict)
  (tarInfo : TarInfo) :
  let path := "/" ++ ti_name tarInfo in
  normpath path <> "/" -> normpath path <> "//" ->
  exists_ fileIndex path = Ok false ->
  createIndex_member fileIndex tarInfo None = Ok fileIndex' ->
  getFileInfo fileIndex' path false = Ok (Some (File (scan_FileInfo tarInfo))) /\
  getFileInfo fileIndex' path true
  = Ok (Some (if ti_isdir tarInfo
              then Dir [(".", File (scan_FileInfo tarInfo))]
              else File (scan_FileInfo tarInfo))) /\
  match ti_mtime tarInfo with
  | Finite q =>
      getattr fileIndex' path
      = Ok (mkStatDict (ti_size tarInfo) (int_of_Q q)
              (Z.land (scan_mode tarInfo) (Z.lnot write_bits))
              (ti_uid tarInfo) (ti_gid tarInfo) 2) /\
      truncation_of (int_of_Q q) q
  | NaN => getattr fileIndex' path = Raise ValueError
  | PosInf | NegInf => getattr fileIndex' path = Raise OverflowError
  end.
Proof.
  intros path H1 H2 Hex H.
  destruct (createIndex_member_new_lookup _ _ _ H1 H2 Hex H) as [Hf Ht].
  fold path in Hf, Ht. split; [exact Hf|]. split; [exact Ht|].
  unfold getattr. rewrite Hf. cbn [rbind scan_FileInfo mtime].
  destruct (ti_mtime tarInfo) as [q| | |]; try reflexivity.
  split; [reflexivity|apply int_of_Q_truncates].
Qed.

(** X21: for a path that names the root, [getattr] on the index
    [TarMount.__init__] prepared reports the archive file itself as a
    folder: its size, owner and time, and the mode of a mount point without
    the write bits. *)
Theorem getattr_mount_point (fileIndex : dict) (tarStats : TarStats)
  (path : string) :
  normpath path = "/" \/ normpath path = "//" ->
  getattr (TarMount_init fileIndex tarStats) path
  = Ok (mkStatDict (ts_size tarStats) (int_of_Q (ts_mtime tarStats))
          (Z.land (mount_mode (ts_mode tarStats)) (Z.lnot write_bits))
          (ts_uid tarStats) (ts_gid tarStats) 2).
Proof.
  intros Hroot. unfold getattr, getFileInfo.
  assert (Hw : walk (split sep (normpath path))
                    (Dir (TarMount_init fileIndex tarStats))
               = Ok (Some (Dir (TarMount_init fileIndex tarStats))))
    by (destruct Hroot as [-> | ->]; reflexivity).
  rewrite Hw. cbn [rbind negb]. unfold TarMount_init.
  rewrite dict_get_set_same. reflexivity.
Qed.

(** X22: [TarMount.read] of a member [createIndex] has just stored, for a
    position (the member's data offset plus [offset]) within the archive
    file and a [length] from 0 to the size of the file, returns the bytes
    of the file from that position on, [length] of them or what is left of
    the file, whatever the member's size is; a position before the start
    of the file that an [off_t] holds raises [OSError]. *)
Theorem read_member_data (fileIndex fileIndex' : dict) (tarInfo : TarInfo)
  (tarFile : JoinedFileMount.OpenFile) (length offset_arg : Z) :
  let path := "/" ++ ti_name tarInfo in
  let pos := ti_offset_data tarInfo + offset_arg in
  normpath path <> "/" -> normpath path <> "//" ->
  exists_ fileIndex path = Ok false ->
  createIndex_member fileIndex tarInfo None = Ok fileIndex' ->
  len (JoinedFileMount.f_data tarFile) < 2 ^ 63 ->
  (- 2 ^ 63 <= pos < 0 ->
   TarMount_read fileIndex' tarFile path length offset_arg
   = (Raise OSError, tarFile)) /\
  (0 <= pos <= len (JoinedFileMount.f_data tarFile) ->
   0 <= length <= len (JoinedFileMount.f_data tarFile) ->
   let data := slice (JoinedFileMount.f_data tarFile) pos (pos + length) in
   TarMount_read fileIndex' tarFile path length offset_arg
   = (Ok data,
      JoinedFileMount.mkOpenFile (JoinedFileMount.f_data tarFile)
                                 (pos + len data))).
Proof.
  intros path pos H1 H2 Hex H Hsize.
  destruct (createIndex_member_new_lookup _ _ _ H1 H2 Hex H) as [Hf _].
  fold path in Hf. unfold TarMount_read. rewrite Hf.
  change (offset (scan_FileInfo tarInfo) + offset_arg) with pos.
  assert (Hfits : forall n, - 2 ^ 63 <= n < 2 ^ 63 -> fits_int64 n = true).
  { intros n Hn. unfold fits_int64. apply andb_true_intro. split.
    - apply Z.leb_le. lia.
    - apply Z.ltb_lt. lia. }
  split.
  - intros Hneg. rewrite Hfits by lia. cbn [negb].
    destruct (Z.ltb_spec pos 0); [reflexivity|lia].
  - intros Hpos Hlen. rewrite (Hfits pos) by lia. cbn [negb].
    destruct (Z.ltb_spec pos 0); [lia|].
    rewrite (Hfits length) by lia. cbn [negb].
    unfold JoinedFileMount.file_read, JoinedFileMount.file_seek.
    cbn [JoinedFileMount.f_data JoinedFileMount.f_pos].
    destruct (Z.ltb_spec length (-1)); [lia|].
    destruct (Z.ltb_spec length 0); [lia|].
    unfold slice. replace (pos + length - pos) with length by lia.
    reflexivity.
Qed.

Lemma setFileInfo_then_getFileInfo_witness :
  (forall listDir,
     getFileInfo index_S1_file "/d/new.txt" listDir
     = Ok (Some (File record_new))) /\
  isDir index_S1_file "/d/new.txt" = Ok false /\
  exists_ index_S1_file "/d/new.txt" = Ok true.
Proof.
  apply (setFileInfo_then_getFileInfo index_S1 index_S1_file "/d/new.txt"
           record_new).
  - vm_compute. discriminate.
  - vm_compute. discriminate.
  - vm_compute. reflexivity.
Defined.

Lemma setDirInfo_then_getFileInfo_witness :
  getFileInfo index_S1_dir "/d/sub/" false = Ok (Some (File record_sub)) /\
  getFileInfo index_S1_dir "/d/sub/" true
  = Ok (Some (Dir (dict_set "." (File record_sub) []))) /\
  isDir index_S1_dir "/d/sub/" = Ok true /\
  exists_ index_S1_dir "/d/sub/" = Ok true.
Proof.
  apply (setDirInfo_then_getFileInfo index_S1 index_S1_dir "/d/sub/"
           record_sub []).
  - vm_compute. discriminate.
  - vm_compute. discriminate.
  - vm_compute. reflexivity.
Defined.

Lemma createIndex_member_new_path_witness :
  getFileInfo index_a "/a.txt" false
  = Ok (Some (File (scan_FileInfo tarinfo_a))) /\
  getFileInfo index_a "/a.txt" true
  = Ok (Some (File (scan_FileInfo tarinfo_a))) /\
  (getattr index_a "/a.txt" = Ok (mkStatDict 4 0 33060 0 0 2) /\
   truncation_of 0 0).
Proof.
  apply (createIndex_member_new_path [] index_a tarinfo_a).
  - vm_compute. discriminate.
  - vm_compute. discriminate.
  - vm_compute. reflexivity.
  - vm_compute. reflexivity.
Defined.

Lemma createIndex_member_keeps_old_record_witness :
  getFileInfo index_a_again "/a.txt" false
  = Ok (Some (File (scan_FileInfo tarinfo_a))) /\
  getFileInfo index_a_again "/a.txt" true
  = Ok (Some (File (scan_FileInfo tarinfo_a))).
Proof.
  apply (createIndex_member_keeps_old_record index_a index_a_again
           tarinfo_a_again (scan_FileInfo tarinfo_a)).
  - vm_compute. discriminate.
  - vm_compute. discriminate.
  - vm_compute. reflexivity.
  - reflexivity.
  - vm_compute. reflexivity.
Defined.

Lemma createIndex_member_mounts_nested_witness :
  getFileInfo index_foo "/foo" false
  = Ok (Some (File (mount_FileInfo tarinfo_foo))) /\
  getFileInfo index_foo "/foo" true
  = Ok (Some (Dir (dict_set "." (File (mount_FileInfo tarinfo_foo)) nested_foo))).
Proof.
  apply (createIndex_member_mounts_nested [] index_foo nested_foo tarinfo_foo
           false).
  - vm_compute. discriminate.
  - vm_compute. discriminate.
  - discriminate.
  - vm_compute. reflexivity.
  - vm_compute. reflexivity.
Defined.

Lemma createIndex_index_ok_witness :
  unique_keys (Dir index_S1) /\ self_entries_ok (Dir index_S1) /\
  unique_keys (Dir (TarMount_init index_S1 stats_S1)) /\
  self_entries_ok (Dir (TarMount_init index_S1 stats_S1)).
Proof.
  apply (createIndex_index_ok false members_S1 index_S1 stats_S1).
  vm_compute. reflexivity.
Defined.

Lemma getattr_mount_point_witness :
  getattr (TarMount_init index_S1 stats_S1) "/d/.."
  = Ok (mkStatDict (ts_size stats_S1) (int_of_Q (ts_mtime stats_S1))
          (Z.land (mount_mode (ts_mode stats_S1)) (Z.lnot write_bits))
          (ts_uid stats_S1) (ts_gid stats_S1) 2).
Proof.
  apply (getattr_mount_point index_S1 stats_S1 "/d/..").
  left. vm_compute. reflexivity.
Defined.

Lemma read_member_data_witness :
  TarMount_read index_small archive_small "/s.txt" 3 0
  = (Ok [x02; x03; x04],
     JoinedFileMount.mkOpenFile (JoinedFileMount.f_data archive_small) 5).
Proof.
  apply (read_member_data [] index_small tarinfo_small archive_small 3 0).
  - vm_compute. discriminate.
  - vm_compute. discriminate.
  - vm_compute. reflexivity.
  - vm_compute. reflexivity.
  - vm_compute. reflexivity.
  - vm_compute. split; discriminate.
  - vm_compute. split; discriminate.
Defined.

Lemma backend_from_index_file_name_witness :
  serializationBackendFromFileName "/home/u/.ratarmount/_data_a.tar.index.custom"
  = Some (chosen_backend (Some "yaml")).
Proof.
  apply (proj1 (backend_from_index_file_name "/home/u/.ratarmount"
                  "/data//a.tar" (Some "yaml"))).
  right. left. vm_compute. reflexivity.
Defined.

Lemma load_ignores_trailing_bytes_witness :
  load sample_codecs (index_bytes_S1 ++ [x03; x00]) = Ok mounted_S1.
Proof.
  apply (load_ignores_trailing_bytes sample_codecs sample_decode_encode
           sample_loads_dumps mounted_S1 index_bytes_S1 [x03; x00]).
  - solve_unique_keys.
  - vm_compute. reflexivity.
Defined.

Lemma dump_injective_witness : mounted_S1 = mounted_S1.
Proof.
  apply (dump_injective sample_codecs sample_decode_encode sample_loads_dumps
           mounted_S1 mounted_S1 index_bytes_S1).
  - solve_unique_keys.
  - solve_unique_keys.
  - vm_compute. reflexivity.
  - vm_compute. reflexivity.
Defined.

Lemma load_accepts_missing_end_tag_witness :
  load sample_codecs (removelast index_bytes_S1) = Ok mounted_S1.
Proof.
  apply (load_accepts_missing_end_tag sample_codecs sample_decode_encode
           sample_loads_dumps mounted_S1 index_bytes_S1).
  - solve_unique_keys.
  - vm_compute. reflexivity.
Defined.

(** ** [createIndex] over a whole archive *)

Lemma walk_nil_dir (names : list string) :
  names <> [] -> no_empty names -> walk names (Dir []) = Ok None.
Proof.
  destruct names as [|n rest]; [congruence|]. intros _ H.
  inversion H as [|? ? Hn _]; subst. simpl.
  destruct (String.eqb_spec n ""); [congruence|reflexivity].
Qed.

(** The descent goes through when no record is in its way. *)
Lemma descend_succeeds (names : list string) (f : dict -> dict) (p : node) :
  no_empty names ->
  (forall pre suffix, names = (pre ++ suffix)%list ->
     walk pre p = Ok None \/ exists d, walk pre p = Ok (Some (Dir d))) ->
  exists p', descend names f p = Ok p'.
Proof.
  revert p. induction names as [|n rest IH]; intros p Hne Hway.
  - destruct (Hway [] [] eq_refl) as [H|(d & H)]; simpl in H; [discriminate|].
    injection H as ->. simpl. eauto.
  - inversion Hne as [|? ? Hn Hrest]; subst.
    destruct (Hway [] (n :: rest) eq_refl) as [H|(d & H)]; simpl in H;
      [discriminate|]. injection H as ->. simpl.
    destruct (String.eqb_spec n ""); [congruence|].
    destruct (IH (match dict_get n d with Some v => v | None => Dir [] end) Hrest)
      as (child' & Hc).
    + intros pre suffix ->. specialize (Hway (n :: pre) suffix eq_refl).
      simpl in Hway. destruct (String.eqb_spec n ""); [congruence|].
      destruct (dict_get n d) as [c|]; [exact Hway|].
      destruct pre as [|a pre']; [right; eexists; reflexivity|].
      left. apply walk_nil_dir; [discriminate|].
      apply Forall_app in Hrest. apply Hrest.
    + rewrite Hc. simpl. eauto.
Qed.

(** A walk that parts ways with the descent finds what it found before. *)
Lemma descend_walk_diverge (pre : list string) (key : string) (v : node)
  (np : list string) (p p' : node) :
  no_empty pre -> no_empty np ->
  descend pre (dict_set key v) p = Ok p' ->
  diverge np (pre ++ [key]) = true ->
  walk np p' = walk np p.
Proof.
  revert np p p'. induction pre as [|n rest IH]; intros np p p' Hpre Hnp H Hd.
  - simpl in H. destruct p as [fi|d]; [discriminate|]. injection H as <-.
    destruct np as [|a r]; [discriminate|]. simpl in Hd.
    inversion Hnp as [|? ? Ha _]; subst. simpl.
    destruct (String.eqb_spec a ""); [congruence|].
    destruct (String.eqb_spec a key) as [->|Hne].
    + destruct r; discriminate.
    + rewrite dict_get_set_other by assumption. reflexivity.
  - inversion Hpre as [|? ? Hn Hrest]; subst. simpl in H.
    destruct (String.eqb_spec n ""); [congruence|].
    destruct p as [fi|d]; [discriminate|].
    destruct (descend rest _ _) as [child'|e] eqn:Hc; [|discriminate].
    injection H as <-.
    destruct np as [|a r]; [discriminate|].
    inversion Hnp as [|? ? Ha Hr]; subst. simpl in Hd |- *.
    destruct (String.eqb_spec a ""); [congruence|].
    destruct (String.eqb_spec a n) as [->|Hne].
    + rewrite dict_get_set_same.
      rewrite (IH r _ _ Hrest Hr Hc Hd).
      destruct (dict_get n d) as [c|]; [reflexivity|].
      apply walk_nil_dir; [destruct r; [discriminate|discriminate]|assumption].
    + rewrite dict_get_set_other by assumption. reflexivity.
Qed.

(** Above the place of the update the descent leaves folders, and keeps
    the ["."] entry of those that were there. *)
Lemma descend_walk_above (pre : list string) (key : string) (v : node)
  (np : list string) (p p' : node) :
  no_empty pre -> ~ In "." (pre ++ [key]) ->
  descend pre (dict_set key v) p = Ok p' ->
  strictly_above np (pre ++ [key]) = true ->
  exists d', walk np p' = Ok (Some (Dir d')) /\
             forall d, walk np p = Ok (Some (Dir d)) ->
                       dict_get "." d' = dict_get "." d.
Proof.
  revert np p p'. induction pre as [|n rest IH]; intros np p p' Hpre Hdot H Ha.
  - simpl in H. destruct p as [fi|d]; [discriminate|]. injection H as <-.
    destruct np as [|a r].
    + eexists. split; [reflexivity|]. intros d0 [= <-].
      apply dict_get_set_other. intros E. apply Hdot. left. auto.
    + simpl in Ha. apply andb_prop in Ha. destruct Ha as [_ Ha].
      destruct r; discriminate.
  - inversion Hpre as [|? ? Hn Hrest]; subst. simpl in H.
    destruct (String.eqb_spec n ""); [congruence|].
    destruct p as [fi|d]; [discriminate|].
    destruct (descend rest _ _) as [child'|e] eqn:Hc; [|discriminate].
    injection H as <-.
    destruct np as [|a r].
    + eexists. split; [reflexivity|]. intros d0 [= <-].
      apply dict_get_set_other. intros E. apply Hdot. left. auto.
    + simpl in Ha. apply andb_prop in Ha. destruct Ha as [Hab Ha].
      apply String.eqb_eq in Hab. subst a. simpl.
      destruct (String.eqb_spec n ""); [congruence|].
      rewrite dict_get_set_same.
      destruct (IH r _ _ Hrest ltac:(intros Hin; apply Hdot; right; exact Hin)
                  Hc Ha) as (d' & Hw & Hsame).
      exists d'. split; [exact Hw|].
      intros d0 Hd0. apply Hsame.
      destruct (dict_get n d) as [c|]; [exact Hd0|discriminate].
Qed.

(** Below a folder the update has just stored with its own record alone,
    nothing is found. *)
Lemma descend_walk_below (pre : list string) (key : string) (x : node)
  (np : list string) (p p' : node) :
  no_empty (pre ++ [key]) -> no_empty np -> ~ In "." np ->
  descend pre (dict_set key (Dir [(".", x)])) p = Ok p' ->
  strictly_above (pre ++ [key]) np = true ->
  walk np p' = Ok None.
Proof.
  intros Hq Hnp Hdot H Ha.
  assert (Hsplit : exists c r, np = ((pre ++ [key]) ++ c :: r)%list).
  { clear -Ha. revert np Ha. induction (pre ++ [key])%list as [|a l IH];
      intros np Ha.
    - destruct np as [|c r]; [discriminate|]. exists c, r. reflexivity.
    - destruct np as [|b r]; [discriminate|]. simpl in Ha.
      apply andb_prop in Ha. destruct Ha as [Hab Ha].
      apply String.eqb_eq in Hab. subst b.
      destruct (IH r Ha) as (c & r' & ->). exists c, r'. reflexivity. }
  destruct Hsplit as (c & r & ->).
  destruct (descend_walk pre ([key] ++ c :: r) _ _ _ H) as (d & Hw).
  rewrite <- app_assoc, Hw. simpl.
  apply Forall_app in Hq. destruct Hq as [_ Hkey].
  inversion Hkey as [|? ? Hk _]; subst.
  destruct (String.eqb_spec key ""); [congruence|].
  rewrite dict_get_set_same.
  apply Forall_app in Hnp. destruct Hnp as [_ Hc].
  inversion Hc as [|? ? Hc0 _]; subst.
  destruct (String.eqb_spec c ""); [congruence|].
  simpl. destruct (String.eqb_spec c ".") as [->|_]; [|reflexivity].
  exfalso. apply Hdot. apply in_or_app. right. left. reflexivity.
Qed.

(** The names of a path other than the root. *)
Lemma names_of_spec (path : string) :
  normpath path <> "/" -> normpath path <> "//" ->
  names_of path <> [] /\ no_empty (names_of path) /\
  (startswith path "/" = true -> ~ In "." (names_of path)) /\
  exists k, split sep (normpath path) = (repeat "" k ++ names_of path)%list.
Proof.
  intros H1 H2.
  destruct (normpath_names path H1 H2) as (k & names & Hne & Hall & Hp & Hs & Hst).
  unfold names_of. rewrite Hst. split; [assumption|]. split; [assumption|].
  split; [|eauto].
  intros Habs Hin. specialize (Hp Habs). rewrite Forall_forall in Hp.
  destruct (Hp _ Hin) as (_ & Hdot & _). congruence.
Qed.

Lemma names_of_normpath (path : string) :
  names_of (normpath path) = names_of path.
Proof. unfold names_of. rewrite normpath_idempotent. reflexivity. Qed.

Lemma setFileInfo_names (fileIndex : dict) (path : string) (fileInfo : FileInfo) :
  normpath path <> "/" -> normpath path <> "//" ->
  setFileInfo fileIndex path fileInfo
  = descend_root (removelast (names_of path))
                 (dict_set (last (names_of path) "") (File fileInfo)) fileIndex.
Proof.
  intros H1 H2.
  destruct (names_of_spec path H1 H2) as (Hne & _ & _ & k & Hs).
  unfold setFileInfo. cbv zeta. rewrite Hs.
  rewrite last_app_nonempty, removelast_app by assumption.
  unfold descend_root. rewrite descend_skip_empty. reflexivity.
Qed.

Lemma descend_Dir (names : list string) (f : dict -> dict) (p p' : node) :
  descend names f p = Ok p' -> exists d, p' = Dir d.
Proof.
  revert p p'. induction names as [|n rest IH]; intros p p' H; simpl in H.
  - destruct p; [discriminate|]. injection H as <-. eauto.
  - destruct (String.eqb n ""); [eauto|].
    destruct p; [discriminate|].
    destruct (descend rest f _); [|discriminate]. injection H as <-. eauto.
Qed.

Lemma passable_removelast (p : node) (names : list string) :
  names <> [] -> passable p names ->
  forall pre suffix, removelast names = (pre ++ suffix)%list ->
    walk pre p = Ok None \/ exists d, walk pre p = Ok (Some (Dir d)).
Proof.
  intros Hne Hpass pre suffix E.
  destruct (Hpass pre (suffix ++ [last names ""])%list) as [H|(_ & H)].
  - rewrite app_assoc, <- E. apply app_removelast_last. assumption.
  - auto.
  - auto.
Qed.

Lemma passable_fresh (p : node) (names : list string) :
  passable p names -> walk names p = Ok None.
Proof.
  intros H. destruct (H names [] (eq_sym (app_nil_r _))) as [E|(E & _)];
    [assumption|congruence].
Qed.

(** One turn of the loop for a member whose path is free. *)
Lemma createIndex_member_step (fileIndex : dict) (tarInfo : TarInfo) :
  is_root tarInfo = false ->
  normpath ("/" ++ ti_name tarInfo) <> "//" ->
  passable (Dir fileIndex) (member_names tarInfo) ->
  exists fileIndex',
    createIndex_member fileIndex tarInfo None = Ok fileIndex' /\
    descend (removelast (member_names tarInfo))
            (dict_set (last (member_names tarInfo) "") (member_value tarInfo))
            (Dir fileIndex)
    = Ok (Dir fileIndex').
Proof.
  intros Hroot H2 Hpass. unfold is_root in Hroot.
  assert (H1 : normpath ("/" ++ ti_name tarInfo) <> "/")
    by (intros E; rewrite E in Hroot; discriminate).
  set (path := "/" ++ ti_name tarInfo) in *.
  destruct (names_of_spec path H1 H2) as (Hne & Hall & _ & k & Hs).
  set (N := member_names tarInfo) in *.
  change (names_of path) with N in *.
  destruct (descend_succeeds (removelast N)
              (dict_set (last N "") (member_value tarInfo)) (Dir fileIndex))
    as (p' & Hd).
  { apply Forall_removelast. exact Hall. }
  { apply passable_removelast; assumption. }
  destruct (descend_Dir _ _ _ _ Hd) as (d' & ->).
  exists d'. split; [|exact Hd].
  unfold createIndex_member. cbv zeta. fold path.
  rewrite Hroot. cbn [negb].
  assert (Hex : exists_ fileIndex (normpath path) = Ok false).
  { rewrite exists_normpath, exists_found. unfold getFileInfo.
    rewrite Hs, walk_skip_empty, (passable_fresh _ _ Hpass). reflexivity. }
  rewrite Hex. cbn [rbind].
  assert (H1' : normpath (normpath path) <> "/")
    by (rewrite normpath_idempotent; exact H1).
  assert (H2' : normpath (normpath path) <> "//")
    by (rewrite normpath_idempotent; exact H2).
  unfold member_value in Hd.
  destruct (ti_isdir tarInfo).
  - unfold setDirInfo. cbv zeta.
    fold (names_of (normpath path)). rewrite names_of_normpath.
    change (names_of path) with N.
    unfold descend_root. cbn [dict_set]. rewrite Hd. reflexivity.
  - rewrite (setFileInfo_names _ _ _ H1' H2'), names_of_normpath.
    change (names_of path) with N.
    unfold descend_root. rewrite Hd. reflexivity.
Qed.

Lemma diverge_prefix_cases (N pre suffix : list string) :
  diverge N (pre ++ suffix) = true ->
  diverge pre N = true \/ (strictly_above pre N = true /\ suffix <> []).
Proof.
  revert pre. induction N as [|a N1 IH]; intros pre H; [discriminate|].
  destruct pre as [|b pre'].
  - right. split; [reflexivity|]. destruct suffix; [discriminate|discriminate].
  - simpl in H |- *. rewrite String.eqb_sym.
    destruct (String.eqb a b); [|auto].
    destruct (IH pre' H) as [Hd|[Ha Hs]]; auto.
Qed.

Lemma above_prefix_cases (N pre suffix : list string) :
  strictly_above N (pre ++ suffix) = true ->
  (strictly_above pre N = true /\ suffix <> []) \/
  (pre = N /\ suffix <> []) \/
  strictly_above N pre = true.
Proof.
  revert pre. induction N as [|a N1 IH]; intros pre H.
  - destruct pre as [|b pre']; [|auto].
    right. left. split; [reflexivity|]. destruct suffix; discriminate.
  - destruct pre as [|b pre'].
    + left. split; [reflexivity|]. destruct suffix; discriminate.
    + simpl in H |- *. apply andb_prop in H. destruct H as [Hab H].
      rewrite String.eqb_sym, Hab. cbn [andb].
      apply String.eqb_eq in Hab. subst b.
      destruct (IH pre' H) as [[Ha Hs]|[[-> Hs]|Ha]]; auto.
Qed.

Lemma passable_nil (names : list string) :
  names <> [] -> no_empty names -> passable (Dir []) names.
Proof.
  intros Hne Hall pre suffix E. destruct pre as [|a pre'].
  - right. split; [|eexists; reflexivity]. simpl in E. congruence.
  - left. apply walk_nil_dir; [discriminate|].
    rewrite E in Hall. apply Forall_app in Hall. apply Hall.
Qed.

(** A path that was free stays free when a member in order before it is
    stored. *)
Lemma passable_step (first : TarInfo) (names : list string)
  (fileIndex fileIndex' : dict) :
  member_names first <> [] -> no_empty (member_names first) ->
  ~ In "." (member_names first) ->
  no_empty names -> ~ In "." names ->
  descend (removelast (member_names first))
          (dict_set (last (member_names first) "") (member_value first))
          (Dir fileIndex)
  = Ok (Dir fileIndex') ->
  diverge (member_names first) names
  || (ti_isdir first && strictly_above (member_names first) names) = true ->
  passable (Dir fileIndex) names ->
  passable (Dir fileIndex') names.
Proof.
  set (N := member_names first).
  intros Hne Hall Hdot Hnames Hnd Hd Hord Hpass pre suffix E.
  assert (HN : N = (removelast N ++ [last N ""])%list)
    by (apply app_removelast_last; assumption).
  assert (Hrl : no_empty (removelast N)) by (apply Forall_removelast, Hall).
  assert (Hpre : no_empty pre).
  { rewrite E in Hnames. apply Forall_app in Hnames. apply Hnames. }
  assert (Hpd : ~ In "." pre).
  { intros Hin. apply Hnd. rewrite E. apply in_or_app. auto. }
  apply orb_prop in Hord. destruct Hord as [Hdiv|Habove].
  - rewrite E in Hdiv.
    destruct (diverge_prefix_cases _ _ _ Hdiv) as [Hp|[Hp Hs]].
    + rewrite HN in Hp.
      rewrite (descend_walk_diverge _ _ _ _ _ _ Hrl Hpre Hd Hp).
      apply (Hpass pre suffix E).
    + rewrite HN in Hp.
      destruct (descend_walk_above _ _ _ _ _ _ Hrl
                  ltac:(rewrite <- HN; exact Hdot) Hd Hp) as (d' & Hw & _).
      right. split; [assumption|eauto].
  - apply andb_prop in Habove. destruct Habove as [Hdir Habove].
    rewrite E in Habove. unfold member_value in Hd. rewrite Hdir in Hd.
    destruct (above_prefix_cases _ _ _ Habove) as [[Hp Hs]|[[-> Hs]|Hp]].
    + rewrite HN in Hp.
      destruct (descend_walk_above _ _ _ _ _ _ Hrl
                  ltac:(rewrite <- HN; exact Hdot) Hd Hp) as (d' & Hw & _).
      right. split; [assumption|eauto].
    + right. split; [assumption|].
      destruct (descend_walk _ [last N ""] _ _ _ Hd) as (d & Hw).
      rewrite <- HN in Hw. rewrite Hw. simpl.
      assert (Hl : last N "" <> "")
        by (apply (Forall_last _ _ "" Hne Hall)).
      destruct (String.eqb_spec (last N "") ""); [contradiction|].
      rewrite dict_get_set_same. eauto.
    + left. rewrite HN in Hp.
      apply (descend_walk_below _ _ _ _ _ _
               ltac:(rewrite <- HN; exact Hall) Hpre Hpd Hd Hp).
Qed.

(** A stored member stays stored when a member in order after it is
    stored. *)
Lemma stored_step (m0 later : TarInfo) (fileIndex fileIndex' : dict) :
  member_names later <> [] -> no_empty (member_names later) ->
  ~ In "." (member_names later) ->
  no_empty (member_names m0) ->
  descend (removelast (member_names later))
          (dict_set (last (member_names later) "") (member_value later))
          (Dir fileIndex)
  = Ok (Dir fileIndex') ->
  in_order m0 later = true ->
  stored (Dir fileIndex) m0 -> stored (Dir fileIndex') m0.
Proof.
  set (N := member_names later).
  intros Hne Hall Hdot H0 Hd Hord (v & Hw & Hv).
  assert (HN : N = (removelast N ++ [last N ""])%list)
    by (apply app_removelast_last; assumption).
  assert (Hrl : no_empty (removelast N)) by (apply Forall_removelast, Hall).
  unfold in_order in Hord. fold N in Hord.
  apply orb_prop in Hord. destruct Hord as [Hdiv|Habove].
  - rewrite HN in Hdiv. exists v. split; [|exact Hv].
    rewrite (descend_walk_diverge _ _ _ _ _ _ Hrl H0 Hd Hdiv). exact Hw.
  - apply andb_prop in Habove. destruct Habove as [Hdir Habove].
    rewrite Hdir in Hv. destruct Hv as (d & -> & Hself).
    rewrite HN in Habove.
    destruct (descend_walk_above _ _ _ _ _ _ Hrl
                ltac:(rewrite <- HN; exact Hdot) Hd Habove) as (d' & Hw' & Hsame).
    exists (Dir d'). split; [exact Hw'|]. rewrite Hdir.
    exists d'. split; [reflexivity|]. rewrite (Hsame d Hw). exact Hself.
Qed.

(** The names of a member other than the root. *)
Lemma member_names_spec (tarInfo : TarInfo) :
  is_root tarInfo = false ->
  normpath ("/" ++ ti_name tarInfo) <> "//" ->
  member_names tarInfo <> [] /\ no_empty (member_names tarInfo) /\
  ~ In "." (member_names tarInfo).
Proof.
  intros Hroot H2. unfold is_root in Hroot.
  assert (H1 : normpath ("/" ++ ti_name tarInfo) <> "/")
    by (intros E; rewrite E in Hroot; discriminate).
  destruct (names_of_spec _ H1 H2) as (Hne & Hall & Hdot & _).
  split; [exact Hne|]. split; [exact Hall|].
  apply Hdot. apply startswith_slash_app.
Qed.

Lemma well_ordered_not_double_slash (members : list TarInfo) :
  well_ordered members = true ->
  forall m, In m members -> is_root m = false ->
            normpath ("/" ++ ti_name m) <> "//".
Proof.
  induction members as [|m0 rest IH]; intros Hwo m Hin Hroot; [destruct Hin|].
  cbn [well_ordered] in Hwo. apply andb_prop in Hwo. destruct Hwo as [Hhead Hrest].
  destruct Hin as [->|Hin]; [|apply IH; assumption].
  rewrite Hroot in Hhead. cbn [orb] in Hhead.
  apply andb_prop in Hhead. destruct Hhead as [Hn _].
  intros E. rewrite E in Hn. discriminate.
Qed.

(** The loop of [createIndex] over an archive in order, from an index in
    which the paths of its members are free: it ends, every member is
    stored, and what was stored in order before them stays. *)
Lemma createIndex_flat_stores (members : list TarInfo) :
  forall fileIndex,
    well_ordered members = true ->
    (forall m, In m members -> is_root m = false ->
               passable (Dir fileIndex) (member_names m)) ->
    exists fileIndex',
      createIndex_flat fileIndex members = Ok fileIndex' /\
      (forall m, In m members -> is_root m = false ->
                 stored (Dir fileIndex') m) /\
      (forall m0, no_empty (member_names m0) ->
                  stored (Dir fileIndex) m0 ->
                  (forall m, In m members -> is_root m = false ->
                             in_order m0 m = true) ->
                  stored (Dir fileIndex') m0).
Proof.
  induction members as [|m rest IH]; intros fileIndex Hwo Hfree.
  - exists fileIndex. split; [reflexivity|]. split; [intros ? []|auto].
  - pose proof (well_ordered_not_double_slash _ Hwo) as Hnds.
    cbn [well_ordered] in Hwo. apply andb_prop in Hwo. destruct Hwo as [Hhead Hrest].
    destruct (is_root m) eqn:Hroot.
    + (* the root of the archive is skipped *)
      assert (Hstep : createIndex_member fileIndex m None = Ok fileIndex).
      { unfold createIndex_member. cbv zeta. unfold is_root in Hroot.
        rewrite Hroot. reflexivity. }
      destruct (IH fileIndex Hrest) as (idx' & Hrun & Hnew & Hold).
      { intros m' Hin. apply Hfree. right. assumption. }
      exists idx'. split; [simpl; rewrite Hstep; exact Hrun|]. split.
      * intros m' [<-|Hin] Hr; [congruence|]. apply Hnew; assumption.
      * intros m0 Hn0 Hst Hord. apply Hold; [assumption|assumption|].
        intros m' Hin. apply Hord. right. assumption.
    + cbn [orb] in Hhead. apply andb_prop in Hhead.
      destruct Hhead as [_ Hlater]. rewrite forallb_forall in Hlater.
      assert (H2 : normpath ("/" ++ ti_name m) <> "//")
        by (apply Hnds; [left; reflexivity|assumption]).
      destruct (member_names_spec m Hroot H2) as (Hne & Hall & Hdot).
      destruct (createIndex_member_step fileIndex m Hroot H2)
        as (idx1 & Hstep & Hd).
      { apply Hfree; [left; reflexivity|assumption]. }
      assert (Hord : forall m', In m' rest -> is_root m' = false ->
                                in_order m m' = true).
      { intros m' Hin Hr. specialize (Hlater m' Hin). rewrite Hr in Hlater.
        exact Hlater. }
      destruct (IH idx1 Hrest) as (idx' & Hrun & Hnew & Hold).
      { intros m' Hin Hr.
        destruct (member_names_spec m' Hr
                    (Hnds m' (or_intror Hin) Hr)) as (_ & Hall' & Hdot').
        apply (passable_step m (member_names m') fileIndex idx1
                 Hne Hall Hdot Hall' Hdot' Hd).
        - apply (Hord m' Hin Hr).
        - apply Hfree; [right; assumption|assumption]. }
      exists idx'. split; [simpl; rewrite Hstep; exact Hrun|]. split.
      * intros m' [<-|Hin] Hr; [|apply Hnew; assumption].
        apply Hold; [assumption| |assumption].
        destruct (descend_walk _ [last (member_names m) ""] _ _ _ Hd)
          as (d & Hw).
        rewrite <- (app_removelast_last "" Hne) in Hw.
        exists (member_value m). split.
        -- rewrite Hw. simpl.
           assert (Hl : last (member_names m) "" <> "")
             by (apply (Forall_last _ _ "" Hne Hall)).
           destruct (String.eqb_spec (last (member_names m) "") "");
             [contradiction|].
           rewrite dict_get_set_same. reflexivity.
        -- unfold member_value. destruct (ti_isdir m); [|reflexivity].
           eexists. split; reflexivity.
      * intros m0 Hn0 Hst Hord0. apply Hold; [assumption| |].
        -- apply (stored_step m0 m fileIndex idx1 Hne Hall Hdot Hn0 Hd).
           ++ apply Hord0; [left; reflexivity|assumption].
           ++ exact Hst.
        -- intros m' Hin. apply Hord0. right. assumption.
Qed.

Lemma createIndex_loop_flat (members : list Member) (fileIndex : dict) :
  createIndex_loop false fileIndex members
  = createIndex_flat fileIndex (map info members).
Proof.
  revert fileIndex. induction members as [|m rest IH]; intros fileIndex;
    [reflexivity|].
  simpl. destruct (createIndex_member fileIndex (info m) None); simpl; auto.
Qed.

(** X24: for an archive in the usual order (no path twice, every folder
    listed before what it holds, nothing below a member that is no folder),
    [createIndex] without recursive mounting ends without an exception, and
    in the index it builds every member other than the root is found at
    ["/" + name] with the record made of its header; [isDir] tells the
    folder members from the others. *)
Theorem createIndex_stores_every_member (members : list Member) :
  well_ordered (map info members) = true ->
  exists fileIndex,
    createIndex false members = Ok fileIndex /\
    forall m, In m members -> is_root (info m) = false ->
      getFileInfo fileIndex ("/" ++ ti_name (info m)) false
      = Ok (Some (File (scan_FileInfo (info m)))) /\
      isDir fileIndex ("/" ++ ti_name (info m)) = Ok (ti_isdir (info m)).
Proof.
  intros Hwo.
  pose proof (well_ordered_not_double_slash _ Hwo) as Hnds.
  destruct (createIndex_flat_stores (map info members) [] Hwo)
    as (idx & Hrun & Hnew & _).
  { intros m Hin Hr.
    destruct (member_names_spec m Hr (Hnds m Hin Hr)) as (Hne & Hall & _).
    apply passable_nil; assumption. }
  exists idx. split; [unfold createIndex; rewrite createIndex_loop_flat; exact Hrun|].
  intros m Hin Hr.
  assert (Hin' : In (info m) (map info members)) by (apply in_map; assumption).
  destruct (Hnew (info m) Hin' Hr) as (v & Hw & Hv).
  pose proof (Hnds _ Hin' Hr) as H2.
  assert (H1 : normpath ("/" ++ ti_name (info m)) <> "/").
  { unfold is_root in Hr. intros E. rewrite E in Hr. discriminate. }
  destruct (names_of_spec _ H1 H2) as (_ & _ & _ & k & Hs).
  unfold isDir, getFileInfo. rewrite Hs, walk_skip_empty.
  fold (member_names (info m)). rewrite Hw. cbn [rbind negb].
  destruct (ti_isdir (info m)).
  - destruct Hv as (d & -> & Hself). rewrite Hself. split; reflexivity.
  - subst v. split; reflexivity.
Qed.

Lemma createIndex_stores_every_member_witness :
  exists fileIndex,
    createIndex false members_usual = Ok fileIndex /\
    forall m, In m members_usual -> is_root (info m) = false ->
      getFileInfo fileIndex ("/" ++ ti_name (info m)) false
      = Ok (Some (File (scan_FileInfo (info m)))) /\
      isDir fileIndex ("/" ++ ti_name (info m)) = Ok (ti_isdir (info m)).
Proof.
  apply (createIndex_stores_every_member members_usual).
  vm_compute. reflexivity.
Defined.

End RatarmountProofs.
